(** * Pair style lj/cut/coul/dsf/linear: Lennard-Jones with damped, shifted
      force Coulomb electrostatics

    A shallow embedding of [pair_lj_cut_coul_dsf_linear.cpp] and the
    properties of its force and energy kernel.

    Conventions of the embedding.
    - A C [double] is a real number: arithmetic is exact, [sqrt] and [exp]
      are the real functions, and [pow(x,12.0)], [pow(x,6.0)] are the
      natural powers [x ^ 12], [x ^ 6].  Rounding, NaN and infinities are
      outside the model.  A quotient by zero has no meaning in it: a theorem
      that computes with a quotient assumes the divisor is not zero, the
      others only name the expression the code evaluates.
    - A C [int] is an integer of [Z]; an [int] used as a truth value is true
      when it is not [0].
    - A two-dimensional array [a[i][j]] is a function of its two indices.
      [memory->create] returns storage that is not initialised: an
      operation that allocates keeps whatever content the table had, which
      stands for the arbitrary content of the fresh storage.
    - [error->all] ends the run: an operation that can reach it returns a
      [result], either the new state or the error message.
    - The host engine (atom data, unit constants, argument parsers, the
      energy ledger) is not in this file of the package; what the code
      needs from it is a record field, or a variable of a section.
    - The restart input and output and [extract] are left out. *)

From Stdlib Require Import Reals Lra Lia ZArith List String Bool.
Import ListNotations.

Open Scope R_scope.

(** ** Errors *)

Inductive result (A : Type) : Type :=
| Ok (a : A)
| Err (msg : string).

Arguments Ok {A} a.
Arguments Err {A} msg.

Definition bind {A B : Type} (m : result A) (k : A -> result B) : result B :=
  match m with
  | Ok a => k a
  | Err msg => Err msg
  end.

Notation "x <- m ;; k" := (bind m (fun x => k))
  (at level 61, m at next level, right associativity).
Notation "' p <- m ;; k" := (bind m (fun p => k))
  (at level 61, p pattern, m at next level, right associativity).

(** ** Arrays and loops *)

Definition array2 (A : Type) : Type := Z -> Z -> A.

(** [a[i][j] = v] *)
Definition aset {A : Type} (a : array2 A) (i j : Z) (v : A) : array2 A :=
  fun i' j' => if ((i' =? i) && (j' =? j))%Z then v else a i' j'.

(** The indices [lo, lo+1, ..., hi] of [for (k = lo; k <= hi; k++)]. *)
Definition Zrange (lo hi : Z) : list Z :=
  map (fun k => (lo + Z.of_nat k)%Z) (seq 0 (Z.to_nat (hi - lo + 1))).

(** [for (k = lo; k <= hi; k++) s = body k s] *)
Definition for_range {S : Type} (lo hi : Z) (body : Z -> S -> S) (s : S) : S :=
  fold_left (fun acc k => body k acc) (Zrange lo hi) s.

(** ** Constants of the file *)

Definition EWALD_F : R := 1.12837917.
Definition EWALD_P : R := 0.3275911.
Definition A1 : R := 0.254829592.
Definition A2 : R := -0.284496736.
Definition A3 : R := 1.421413741.
Definition A4 : R := -1.453152027.
Definition A5 : R := 1.061405429.
Definition two_pis : R := 1.12837916709551.

(** [MathConst::MY_PI] *)
Definition MY_PI : R := PI.

(** Modelled from the spec: the macro [MAX] of the host's headers, the
    larger of its two arguments, here on doubles. *)
Definition MAX (a b : R) : R := if Rgt_dec a b then a else b.

(** Modelled from the spec: the same macro [MAX], on ints. *)
Definition MAXi (a b : Z) : Z := if (a >? b)%Z then a else b.

(** [pow(x, n.0)] of the C library at an integral exponent. *)
Definition c_pow (x : R) (n : nat) : R := x ^ n.

(** ** The four damping kernels

    Each takes the separation [r] and returns the pair [(v, f)] the C
    function leaves in its two reference arguments. *)

Inductive damping : Type := DampNone | DampDebye | DampGauss | DampErfc.

Definition unshifted_none (r : R) : R * R :=
  let v := 1 / r in
  let f := v * v in
  (v, f).

Definition unshifted_debye (alpha r : R) : R * R :=
  let ar := alpha * r in
  let f := 1 / r in
  let v := exp (- ar) * f in
  let f := f * ((1 + ar) * v) in
  (v, f).

Definition unshifted_gauss (alpha r : R) : R * R :=
  let ar := alpha * r in
  let ar := ar * ar in
  let f := 1 / r in
  let v := exp (- ar) * f in
  let f := f * ((1 + 2 * ar) * v) in
  (v, f).

Definition unshifted_erfc (alpha r : R) : R * R :=
  let ar := alpha * r in
  let f := exp (- ar * ar) / r in
  let v := 1 / (1 + EWALD_P * ar) in
  let v := v * ((A1 + v * (A2 + v * (A3 + v * (A4 + v * A5)))) * f) in
  let f := v / r + two_pis * alpha * f in
  (v, f).

(** The member-function pointer [unshifted], once bound. *)
Definition call_unshifted (k : damping) (alpha r : R) : R * R :=
  match k with
  | DampNone => unshifted_none r
  | DampDebye => unshifted_debye alpha r
  | DampGauss => unshifted_gauss alpha r
  | DampErfc => unshifted_erfc alpha r
  end.

(** ** Host data *)

(** [atom->...]: per-particle arrays are indexed from 0, types from 1. *)
Record Atom : Type := {
  ntypes : Z;
  nlocal : Z;
  q_flag : Z;
  atom_q : Z -> R;
  atom_type : Z -> Z;
  atom_x : array2 R;
  atom_f : array2 R
}.

(** [force->...] *)
Record Force : Type := {
  qqrd2e : R;
  special_lj : Z -> R;
  special_coul : Z -> R;
  newton_pair : Z
}.

(** [list->...]: [ilist] has [inum] entries, [firstneigh i] has
    [numneigh[i]] entries, each a neighbour index with its special-bond
    bits. *)
Record NeighList : Type := {
  ilist : list Z;
  firstneigh : Z -> list Z
}.

(** ** The pair style object

    The fields of [PairLJCutCoulDSFLinear] and those of its base class
    [Pair] that this file reads or writes. *)
Record Pair : Type := {
  (* base class *)
  allocated : Z;
  single_enable : Z;
  offset_flag : Z;
  mix_flag : Z;
  tail_flag : Z;
  etail_ij : R;
  ptail_ij : R;
  setflag : array2 Z;
  cutsq : array2 R;
  (* global settings *)
  alpha : R;
  cut_lj_global : R;
  cut_coul : R;
  self_flag : Z;
  unshifted_flag : Z;
  (* calibration *)
  unshifted : damping;
  cut_coulsq : R;
  e_shift : R;
  f_shift : R;
  e_self : R;
  (* per type pair *)
  cut_lj : array2 R;
  cut_ljsq : array2 R;
  epsilon : array2 R;
  sigma : array2 R;
  lj1 : array2 R;
  lj2 : array2 R;
  lj3 : array2 R;
  lj4 : array2 R;
  offset : array2 R
}.

(** The constructor: [base] is the object as the base class constructor
    and the raw storage leave it. *)
Definition PairLJCutCoulDSFLinear (base : Pair) : Pair :=
  {| allocated := allocated base;
     single_enable := 0;
     offset_flag := offset_flag base;
     mix_flag := mix_flag base;
     tail_flag := tail_flag base;
     etail_ij := etail_ij base;
     ptail_ij := ptail_ij base;
     setflag := setflag base;
     cutsq := cutsq base;
     alpha := alpha base;
     cut_lj_global := cut_lj_global base;
     cut_coul := cut_coul base;
     self_flag := 1;
     unshifted_flag := 3;
     unshifted := unshifted base;
     cut_coulsq := cut_coulsq base;
     e_shift := e_shift base;
     f_shift := f_shift base;
     e_self := e_self base;
     cut_lj := cut_lj base;
     cut_ljsq := cut_ljsq base;
     epsilon := epsilon base;
     sigma := sigma base;
     lj1 := lj1 base;
     lj2 := lj2 base;
     lj3 := lj3 base;
     lj4 := lj4 base;
     offset := offset base |}.

(** ** allocate *)

Definition allocate (st : Pair) (atom : Atom) : Pair :=
  let n := ntypes atom in
  {| allocated := 1;
     single_enable := single_enable st;
     offset_flag := offset_flag st;
     mix_flag := mix_flag st;
     tail_flag := tail_flag st;
     etail_ij := etail_ij st;
     ptail_ij := ptail_ij st;
     setflag :=
       for_range 1 n (fun i sf =>
         for_range i n (fun j sf => aset sf i j 0%Z) sf) (setflag st);
     cutsq := cutsq st;
     alpha := alpha st;
     cut_lj_global := cut_lj_global st;
     cut_coul := cut_coul st;
     self_flag := self_flag st;
     unshifted_flag := unshifted_flag st;
     unshifted := unshifted st;
     cut_coulsq := cut_coulsq st;
     e_shift := e_shift st;
     f_shift := f_shift st;
     e_self := e_self st;
     cut_lj := cut_lj st;
     cut_ljsq := cut_ljsq st;
     epsilon := epsilon st;
     sigma := sigma st;
     lj1 := lj1 st;
     lj2 := lj2 st;
     lj3 := lj3 st;
     lj4 := lj4 st;
     offset := offset st |}.

(** ** The host's services *)

Section Host.

(** [force->numeric]: the number a token denotes, or the host's error. *)
Variable numeric : string -> result R.

(** [force->bounds]: the type range [(lo, hi)] a token denotes among
    [nmax] types, or the host's error. *)
Variable bounds : string -> Z -> result (Z * Z).

(** The distance weight the host's mixing policy [mix_flag] puts on the
    mixed energy, as a function of the two diameters. *)
Variable mix_weight : Z -> R -> R -> R.

(** [MPI_Allreduce] of two doubles with [MPI_SUM]: the sums, over all
    partitions, of the two local values. *)
Variable MPI_Allreduce_SUM : R * R -> R * R.

(** [sbmask] and [NEIGHMASK] of the host's neighbour lists: the
    special-bond index kept in the high bits of a neighbour entry, and the
    mask that leaves the particle index. *)
Variable sbmask : Z -> Z.
Variable NEIGHMASK : Z.

(** [ev_setup]: the values it gives [evflag] and [vflag_fdotr]. *)
Variable ev_setup : Z -> Z -> Z * Z.

(** Modelled from the spec: the mixing helper [mix_energy] of the base
    class, which is not in this file.  The mixed energy is the geometric
    mean of the two self energies, distance-weighted by the mixing
    policy. *)
Definition mix_energy (st : Pair) (eps1 eps2 sig1 sig2 : R) : R :=
  mix_weight (mix_flag st) sig1 sig2 * sqrt (eps1 * eps2).

(** Modelled from the spec: the mixing helper [mix_distance] of the base
    class, which is not in this file.  The mixed distance is the arithmetic
    mean of the two distances. *)
Definition mix_distance (st : Pair) (sig1 sig2 : R) : R :=
  (sig1 + sig2) / 2.

(** ** settings *)

(** The keyword loop [while (iarg < narg)], on the arguments from [iarg]
    on; it returns the new [self_flag] and [unshifted_flag]. *)
Fixpoint settings_keywords (arg : list string) (self_flag0 unshifted_flag0 : Z)
  : result (Z * Z) :=
  match arg with
  | [] => Ok (self_flag0, unshifted_flag0)
  | kw :: rest =>
      if (kw =? "self")%string then
        match rest with
        | [] => Err "Illegal pair_style command"
        | v :: rest' =>
            if (v =? "yes")%string then settings_keywords rest' 1%Z unshifted_flag0
            else if (v =? "no")%string then settings_keywords rest' 0%Z unshifted_flag0
            else Err "Illegal pair_style command"
        end
      else if (kw =? "damp")%string then
        match rest with
        | [] => Err "Illegal pair_style command"
        | v :: rest' =>
            if (v =? "none")%string then settings_keywords rest' self_flag0 0%Z
            else if (v =? "debye")%string then settings_keywords rest' self_flag0 1%Z
            else if (v =? "gauss")%string then settings_keywords rest' self_flag0 2%Z
            else if (v =? "erfc")%string then settings_keywords rest' self_flag0 3%Z
            else Err "Illegal pair_style command"
        end
      else Err "Illegal pair_style command"
  end.

(** The loop that resets the cutoffs of the pairs set explicitly. *)
Definition reset_cutoffs (n : Z) (sf : array2 Z) (cut_lj_global' : R)
  (cl : array2 R) : array2 R :=
  for_range 1 n (fun i cl =>
    for_range (i + 1) n (fun j cl =>
      if (sf i j =? 0)%Z then cl else aset cl i j cut_lj_global') cl) cl.

Definition settings (st : Pair) (atom : Atom) (arg : list string) : result Pair :=
  match arg with
  | a0 :: a1 :: rest =>
      alpha' <- numeric a0 ;;
      cut_lj_global' <- numeric a1 ;;
      ' (cut_coul', keywords) <-
        match rest with
        | [] => Ok (cut_lj_global', rest)
        | a2 :: rest' =>
            if ((a2 =? "self") || (a2 =? "damp"))%string
            then Ok (cut_lj_global', rest)
            else (c <- numeric a2 ;; Ok (c, rest'))
        end ;;
      ' (self_flag', unshifted_flag') <-
        settings_keywords keywords (self_flag st) (unshifted_flag st) ;;
      Ok {| allocated := allocated st;
            single_enable := if (self_flag' =? 0)%Z then 1%Z else 0%Z;
            offset_flag := offset_flag st;
            mix_flag := mix_flag st;
            tail_flag := tail_flag st;
            etail_ij := etail_ij st;
            ptail_ij := ptail_ij st;
            setflag := setflag st;
            cutsq := cutsq st;
            alpha := alpha';
            cut_lj_global := cut_lj_global';
            cut_coul := cut_coul';
            self_flag := self_flag';
            unshifted_flag := unshifted_flag';
            unshifted := unshifted st;
            cut_coulsq := cut_coulsq st;
            e_shift := e_shift st;
            f_shift := f_shift st;
            e_self := e_self st;
            cut_lj :=
              if (allocated st =? 0)%Z then cut_lj st
              else reset_cutoffs (ntypes atom) (setflag st) cut_lj_global' (cut_lj st);
            cut_ljsq := cut_ljsq st;
            epsilon := epsilon st;
            sigma := sigma st;
            lj1 := lj1 st;
            lj2 := lj2 st;
            lj3 := lj3 st;
            lj4 := lj4 st;
            offset := offset st |}
  | _ => Err "Illegal pair_style command"
  end.

(** ** coeff *)

(** The variables the double loop of [coeff] writes. *)
Record coeff_vars : Type := {
  cv_epsilon : array2 R;
  cv_sigma : array2 R;
  cv_cut_lj : array2 R;
  cv_setflag : array2 Z;
  cv_count : Z
}.

Definition coeff_body (epsilon_one sigma_one cut_lj_one : R) (i j : Z)
  (v : coeff_vars) : coeff_vars :=
  {| cv_epsilon := aset (cv_epsilon v) i j epsilon_one;
     cv_sigma := aset (cv_sigma v) i j sigma_one;
     cv_cut_lj := aset (cv_cut_lj v) i j cut_lj_one;
     cv_setflag := aset (cv_setflag v) i j 1%Z;
     cv_count := (cv_count v + 1)%Z |}.

Definition coeff_loop (ilo ihi jlo jhi : Z) (epsilon_one sigma_one cut_lj_one : R)
  (v : coeff_vars) : coeff_vars :=
  for_range ilo ihi (fun i v =>
    for_range (MAXi jlo i) jhi (coeff_body epsilon_one sigma_one cut_lj_one i) v) v.

Definition coeff (st : Pair) (atom : Atom) (arg : list string) : result Pair :=
  match arg with
  | a0 :: a1 :: a2 :: a3 :: rest =>
      match rest with
      | _ :: _ :: _ => Err "Incorrect args for pair coefficients"
      | _ =>
          let st := if (allocated st =? 0)%Z then allocate st atom else st in
          ' (ilo, ihi) <- bounds a0 (ntypes atom) ;;
          ' (jlo, jhi) <- bounds a1 (ntypes atom) ;;
          epsilon_one <- numeric a2 ;;
          sigma_one <- numeric a3 ;;
          cut_lj_one <-
            match rest with
            | a4 :: _ => numeric a4
            | [] => Ok (cut_lj_global st)
            end ;;
          let v := coeff_loop ilo ihi jlo jhi epsilon_one sigma_one cut_lj_one
                     {| cv_epsilon := epsilon st;
                        cv_sigma := sigma st;
                        cv_cut_lj := cut_lj st;
                        cv_setflag := setflag st;
                        cv_count := 0 |} in
          if (cv_count v =? 0)%Z then Err "Incorrect args for pair coefficients"
          else
            Ok {| allocated := allocated st;
                  single_enable := single_enable st;
                  offset_flag := offset_flag st;
                  mix_flag := mix_flag st;
                  tail_flag := tail_flag st;
                  etail_ij := etail_ij st;
                  ptail_ij := ptail_ij st;
                  setflag := cv_setflag v;
                  cutsq := cutsq st;
                  alpha := alpha st;
                  cut_lj_global := cut_lj_global st;
                  cut_coul := cut_coul st;
                  self_flag := self_flag st;
                  unshifted_flag := unshifted_flag st;
                  unshifted := unshifted st;
                  cut_coulsq := cut_coulsq st;
                  e_shift := e_shift st;
                  f_shift := f_shift st;
                  e_self := e_self st;
                  cut_lj := cv_cut_lj v;
                  cut_ljsq := cut_ljsq st;
                  epsilon := cv_epsilon v;
                  sigma := cv_sigma v;
                  lj1 := lj1 st;
                  lj2 := lj2 st;
                  lj3 := lj3 st;
                  lj4 := lj4 st;
                  offset := offset st |}
      end
  | _ => Err "Incorrect args for pair coefficients"
  end.

(** ** init_parameters and init_style *)

Definition init_parameters (st : Pair) (force : Force) : Pair :=
  let unshifted' :=
    if (unshifted_flag st =? 0)%Z then DampNone
    else if (unshifted_flag st =? 1)%Z then DampDebye
    else if (unshifted_flag st =? 2)%Z then DampGauss
    else if (unshifted_flag st =? 3)%Z then DampErfc
    else unshifted st in
  let cut_coulsq' := cut_coul st * cut_coul st in
  let '(e_shift0, f_shift') := call_unshifted unshifted' (alpha st) (cut_coul st) in
  let e_shift' := e_shift0 + f_shift' * cut_coul st in
  let e_self' :=
    if (unshifted_flag st =? 1)%Z then
      -0.5 * (e_shift' + alpha st) / qqrd2e force
    else if (unshifted_flag st =? 3)%Z then
      -0.5 * (e_shift' + two_pis * alpha st) / qqrd2e force
    else
      -0.5 * e_shift' / qqrd2e force in
  {| allocated := allocated st;
     single_enable := single_enable st;
     offset_flag := offset_flag st;
     mix_flag := mix_flag st;
     tail_flag := tail_flag st;
     etail_ij := etail_ij st;
     ptail_ij := ptail_ij st;
     setflag := setflag st;
     cutsq := cutsq st;
     alpha := alpha st;
     cut_lj_global := cut_lj_global st;
     cut_coul := cut_coul st;
     self_flag := self_flag st;
     unshifted_flag := unshifted_flag st;
     unshifted := unshifted';
     cut_coulsq := cut_coulsq';
     e_shift := e_shift';
     f_shift := f_shift';
     e_self := e_self';
     cut_lj := cut_lj st;
     cut_ljsq := cut_ljsq st;
     epsilon := epsilon st;
     sigma := sigma st;
     lj1 := lj1 st;
     lj2 := lj2 st;
     lj3 := lj3 st;
     lj4 := lj4 st;
     offset := offset st |}.

(** [init_style] checks that the particles carry charges, asks the host for
    a neighbour list (not modelled) and calibrates. *)
Definition init_style (st : Pair) (atom : Atom) (force : Force) : result Pair :=
  if (q_flag atom =? 0)%Z
  then Err "Pair style lj/cut/coul/dsf requires atom charges"
  else Ok (init_parameters st force).

(** ** init_one *)

(** The two counters of the tail correction: the local particles of type
    [i] and of type [j], counted in doubles. *)
Definition count_types (atom : Atom) (i j : Z) : R * R :=
  for_range 0 (nlocal atom - 1) (fun k c =>
    let c0 := if (atom_type atom k =? i)%Z then fst c + 1 else fst c in
    let c1 := if (atom_type atom k =? j)%Z then snd c + 1 else snd c in
    (c0, c1)) (0, 0).

(** [init_one] returns the cutoff of the pair and the updated object. *)
Definition init_one (st : Pair) (atom : Atom) (i j : Z) : R * Pair :=
  let unset := (setflag st i j =? 0)%Z in
  let epsilon0 :=
    if unset then
      aset (epsilon st) i j
        (mix_energy st (epsilon st i i) (epsilon st j j) (sigma st i i) (sigma st j j))
    else epsilon st in
  let sigma0 :=
    if unset then aset (sigma st) i j (mix_distance st (sigma st i i) (sigma st j j))
    else sigma st in
  let cut_lj0 :=
    if unset then aset (cut_lj st) i j (mix_distance st (cut_lj st i i) (cut_lj st j j))
    else cut_lj st in
  let cut := MAX (cut_lj0 i j) (cut_coul st) in
  let cut_ljsq1 := aset (cut_ljsq st) i j (cut_lj0 i j * cut_lj0 i j) in
  let lj1_1 := aset (lj1 st) i j (48 * epsilon0 i j * c_pow (sigma0 i j) 12) in
  let lj2_1 := aset (lj2 st) i j (24 * epsilon0 i j * c_pow (sigma0 i j) 6) in
  let lj3_1 := aset (lj3 st) i j (4 * epsilon0 i j * c_pow (sigma0 i j) 12) in
  let lj4_1 := aset (lj4 st) i j (4 * epsilon0 i j * c_pow (sigma0 i j) 6) in
  let offset1 :=
    if (offset_flag st =? 0)%Z then aset (offset st) i j 0
    else
      let ratio := sigma0 i j / cut_lj0 i j in
      aset (offset st) i j (4 * epsilon0 i j * (c_pow ratio 12 - c_pow ratio 6)) in
  let cut_ljsq2 := aset cut_ljsq1 j i (cut_ljsq1 i j) in
  let lj1_2 := aset lj1_1 j i (lj1_1 i j) in
  let lj2_2 := aset lj2_1 j i (lj2_1 i j) in
  let lj3_2 := aset lj3_1 j i (lj3_1 i j) in
  let lj4_2 := aset lj4_1 j i (lj4_1 i j) in
  let offset2 := aset offset1 j i (offset1 i j) in
  let '(etail', ptail') :=
    if (tail_flag st =? 0)%Z then (etail_ij st, ptail_ij st)
    else
      let all := MPI_Allreduce_SUM (count_types atom i j) in
      let sig2 := sigma0 i j * sigma0 i j in
      let sig6 := sig2 * sig2 * sig2 in
      let rc3 := cut_lj0 i j * cut_lj0 i j * cut_lj0 i j in
      let rc6 := rc3 * rc3 in
      let rc9 := rc3 * rc6 in
      (8 * MY_PI * fst all * snd all * epsilon0 i j *
         sig6 * (sig6 - 3 * rc6) / (9 * rc9),
       16 * MY_PI * fst all * snd all * epsilon0 i j *
         sig6 * (2 * sig6 - 3 * rc6) / (9 * rc9)) in
  (cut,
   {| allocated := allocated st;
      single_enable := single_enable st;
      offset_flag := offset_flag st;
      mix_flag := mix_flag st;
      tail_flag := tail_flag st;
      etail_ij := etail';
      ptail_ij := ptail';
      setflag := setflag st;
      cutsq := cutsq st;
      alpha := alpha st;
      cut_lj_global := cut_lj_global st;
      cut_coul := cut_coul st;
      self_flag := self_flag st;
      unshifted_flag := unshifted_flag st;
      unshifted := unshifted st;
      cut_coulsq := cut_coulsq st;
      e_shift := e_shift st;
      f_shift := f_shift st;
      e_self := e_self st;
      cut_lj := cut_lj0;
      cut_ljsq := cut_ljsq2;
      epsilon := epsilon0;
      sigma := sigma0;
      lj1 := lj1_2;
      lj2 := lj2_2;
      lj3 := lj3_2;
      lj4 := lj4_2;
      offset := offset2 |}).

(** ** single

    [single] returns the energy [eng] and leaves the force factor in
    [fforce]; the result is the pair [(eng, fforce)].  The locals [r6inv],
    and [r], [vr], [fr], [prefactor], are assigned and read under the same
    cutoff test. *)
Definition single (st : Pair) (atom : Atom) (force : Force)
  (i j itype jtype : Z) (rsq factor_coul factor_lj : R) : R * R :=
  let r2inv := 1 / rsq in
  let fforce := 0 in
  let r6inv := r2inv * r2inv * r2inv in
  let fforce :=
    if Rlt_dec rsq (cut_ljsq st itype jtype)
    then fforce + factor_lj * r6inv * (lj1 st itype jtype * r6inv - lj2 st itype jtype)
    else fforce in
  let r := sqrt rsq in
  let '(vr, fr) := call_unshifted (unshifted st) (alpha st) r in
  let prefactor := factor_coul * qqrd2e force * atom_q atom i * atom_q atom j in
  let fforce :=
    if Rlt_dec rsq (cut_coulsq st)
    then fforce + prefactor * (fr - f_shift st) * r
    else fforce in
  let fforce := fforce * r2inv in
  let eng := 0 in
  let eng :=
    if Rlt_dec rsq (cut_ljsq st itype jtype)
    then eng + (factor_lj * r6inv * (lj3 st itype jtype * r6inv - lj4 st itype jtype)
                - offset st itype jtype)
    else eng in
  let eng :=
    if Rlt_dec rsq (cut_coulsq st)
    then eng + prefactor * (vr + r * f_shift st - e_shift st)
    else eng in
  (eng, fforce).

(** ** compute *)

(** One call of the host's [ev_tally], with its ten arguments. *)
Record tally : Type := {
  t_i : Z;
  t_j : Z;
  t_nlocal : Z;
  t_newton_pair : Z;
  t_evdwl : R;
  t_ecoul : R;
  t_fpair : R;
  t_delx : R;
  t_dely : R;
  t_delz : R
}.

(** The self energy pass: one [ev_tally] per local particle. *)
Definition compute_self (st : Pair) (atom : Atom) (force : Force)
  (log : list tally) : list tally :=
  for_range 0 (nlocal atom - 1) (fun i log =>
    let qtmp := qqrd2e force * atom_q atom i in
    log ++ [ {| t_i := i; t_j := i; t_nlocal := nlocal atom; t_newton_pair := 0;
                t_evdwl := 0; t_ecoul := e_self st * qtmp * qtmp;
                t_fpair := 0; t_delx := 0; t_dely := 0; t_delz := 0 |} ]) log.

(** The variables the neighbour loops write: the force array, the two
    energies (they keep their value from one pair to the next) and the calls
    of [ev_tally] made so far. *)
Record compute_vars : Type := {
  c_f : array2 R;
  c_evdwl : R;
  c_ecoul : R;
  c_log : list tally
}.

(** The body of the inner loop, for particle [i] and the neighbour entry
    [jraw]. *)
Definition compute_pair (st : Pair) (atom : Atom) (force : Force)
  (eflag evflag : Z) (i jraw : Z) (v : compute_vars) : compute_vars :=
  let qtmp := qqrd2e force * atom_q atom i in
  let xtmp := atom_x atom i 0%Z in
  let ytmp := atom_x atom i 1%Z in
  let ztmp := atom_x atom i 2%Z in
  let itype := atom_type atom i in
  let factor_lj := special_lj force (sbmask jraw) in
  let factor_coul := special_coul force (sbmask jraw) in
  let j := Z.land jraw NEIGHMASK in
  let delx := xtmp - atom_x atom j 0%Z in
  let dely := ytmp - atom_x atom j 1%Z in
  let delz := ztmp - atom_x atom j 2%Z in
  let rsq := delx * delx + dely * dely + delz * delz in
  let jtype := atom_type atom j in
  if Rlt_dec rsq (cutsq st itype jtype) then
    let r2inv := 1 / rsq in
    let fpair := 0 in
    let r6inv := r2inv * r2inv * r2inv in
    let fpair :=
      if Rlt_dec rsq (cut_ljsq st itype jtype)
      then fpair + factor_lj * r6inv * (lj1 st itype jtype * r6inv - lj2 st itype jtype)
      else fpair in
    let r := sqrt rsq in
    let '(vr, fr) := call_unshifted (unshifted st) (alpha st) r in
    let prefactor := factor_coul * qtmp * atom_q atom j in
    let fpair :=
      if Rlt_dec rsq (cut_coulsq st)
      then fpair + prefactor * (fr - f_shift st) * r
      else fpair in
    let fpair := fpair * r2inv in
    let f := c_f v in
    let f := aset f i 0%Z (f i 0%Z + delx * fpair) in
    let f := aset f i 1%Z (f i 1%Z + dely * fpair) in
    let f := aset f i 2%Z (f i 2%Z + delz * fpair) in
    let f :=
      if (negb (newton_pair force =? 0)%Z || (j <? nlocal atom)%Z)%bool then
        let f := aset f j 0%Z (f j 0%Z - delx * fpair) in
        let f := aset f j 1%Z (f j 1%Z - dely * fpair) in
        aset f j 2%Z (f j 2%Z - delz * fpair)
      else f in
    let evdwl :=
      if (eflag =? 0)%Z then c_evdwl v
      else if Rlt_dec rsq (cut_ljsq st itype jtype)
      then factor_lj * r6inv * (lj3 st itype jtype * r6inv - lj4 st itype jtype)
           - offset st itype jtype
      else 0 in
    let ecoul :=
      if (eflag =? 0)%Z then c_ecoul v
      else if Rlt_dec rsq (cut_coulsq st)
      then prefactor * (vr + r * f_shift st - e_shift st)
      else 0 in
    {| c_f := f; c_evdwl := evdwl; c_ecoul := ecoul;
       c_log :=
         if (evflag =? 0)%Z then c_log v
         else c_log v ++
              [ {| t_i := i; t_j := j; t_nlocal := nlocal atom;
                   t_newton_pair := newton_pair force;
                   t_evdwl := evdwl; t_ecoul := ecoul; t_fpair := fpair;
                   t_delx := delx; t_dely := dely; t_delz := delz |} ] |}
  else v.

(** [compute] returns the force array, the calls of [ev_tally] in the order
    they were made, and [vflag_fdotr] (when it is not 0 the host's
    [virial_fdotr_compute] runs last). *)
Definition compute (st : Pair) (atom : Atom) (force : Force) (neigh : NeighList)
  (eflag vflag : Z) : array2 R * list tally * Z :=
  let '(evflag, vflag_fdotr) :=
    if (negb (eflag =? 0)%Z || negb (vflag =? 0)%Z)%bool
    then ev_setup eflag vflag else (0%Z, 0%Z) in
  let log :=
    if (negb (eflag =? 0)%Z && negb (self_flag st =? 0)%Z)%bool
    then compute_self st atom force [] else [] in
  let v :=
    fold_left (fun v i =>
      fold_left (fun v jraw => compute_pair st atom force eflag evflag i jraw v)
        (firstneigh neigh i) v)
      (ilist neigh)
      {| c_f := atom_f atom; c_evdwl := 0; c_ecoul := 0; c_log := log |} in
  (c_f v, c_log v, vflag_fdotr).

(** ** Sequences of set-up calls

    The calls by which the host configures and finalizes the tables, in the
    order it makes them. *)
Inductive op : Type :=
| OpSettings (arg : list string)
| OpCoeff (arg : list string)
| OpInitOne (i j : Z).

Definition step (atom : Atom) (st : Pair) (o : op) : result Pair :=
  match o with
  | OpSettings arg => settings st atom arg
  | OpCoeff arg => coeff st atom arg
  | OpInitOne i j => Ok (snd (init_one st atom i j))
  end.

Fixpoint run (atom : Atom) (st : Pair) (ops : list op) : result Pair :=
  match ops with
  | [] => Ok st
  | o :: ops' => st' <- step atom st o ;; run atom st' ops'
  end.

End Host.

(** ** Vocabulary of the statements *)

(** The value of [unshifted_flag] that selects a kernel. *)
Definition flag_of (d : damping) : Z :=
  match d with
  | DampNone => 0
  | DampDebye => 1
  | DampGauss => 2
  | DampErfc => 3
  end%Z.

(** The potential and the force value of a kernel, as functions of [r]. *)
Definition v_of (d : damping) (alpha r : R) : R := fst (call_unshifted d alpha r).
Definition f_of (d : damping) (alpha r : R) : R := snd (call_unshifted d alpha r).

(** The pieces of [unshifted_erfc]: its rational variable, the polynomial
    in it and the derivative of that polynomial. *)
Definition erfc_t (alpha r : R) : R := 1 / (1 + EWALD_P * (alpha * r)).

Definition erfc_poly (t : R) : R := A1 + t * (A2 + t * (A3 + t * (A4 + t * A5))).

Definition erfc_poly' (t : R) : R := A2 + t * (2 * A3 + t * (3 * A4 + t * (4 * A5))).

(** What the force value of [unshifted_erfc] lacks to be minus the
    derivative of its potential value. *)
Definition erfc_defect (alpha r : R) : R :=
  let t := erfc_t alpha r in
  alpha * (exp (- (alpha * r) * (alpha * r)) / r) *
  (EWALD_P * (t * t) * (erfc_poly t + t * erfc_poly' t)
   + 2 * (alpha * r) * (t * erfc_poly t) - two_pis).

(** The type pairs a call of [coeff] with resolved ranges [ilo..ihi] and
    [jlo..jhi] writes. *)
Definition covered (ilo ihi jlo jhi i j : Z) : bool :=
  ((ilo <=? i) && (i <=? ihi) && (jlo <=? j) && (j <=? jhi) && (i <=? j))%Z.

(** Their number. *)
Definition covered_count (ilo ihi jlo jhi : Z) : Z :=
  Z.of_nat (List.length (filter (fun p => (fst p <=? snd p)%Z)
                      (list_prod (Zrange ilo ihi) (Zrange jlo jhi)))).

(** The tables [init_one] mirrors agree at [(i,j)] and [(j,i)]. *)
Definition derived_sym (st : Pair) (i j : Z) : Prop :=
  cut_ljsq st j i = cut_ljsq st i j /\
  lj1 st j i = lj1 st i j /\
  lj2 st j i = lj2 st i j /\
  lj3 st j i = lj3 st i j /\
  lj4 st j i = lj4 st i j /\
  offset st j i = offset st i j.

(** ** A sample host and sample data, for the examples *)

Definition sample_numeric (s : string) : result R :=
  if (s =? "0")%string then Ok 0
  else if (s =? "1")%string then Ok 1
  else if (s =? "0.5")%string then Ok 0.5
  else if (s =? "1.2")%string then Ok 1.2
  else if (s =? "2.5")%string then Ok 2.5
  else if (s =? "3.0")%string then Ok 3
  else Err "Expected floating point parameter in input script or data file".

Definition sample_bounds (s : string) (nmax : Z) : result (Z * Z) :=
  if (s =? "1")%string then Ok (1, 1)%Z
  else if (s =? "2")%string then Ok (2, 2)%Z
  else if (s =? "1*2")%string then Ok (1, 2)%Z
  else if (s =? "*")%string then Ok (1, nmax)%Z
  else Err "Numeric index is out of bounds".

Definition sample_mix_weight (mix : Z) (sig1 sig2 : R) : R := 1.

Definition sample_Allreduce (c : R * R) : R * R := c.

(** An object whose storage holds zeros. *)
Definition raw0 : Pair :=
  {| allocated := 0; single_enable := 0; offset_flag := 0; mix_flag := 0;
     tail_flag := 0; etail_ij := 0; ptail_ij := 0;
     setflag := fun _ _ => 0%Z; cutsq := fun _ _ => 0;
     alpha := 0; cut_lj_global := 0; cut_coul := 0;
     self_flag := 0; unshifted_flag := 0;
     unshifted := DampNone; cut_coulsq := 0; e_shift := 0; f_shift := 0;
     e_self := 0;
     cut_lj := fun _ _ => 0; cut_ljsq := fun _ _ => 0;
     epsilon := fun _ _ => 0; sigma := fun _ _ => 0;
     lj1 := fun _ _ => 0; lj2 := fun _ _ => 0; lj3 := fun _ _ => 0;
     lj4 := fun _ _ => 0; offset := fun _ _ => 0 |}.

Definition pair0 : Pair := PairLJCutCoulDSFLinear raw0.

(** Two particle types; one local particle of type 1 and charge 1, at the
    origin. *)
Definition atom2 : Atom :=
  {| ntypes := 2; nlocal := 1; q_flag := 1;
     atom_q := fun _ => 1; atom_type := fun _ => 1%Z;
     atom_x := fun _ _ => 0; atom_f := fun _ _ => 0 |}.

(** Units with [qqrd2e = 1], and units with [qqrd2e = 2]. *)
Definition force1 : Force :=
  {| qqrd2e := 1; special_lj := fun _ => 1; special_coul := fun _ => 1;
     newton_pair := 1 |}.

Definition force2 : Force :=
  {| qqrd2e := 2; special_lj := fun _ => 1; special_coul := fun _ => 1;
     newton_pair := 1 |}.

Definition neigh0 : NeighList :=
  {| ilist := []; firstneigh := fun _ => [] |}.

(** A configured object, written out: no damping, [alpha = 0], both global
    cutoffs 2.5, and every pair flagged with epsilon 1, sigma 1 and cutoff
    2.5; nothing is calibrated or finalized yet. *)
Definition sample_cfg : Pair :=
  {| allocated := 1; single_enable := 0; offset_flag := 0; mix_flag := 0;
     tail_flag := 0; etail_ij := 0; ptail_ij := 0;
     setflag := fun _ _ => 1%Z; cutsq := fun _ _ => 2.5 * 2.5;
     alpha := 0; cut_lj_global := 2.5; cut_coul := 2.5;
     self_flag := 1; unshifted_flag := 0;
     unshifted := DampNone; cut_coulsq := 0; e_shift := 0; f_shift := 0;
     e_self := 0;
     cut_lj := fun _ _ => 2.5; cut_ljsq := fun _ _ => 0;
     epsilon := fun _ _ => 1; sigma := fun _ _ => 1;
     lj1 := fun _ _ => 0; lj2 := fun _ _ => 0; lj3 := fun _ _ => 0;
     lj4 := fun _ _ => 0; offset := fun _ _ => 0 |}.

(** The same object, calibrated and with the pair (1,1) finalized. *)
Definition sample_pair : Pair :=
  snd (init_one sample_mix_weight sample_Allreduce
         (init_parameters sample_cfg force1) atom2 1 1).

(** The same with the erfc variant and [alpha = 1]. *)
Definition sample_cfg_erfc : Pair :=
  {| allocated := 1; single_enable := 0; offset_flag := 0; mix_flag := 0;
     tail_flag := 0; etail_ij := 0; ptail_ij := 0;
     setflag := fun _ _ => 1%Z; cutsq := fun _ _ => 2.5 * 2.5;
     alpha := 1; cut_lj_global := 2.5; cut_coul := 2.5;
     self_flag := 1; unshifted_flag := 3;
     unshifted := DampNone; cut_coulsq := 0; e_shift := 0; f_shift := 0;
     e_self := 0;
     cut_lj := fun _ _ => 2.5; cut_ljsq := fun _ _ => 0;
     epsilon := fun _ _ => 1; sigma := fun _ _ => 1;
     lj1 := fun _ _ => 0; lj2 := fun _ _ => 0; lj3 := fun _ _ => 0;
     lj4 := fun _ _ => 0; offset := fun _ _ => 0 |}.

(** The set-up [pair_style 0 2.5], [pair_coeff 1*2 1*2 0.5 1.2] on two
    types, followed by the finalization of the pair (1,2). *)
Definition sample_ops : list op :=
  [ OpSettings ["0"; "2.5"]%string;
    OpCoeff ["1*2"; "1*2"; "0.5"; "1.2"]%string;
    OpInitOne 1 2 ].

Definition sample_run : result Pair :=
  run sample_numeric sample_bounds sample_mix_weight sample_Allreduce
    atom2 pair0 sample_ops.

Definition sample_final : Pair :=
  match sample_run with
  | Ok st => st
  | Err _ => pair0
  end.

(** The object after [pair_style 0 2.5] alone. *)
Definition sample_set : Pair :=
  match settings sample_numeric pair0 atom2 ["0"; "2.5"]%string with
  | Ok st => st
  | Err _ => pair0
  end.

(** The object of the sample set-up after a second [pair_style 1 3.0]. *)
Definition sample_reset : Pair :=
  match settings sample_numeric sample_final atom2 ["1"; "3.0"]%string with
  | Ok st => st
  | Err _ => pair0
  end.

(** A host whose neighbour entries keep the special-bond index in the two
    bits above bit 30, and whose [ev_setup] asks for tallies. *)
Definition sample_sbmask (j : Z) : Z := Z.land (Z.shiftr j 30) 3.

Definition sample_NEIGHMASK : Z := 1073741823.

Definition sample_ev_setup (eflag vflag : Z) : Z * Z := (1, 0)%Z.

(** An object with the diagonal pairs set, (1,1) to epsilon 1, sigma 1 and
    (2,2) to epsilon 4, sigma 3, both with cutoff 2.5, and the pair (1,2)
    left to mixing; the offset is on. *)
Definition sample_mix_cfg : Pair :=
  {| allocated := 1; single_enable := 0; offset_flag := 1; mix_flag := 0;
     tail_flag := 0; etail_ij := 0; ptail_ij := 0;
     setflag := fun i j => if (i =? j)%Z then 1%Z else 0%Z;
     cutsq := fun _ _ => 0;
     alpha := 0; cut_lj_global := 2.5; cut_coul := 3;
     self_flag := 1; unshifted_flag := 0;
     unshifted := DampNone; cut_coulsq := 0; e_shift := 0; f_shift := 0;
     e_self := 0;
     cut_lj := fun _ _ => 2.5; cut_ljsq := fun _ _ => 0;
     epsilon := fun i _ => if (i =? 1)%Z then 1 else 4;
     sigma := fun i _ => if (i =? 1)%Z then 1 else 3;
     lj1 := fun _ _ => 0; lj2 := fun _ _ => 0; lj3 := fun _ _ => 0;
     lj4 := fun _ _ => 0; offset := fun _ _ => 0 |}.

(** ** Restart files

    A restart file is the sequence of the fields written to it, each an
    [int] or a [double], in the order of the [fwrite] calls.  [fread] takes
    the next field; at the end of the file it reads nothing and leaves its
    variable as it is (the code does not look at what [fread] returns).
    Reading a field of one kind where the other kind was written yields
    bytes the model cannot name: the reading functions return [None] there.
    The reading functions are those of process 0, which holds the file;
    [MPI_Bcast] leaves the value of its root in place and hands it to the
    other processes. *)

Inductive field : Type :=
| FInt (z : Z)
| FDouble (x : R).

Definition fwrite_int (z : Z) (fp : list field) : list field := fp ++ [FInt z].

Definition fwrite_double (x : R) (fp : list field) : list field := fp ++ [FDouble x].

Definition fread_int (old : Z) (fp : list field) : option (Z * list field) :=
  match fp with
  | [] => Some (old, [])
  | FInt z :: rest => Some (z, rest)
  | FDouble _ :: _ => None
  end.

Definition fread_double (old : R) (fp : list field) : option (R * list field) :=
  match fp with
  | [] => Some (old, [])
  | FDouble x :: rest => Some (x, rest)
  | FInt _ :: _ => None
  end.

Definition write_restart_settings (st : Pair) (fp : list field) : list field :=
  let fp := fwrite_double (alpha st) fp in
  let fp := fwrite_double (cut_lj_global st) fp in
  let fp := fwrite_double (cut_coul st) fp in
  let fp := fwrite_int (offset_flag st) fp in
  let fp := fwrite_int (mix_flag st) fp in
  let fp := fwrite_int (tail_flag st) fp in
  let fp := fwrite_int (self_flag st) fp in
  fwrite_int (unshifted_flag st) fp.

Definition write_restart (st : Pair) (atom : Atom) (fp : list field) : list field :=
  let fp := write_restart_settings st fp in
  for_range 1 (ntypes atom) (fun i fp =>
    for_range i (ntypes atom) (fun j fp =>
      let fp := fwrite_int (setflag st i j) fp in
      if (setflag st i j =? 0)%Z then fp
      else
        let fp := fwrite_double (epsilon st i j) fp in
        let fp := fwrite_double (sigma st i j) fp in
        fwrite_double (cut_lj st i j) fp) fp) fp.

Definition read_restart_settings (st : Pair) (fp : list field)
  : option (Pair * list field) :=
  match fread_double (alpha st) fp with None => None | Some (alpha', fp) =>
  match fread_double (cut_lj_global st) fp with None => None | Some (cut_lj_global', fp) =>
  match fread_double (cut_coul st) fp with None => None | Some (cut_coul', fp) =>
  match fread_int (offset_flag st) fp with None => None | Some (offset_flag', fp) =>
  match fread_int (mix_flag st) fp with None => None | Some (mix_flag', fp) =>
  match fread_int (tail_flag st) fp with None => None | Some (tail_flag', fp) =>
  match fread_int (self_flag st) fp with None => None | Some (self_flag', fp) =>
  match fread_int (unshifted_flag st) fp with None => None | Some (unshifted_flag', fp) =>
    Some ({| allocated := allocated st;
             single_enable := single_enable st;
             offset_flag := offset_flag';
             mix_flag := mix_flag';
             tail_flag := tail_flag';
             etail_ij := etail_ij st;
             ptail_ij := ptail_ij st;
             setflag := setflag st;
             cutsq := cutsq st;
             alpha := alpha';
             cut_lj_global := cut_lj_global';
             cut_coul := cut_coul';
             self_flag := self_flag';
             unshifted_flag := unshifted_flag';
             unshifted := unshifted st;
             cut_coulsq := cut_coulsq st;
             e_shift := e_shift st;
             f_shift := f_shift st;
             e_self := e_self st;
             cut_lj := cut_lj st;
             cut_ljsq := cut_ljsq st;
             epsilon := epsilon st;
             sigma := sigma st;
             lj1 := lj1 st;
             lj2 := lj2 st;
             lj3 := lj3 st;
             lj4 := lj4 st;
             offset := offset st |}, fp)
  end end end end end end end end.

(** The variables the double loop of [read_restart] writes, and the rest of
    the file. *)
Record restart_vars : Type := {
  rv_setflag : array2 Z;
  rv_epsilon : array2 R;
  rv_sigma : array2 R;
  rv_cut_lj : array2 R;
  rv_fp : list field
}.

(** The body of the double loop, for the pair [(i,j)]. *)
Definition read_restart_pair (i j : Z) (v : restart_vars) : option restart_vars :=
  match fread_int (rv_setflag v i j) (rv_fp v) with None => None | Some (flag, fp) =>
    if (flag =? 0)%Z then
      Some {| rv_setflag := aset (rv_setflag v) i j flag;
              rv_epsilon := rv_epsilon v;
              rv_sigma := rv_sigma v;
              rv_cut_lj := rv_cut_lj v;
              rv_fp := fp |}
    else
      match fread_double (rv_epsilon v i j) fp with None => None | Some (e, fp) =>
      match fread_double (rv_sigma v i j) fp with None => None | Some (s, fp) =>
      match fread_double (rv_cut_lj v i j) fp with None => None | Some (c, fp) =>
        Some {| rv_setflag := aset (rv_setflag v) i j flag;
                rv_epsilon := aset (rv_epsilon v) i j e;
                rv_sigma := aset (rv_sigma v) i j s;
                rv_cut_lj := aset (rv_cut_lj v) i j c;
                rv_fp := fp |}
      end end end
  end.

Definition read_restart_loop (n : Z) (v : restart_vars) : option restart_vars :=
  for_range 1 n (fun i o =>
    for_range i n (fun j o =>
      match o with
      | None => None
      | Some v => read_restart_pair i j v
      end) o) (Some v).

(** [read_restart] returns the object and what is left of the file. *)
Definition read_restart (st : Pair) (atom : Atom) (fp : list field)
  : option (Pair * list field) :=
  match read_restart_settings st fp with None => None | Some (st, fp) =>
    let st := allocate st atom in
    match read_restart_loop (ntypes atom)
            {| rv_setflag := setflag st; rv_epsilon := epsilon st;
               rv_sigma := sigma st; rv_cut_lj := cut_lj st; rv_fp := fp |} with
    | None => None
    | Some v =>
        Some ({| allocated := allocated st;
                 single_enable := single_enable st;
                 offset_flag := offset_flag st;
                 mix_flag := mix_flag st;
                 tail_flag := tail_flag st;
                 etail_ij := etail_ij st;
                 ptail_ij := ptail_ij st;
                 setflag := rv_setflag v;
                 cutsq := cutsq st;
                 alpha := alpha st;
                 cut_lj_global := cut_lj_global st;
                 cut_coul := cut_coul st;
                 self_flag := self_flag st;
                 unshifted_flag := unshifted_flag st;
                 unshifted := unshifted st;
                 cut_coulsq := cut_coulsq st;
                 e_shift := e_shift st;
                 f_shift := f_shift st;
                 e_self := e_self st;
                 cut_lj := rv_cut_lj v;
                 cut_ljsq := cut_ljsq st;
                 epsilon := rv_epsilon v;
                 sigma := rv_sigma v;
                 lj1 := lj1 st;
                 lj2 := lj2 st;
                 lj3 := lj3 st;
                 lj4 := lj4 st;
                 offset := offset st |}, rv_fp v)
    end
  end.

(** ** extract

    [extract] hands out the address of [cut_coul], with dimension 0, under
    the name ["cut_coul"], and a null pointer under any other name; the
    model returns the value the address holds and the dimension. *)
Definition extract (st : Pair) (str : string) : option (R * Z) :=
  if (str =? "cut_coul")%string then Some (cut_coul st, 0%Z) else None.

(** ** More vocabulary *)

(** The fields [write_restart] writes for the pair [(i,j)]. *)
Definition pair_fields (st : Pair) (i j : Z) : list field :=
  FInt (setflag st i j) ::
  (if (setflag st i j =? 0)%Z then []
   else [FDouble (epsilon st i j); FDouble (sigma st i j); FDouble (cut_lj st i j)]).

(** The flags hold values the keywords of [settings] can give them. *)
Definition flags_ok (st : Pair) : Prop :=
  (self_flag st = 0 \/ self_flag st = 1)%Z /\
  (0 <= unshifted_flag st <= 3)%Z /\
  single_enable st = (if (self_flag st =? 0)%Z then 1 else 0)%Z.

(** The sum of component [c] of the forces on the particles [0 .. n-1]. *)
Definition total_force (f : array2 R) (n c : Z) : R :=
  fold_right (fun k acc => f k c + acc) 0 (Zrange 0 (n - 1)).

(** The entries of a neighbour list name particles among [0 .. n-1]. *)
Definition neigh_in_range (NEIGHMASK : Z) (neigh : NeighList) (n : Z) : Prop :=
  (forall i, In i (ilist neigh) -> (0 <= i < n)%Z) /\
  (forall i jraw, In i (ilist neigh) -> In jraw (firstneigh neigh i) ->
     (0 <= Z.land jraw NEIGHMASK < n)%Z).

(** The four configuration tables [sf], [e], [s], [c] hold at [(i,j)] what
    the object [st] holds there: the flag, and the three values when the
    flag is set. *)
Definition restored_pair (sf : array2 Z) (e s c : array2 R) (st : Pair)
  (i j : Z) : Prop :=
  sf i j = setflag st i j /\
  (setflag st i j <> 0%Z ->
   e i j = epsilon st i j /\ s i j = sigma st i j /\ c i j = cut_lj st i j).

(** ** More sample data *)

(** Two local particles of type 1, with charges 1 and -1, one unit apart
    along the first axis, and particle 1 in the neighbour list of
    particle 0. *)
Definition atom_two : Atom :=
  {| ntypes := 2; nlocal := 2; q_flag := 1;
     atom_q := fun k => if (k =? 0)%Z then 1 else -1;
     atom_type := fun _ => 1%Z;
     atom_x := fun k c => if ((k =? 1) && (c =? 0))%Z then 1 else 0;
     atom_f := fun _ _ => 0 |}.

Definition neigh_two : NeighList :=
  {| ilist := [0%Z]; firstneigh := fun i => if (i =? 0)%Z then [1%Z] else [] |}.

(** The object [sample_set] after [pair_coeff 1*2 1*2 0.5 1.2]. *)
Definition sample_coeffed : Pair :=
  match coeff sample_numeric sample_bounds sample_set atom2
          ["1*2"; "1*2"; "0.5"; "1.2"]%string with
  | Ok st => st
  | Err _ => pair0
  end.

(** * Properties *)

(** Evaluates the model on concrete data, down to arithmetic on real
    literals. *)
Ltac eval_model := cbv -[IZR Q2R sqrt exp Rlt_dec Rgt_dec Rle_dec PI].

(** ** Arrays and loops *)

Lemma aset_eq {A : Type} (a : array2 A) (i j : Z) (v : A) :
  aset a i j v i j = v.
Proof. unfold aset. now rewrite !Z.eqb_refl. Qed.

Lemma aset_neq {A : Type} (a : array2 A) (i j i' j' : Z) (v : A) :
  (i', j') <> (i, j) -> aset a i j v i' j' = a i' j'.
Proof.
  intros Hne. unfold aset.
  destruct (Z.eqb_spec i' i) as [-> | ?]; [| reflexivity].
  destruct (Z.eqb_spec j' j) as [-> | ?]; [| reflexivity].
  now destruct Hne.
Qed.

Lemma Zrange_nil (lo hi : Z) : (hi < lo)%Z -> Zrange lo hi = [].
Proof.
  intros H. unfold Zrange.
  replace (Z.to_nat (hi - lo + 1)) with 0%nat by lia. reflexivity.
Qed.

Lemma Zrange_cons (lo hi : Z) :
  (lo <= hi)%Z -> Zrange lo hi = lo :: Zrange (lo + 1) hi.
Proof.
  intros H. unfold Zrange.
  replace (Z.to_nat (hi - lo + 1)) with (S (Z.to_nat (hi - (lo + 1) + 1))) by lia.
  cbn [seq map]. f_equal; [lia |].
  rewrite <- seq_shift, map_map. apply map_ext. intros k. lia.
Qed.

Lemma In_Zrange (lo hi k : Z) : In k (Zrange lo hi) <-> (lo <= k <= hi)%Z.
Proof.
  unfold Zrange. rewrite in_map_iff. split.
  - intros (n & <- & Hn). apply in_seq in Hn. lia.
  - intros Hk. exists (Z.to_nat (k - lo)). split; [lia |].
    apply in_seq. lia.
Qed.

Lemma Zrange_length (lo hi : Z) :
  List.length (Zrange lo hi) = Z.to_nat (hi - lo + 1).
Proof. unfold Zrange. now rewrite length_map, length_seq. Qed.

(** ** The host's [MAX] is the maximum *)

Lemma MAX_Rmax (a b : R) : MAX a b = Rmax a b.
Proof.
  unfold MAX, Rmax.
  destruct (Rgt_dec a b), (Rle_dec a b); lra.
Qed.

Lemma MAXi_max (a b : Z) : MAXi a b = Z.max a b.
Proof. unfold MAXi. destruct (Z.gtb_spec a b); lia. Qed.

(** ** The damping kernels in closed form *)

(** C5.  For every separation [r > 0] and every [alpha], the kernel without
    damping returns [(1/r, 1/r^2)], the Debye kernel returns
    [(exp(-alpha r)/r, (1 + alpha r) exp(-alpha r)/r^2)] and the Gaussian
    kernel returns [(exp(-(alpha r)^2)/r,
    (1 + 2 (alpha r)^2) exp(-(alpha r)^2)/r^2)]. *)
Theorem kernels_closed_form (alpha r : R) (Hr : 0 < r) :
  unshifted_none r = (1 / r, 1 / r ^ 2) /\
  unshifted_debye alpha r =
    (exp (- (alpha * r)) / r, (1 + alpha * r) * exp (- (alpha * r)) / r ^ 2) /\
  unshifted_gauss alpha r =
    (exp (- (alpha * r) ^ 2) / r,
     (1 + 2 * (alpha * r) ^ 2) * exp (- (alpha * r) ^ 2) / r ^ 2).
Proof.
  assert (r <> 0) as Hr0 by lra.
  unfold unshifted_none, unshifted_debye, unshifted_gauss. cbv zeta.
  replace (alpha * r * (alpha * r)) with ((alpha * r) ^ 2) by ring.
  repeat split; f_equal; field; assumption.
Qed.

Lemma kernels_closed_form_witness :
  0 < 2 /\
  unshifted_none 2 = (1 / 2, 1 / 2 ^ 2) /\
  unshifted_debye 1 2 =
    (exp (- (1 * 2)) / 2, (1 + 1 * 2) * exp (- (1 * 2)) / 2 ^ 2) /\
  unshifted_gauss 1 2 =
    (exp (- (1 * 2) ^ 2) / 2,
     (1 + 2 * (1 * 2) ^ 2) * exp (- (1 * 2) ^ 2) / 2 ^ 2).
Proof.
  split; [lra |]. apply (kernels_closed_form 1 2). lra.
Defined.

(** ** Calibration *)

Lemma init_parameters_unshifted (st : Pair) (force : Force) (d : damping) :
  unshifted_flag st = flag_of d -> unshifted (init_parameters st force) = d.
Proof.
  intros H. unfold init_parameters. rewrite H.
  destruct (call_unshifted _ _ _). destruct d; reflexivity.
Qed.

Lemma init_parameters_shifts (st : Pair) (force : Force) :
  let st' := init_parameters st force in
  alpha st' = alpha st /\
  cut_coul st' = cut_coul st /\
  cut_coulsq st' = cut_coul st * cut_coul st /\
  f_shift st' = f_of (unshifted st') (alpha st) (cut_coul st) /\
  e_shift st' =
    v_of (unshifted st') (alpha st) (cut_coul st) + f_shift st' * cut_coul st.
Proof.
  unfold init_parameters, v_of, f_of. cbv zeta.
  destruct (call_unshifted _ _ _) as [v f] eqn:E. simpl.
  rewrite E. simpl. repeat split; reflexivity.
Qed.

(** C2.  Calibration with any variant [d], any [alpha] and a cutoff
    [cut_coul > 0] binds [d] and keeps the configured [alpha] and [cut_coul];
    the squared cutoff it stores has the configured cutoff as its root; and
    the shifted Coulomb force term and energy term, evaluated with the
    kernel [d] at the configured [alpha] and at [r = cut_coul], with the
    calibrated [f_shift] and [e_shift], are both zero for every prefactor. *)
Theorem shifted_coulomb_zero_at_cutoff (st : Pair) (force : Force) (d : damping)
  (prefactor : R)
  (Hd : unshifted_flag st = flag_of d)
  (Hrc : 0 < cut_coul st) :
  let st' := init_parameters st force in
  let r := cut_coul st in
  let v := v_of d (alpha st) r in
  let f := f_of d (alpha st) r in
  unshifted st' = d /\
  alpha st' = alpha st /\
  cut_coul st' = cut_coul st /\
  sqrt (cut_coulsq st') = r /\
  prefactor * (f - f_shift st') * r = 0 /\
  prefactor * (v + r * f_shift st' - e_shift st') = 0.
Proof.
  cbv zeta.
  destruct (init_parameters_shifts st force) as (Ha & Hc & Hsq & Hf & He).
  rewrite (init_parameters_unshifted st force d Hd) in Hf, He.
  split; [now apply init_parameters_unshifted |].
  split; [exact Ha |]. split; [exact Hc |].
  split; [rewrite Hsq; apply sqrt_square; lra |].
  rewrite He, Hf.
  split; ring.
Qed.

Lemma shifted_coulomb_zero_at_cutoff_witness :
  unshifted_flag sample_cfg_erfc = flag_of DampErfc /\
  0 < cut_coul sample_cfg_erfc /\
  let st' := init_parameters sample_cfg_erfc force1 in
  let r := cut_coul sample_cfg_erfc in
  let v := v_of DampErfc (alpha sample_cfg_erfc) r in
  let f := f_of DampErfc (alpha sample_cfg_erfc) r in
  unshifted st' = DampErfc /\
  alpha st' = alpha sample_cfg_erfc /\
  cut_coul st' = cut_coul sample_cfg_erfc /\
  sqrt (cut_coulsq st') = r /\
  3 * (f - f_shift st') * r = 0 /\
  3 * (v + r * f_shift st' - e_shift st') = 0.
Proof.
  assert (0 < cut_coul sample_cfg_erfc) as H by (simpl; lra).
  split; [reflexivity |]. split; [exact H |].
  exact (shifted_coulomb_zero_at_cutoff sample_cfg_erfc force1 DampErfc 3
           eq_refl H).
Defined.

(** The decimal constant [two_pis] stands for [2/sqrt(PI)]: it is a little
    smaller, by less than [10^-14]. *)
Lemma PI_bounds : 3.14159265358979 < PI < 3.141592653589794.
Proof.
  pose proof (PI_2_3_7_ineq 7) as [Hlo Hhi].
  unfold PI_2_3_7_tg, tg_alt, Ratan_seq in Hlo, Hhi.
  cbn [sum_f_R0 Nat.mul Nat.add] in Hlo, Hhi.
  simpl in Hlo, Hhi.
  split; lra.
Qed.

Lemma sqrt_PI_bounds :
  2 / (two_pis + / 10 ^ 14) < sqrt PI < 2 / two_pis.
Proof.
  pose proof PI_bounds as [Hlo Hhi].
  unfold two_pis. split.
  - set (c := 2 / (1.12837916709551 + / 10 ^ 14)).
    assert (0 <= c) as Hc by (unfold c; lra).
    rewrite <- (sqrt_square c Hc).
    apply sqrt_lt_1; [nra | lra |].
    unfold c. lra.
  - set (c := 2 / 1.12837916709551).
    assert (0 <= c) as Hc by (unfold c; lra).
    rewrite <- (sqrt_square c Hc).
    apply sqrt_lt_1; [lra | nra |].
    unfold c. lra.
Qed.

Lemma two_pis_approx :
  two_pis < 2 / sqrt PI < two_pis + / 10 ^ 14.
Proof.
  pose proof sqrt_PI_bounds as [Hlo Hhi].
  assert (0 < two_pis) as Htp by (unfold two_pis; lra).
  assert (0 < sqrt PI) as Hs.
  { apply Rlt_trans with (2 := Hlo). unfold two_pis. lra. }
  split.
  - apply Rmult_lt_reg_r with (sqrt PI); [assumption |].
    replace (2 / sqrt PI * sqrt PI) with 2 by (field; lra).
    apply Rmult_lt_reg_r with (/ two_pis); [now apply Rinv_0_lt_compat |].
    replace (two_pis * sqrt PI * / two_pis) with (sqrt PI) by (field; lra).
    exact Hhi.
  - assert (0 < two_pis + / 10 ^ 14) as Htp' by lra.
    apply Rmult_lt_reg_r with (sqrt PI); [assumption |].
    replace (2 / sqrt PI * sqrt PI) with 2 by (field; lra).
    apply Rmult_lt_reg_r with (/ (two_pis + / 10 ^ 14));
      [now apply Rinv_0_lt_compat |].
    replace ((two_pis + / 10 ^ 14) * sqrt PI * / (two_pis + / 10 ^ 14))
      with (sqrt PI) by (field; lra).
    exact Hlo.
Qed.

(** C3.  With the kernel [d] selected, calibration binds [d], sets
    [f_shift] to the force value of [d] at the cutoff, [e_shift] to its
    potential value at the cutoff plus [f_shift * cut_coul], and [e_self] to
    [-0.5 * e_shift] for the variants without damping and Gaussian,
    [-0.5 * (e_shift + alpha)] for Debye and
    [-0.5 * (e_shift + two_pis * alpha)] for erfc, each divided by [qqrd2e].
    The file writes [2/sqrt(PI)] as the 15-digit decimal [two_pis], below it
    by less than [10^-14]; so [e_self] is the stated value with [2/sqrt(PI)]
    for every variant, exactly for the first three and to within
    [10^-14 * |alpha / qqrd2e|] for erfc. *)
Theorem init_parameters_spec (st : Pair) (force : Force) (d : damping)
  (Hd : unshifted_flag st = flag_of d) :
  let st' := init_parameters st force in
  let rc := cut_coul st in
  unshifted st' = d /\
  f_shift st' = f_of d (alpha st) rc /\
  e_shift st' = v_of d (alpha st) rc + f_shift st' * rc /\
  e_self st' =
    match d with
    | DampNone | DampGauss => -0.5 * e_shift st' / qqrd2e force
    | DampDebye => -0.5 * (e_shift st' + alpha st) / qqrd2e force
    | DampErfc => -0.5 * (e_shift st' + two_pis * alpha st) / qqrd2e force
    end /\
  two_pis < 2 / sqrt PI < two_pis + / 10 ^ 14 /\
  Rabs (e_self st' -
        match d with
        | DampNone | DampGauss => -0.5 * e_shift st' / qqrd2e force
        | DampDebye => -0.5 * (e_shift st' + alpha st) / qqrd2e force
        | DampErfc =>
            -0.5 * (e_shift st' + 2 / sqrt PI * alpha st) / qqrd2e force
        end)
    <= / 10 ^ 14 * Rabs (alpha st / qqrd2e force).
Proof.
  cbv zeta.
  destruct (init_parameters_shifts st force) as (_ & _ & _ & Hf & He).
  rewrite (init_parameters_unshifted st force d Hd) in Hf, He.
  assert (e_self (init_parameters st force) =
          match d with
          | DampNone | DampGauss =>
              -0.5 * e_shift (init_parameters st force) / qqrd2e force
          | DampDebye =>
              -0.5 * (e_shift (init_parameters st force) + alpha st)
              / qqrd2e force
          | DampErfc =>
              -0.5 * (e_shift (init_parameters st force) + two_pis * alpha st)
              / qqrd2e force
          end) as Hself.
  { unfold init_parameters. rewrite Hd.
    destruct (call_unshifted _ _ _) as [v f].
    destruct d; reflexivity. }
  split; [now apply init_parameters_unshifted |].
  split; [exact Hf |]. split; [exact He |].
  split; [exact Hself |]. split; [exact two_pis_approx |].
  rewrite Hself.
  pose proof two_pis_approx as [Hlo Hhi].
  pose proof (Rabs_pos (alpha st / qqrd2e force)) as Hpos.
  assert (0 <= / 10 ^ 14 * Rabs (alpha st / qqrd2e force)) as Hzero.
  { apply Rmult_le_pos; [lra | exact Hpos]. }
  destruct d;
    try (match goal with |- Rabs ?x <= _ => replace x with 0 by lra end;
         rewrite Rabs_R0; exact Hzero).
  set (e := e_shift (init_parameters st force)).
  replace (-0.5 * (e + two_pis * alpha st) / qqrd2e force -
           -0.5 * (e + 2 / sqrt PI * alpha st) / qqrd2e force)
    with (0.5 * (2 / sqrt PI - two_pis) * (alpha st / qqrd2e force))
    by (unfold Rdiv;
        generalize (/ qqrd2e force) (/ sqrt PI) (alpha st); intros; nra).
  rewrite Rabs_mult.
  rewrite (Rabs_pos_eq (0.5 * (2 / sqrt PI - two_pis))) by lra.
  apply Rmult_le_compat_r; [exact Hpos | lra].
Qed.

Lemma init_parameters_spec_witness :
  unshifted_flag sample_cfg_erfc = flag_of DampErfc /\
  let st' := init_parameters sample_cfg_erfc force1 in
  let rc := cut_coul sample_cfg_erfc in
  unshifted st' = DampErfc /\
  f_shift st' = f_of DampErfc (alpha sample_cfg_erfc) rc /\
  e_shift st' = v_of DampErfc (alpha sample_cfg_erfc) rc + f_shift st' * rc /\
  e_self st' =
    -0.5 * (e_shift st' + two_pis * alpha sample_cfg_erfc) / qqrd2e force1 /\
  two_pis < 2 / sqrt PI < two_pis + / 10 ^ 14 /\
  Rabs (e_self st' -
        -0.5 * (e_shift st' + 2 / sqrt PI * alpha sample_cfg_erfc)
        / qqrd2e force1)
    <= / 10 ^ 14 * Rabs (alpha sample_cfg_erfc / qqrd2e force1).
Proof.
  split; [reflexivity |].
  exact (init_parameters_spec sample_cfg_erfc force1 DampErfc eq_refl).
Defined.

(** ** Finalized tables *)

Section Finalize.

Variable mix_weight : Z -> R -> R -> R.
Variable MPI_Allreduce_SUM : R * R -> R * R.


(** It does not touch the calibration. *)
Lemma init_one_calibration (st : Pair) (atom : Atom) (i j : Z) :
  let st' := snd (init_one mix_weight MPI_Allreduce_SUM st atom i j) in
  cut_coul st' = cut_coul st /\ cut_coulsq st' = cut_coulsq st /\
  unshifted st' = unshifted st /\ alpha st' = alpha st /\
  f_shift st' = f_shift st /\ e_shift st' = e_shift st /\
  e_self st' = e_self st.
Proof.
  unfold init_one. cbv zeta.
  destruct (if (tail_flag st =? 0)%Z then _ else _) as [et pt].
  cbn. repeat split.
Qed.

End Finalize.

(** ** The evaluation of one pair *)



(** ** The kernels and their derivatives *)

Lemma dlim_val (f : R -> R) (x l l' : R) :
  derivable_pt_lim f x l -> l = l' -> derivable_pt_lim f x l'.
Proof. now intros H <-. Qed.

Lemma dlim_id (x : R) : derivable_pt_lim (fun y => y) x 1.
Proof. exact (derivable_pt_lim_id x). Qed.

Lemma dlim_const (c x : R) : derivable_pt_lim (fun _ => c) x 0.
Proof. exact (derivable_pt_lim_const c x). Qed.

Lemma dlim_plus (f g : R -> R) (x lf lg : R) :
  derivable_pt_lim f x lf -> derivable_pt_lim g x lg ->
  derivable_pt_lim (fun y => f y + g y) x (lf + lg).
Proof. exact (derivable_pt_lim_plus f g x lf lg). Qed.

Lemma dlim_mult (f g : R -> R) (x lf lg : R) :
  derivable_pt_lim f x lf -> derivable_pt_lim g x lg ->
  derivable_pt_lim (fun y => f y * g y) x (lf * g x + f x * lg).
Proof. exact (derivable_pt_lim_mult f g x lf lg). Qed.

Lemma dlim_opp (f : R -> R) (x lf : R) :
  derivable_pt_lim f x lf -> derivable_pt_lim (fun y => - f y) x (- lf).
Proof. exact (derivable_pt_lim_opp f x lf). Qed.

Lemma dlim_div (f g : R -> R) (x lf lg : R) :
  derivable_pt_lim f x lf -> derivable_pt_lim g x lg -> g x <> 0 ->
  derivable_pt_lim (fun y => f y / g y) x ((lf * g x - lg * f x) / Rsqr (g x)).
Proof. exact (derivable_pt_lim_div f g x lf lg). Qed.

Lemma dlim_exp (f : R -> R) (x lf : R) :
  derivable_pt_lim f x lf ->
  derivable_pt_lim (fun y => exp (f y)) x (exp (f x) * lf).
Proof.
  intros H.
  exact (derivable_pt_lim_comp f exp x lf (exp (f x)) H
           (derivable_pt_lim_exp (f x))).
Qed.

(** Differentiates an expression built from the variable, constants, sums,
    products, quotients, opposites and [exp]; the side conditions that a
    divisor is not zero are left. *)
Ltac dlim :=
  lazymatch goal with
  | |- derivable_pt_lim (fun y => y) _ _ => apply dlim_id
  | |- derivable_pt_lim (fun y => exp (@?f y)) _ _ => eapply (dlim_exp f); dlim
  | |- derivable_pt_lim (fun y => @?f y + @?g y) _ _ => eapply (dlim_plus f g); dlim
  | |- derivable_pt_lim (fun y => @?f y * @?g y) _ _ => eapply (dlim_mult f g); dlim
  | |- derivable_pt_lim (fun y => @?f y / @?g y) _ _ =>
      eapply (dlim_div f g); [dlim | dlim | ]
  | |- derivable_pt_lim (fun y => - @?f y) _ _ => eapply (dlim_opp f); dlim
  | |- derivable_pt_lim (fun _ => ?c) _ _ => apply (dlim_const c)
  end.

Lemma unshifted_none_derivative (alpha r : R) :
  0 < r ->
  derivable_pt_lim (v_of DampNone alpha) r (- f_of DampNone alpha r).
Proof.
  intros Hr.
  change (derivable_pt_lim (fun y => 1 / y) r (- (1 / r * (1 / r)))).
  eapply dlim_val.
  - dlim. simpl. lra.
  - simpl. unfold Rsqr. field. lra.
Qed.

Lemma unshifted_debye_derivative (alpha r : R) :
  0 < r ->
  derivable_pt_lim (v_of DampDebye alpha) r (- f_of DampDebye alpha r).
Proof.
  intros Hr.
  change (derivable_pt_lim (fun y => exp (- (alpha * y)) * (1 / y)) r
            (- (1 / r * ((1 + alpha * r) * (exp (- (alpha * r)) * (1 / r)))))).
  eapply dlim_val.
  - dlim. simpl. lra.
  - simpl. unfold Rsqr. field. lra.
Qed.

Lemma unshifted_gauss_derivative (alpha r : R) :
  0 < r ->
  derivable_pt_lim (v_of DampGauss alpha) r (- f_of DampGauss alpha r).
Proof.
  intros Hr.
  change (derivable_pt_lim
            (fun y => exp (- (alpha * y * (alpha * y))) * (1 / y)) r
            (- (1 / r * ((1 + 2 * (alpha * r * (alpha * r))) *
                         (exp (- (alpha * r * (alpha * r))) * (1 / r)))))).
  eapply dlim_val.
  - dlim. simpl. lra.
  - simpl. unfold Rsqr. field. lra.
Qed.

(** The erfc kernel: minus the derivative of the potential value is the
    force value plus [erfc_defect]. *)
Lemma unshifted_erfc_derivative (alpha r : R) :
  0 < r -> 0 <= alpha ->
  derivable_pt_lim (v_of DampErfc alpha) r
    (- (f_of DampErfc alpha r + erfc_defect alpha r)).
Proof.
  intros Hr Ha.
  assert (0 < 1 + EWALD_P * (alpha * r)) as Hden.
  { assert (0 <= alpha * r) by (apply Rmult_le_pos; lra).
    unfold EWALD_P. nra. }
  unfold erfc_defect, erfc_t, erfc_poly, erfc_poly'. cbv zeta.
  change (derivable_pt_lim
    (fun y =>
       1 / (1 + EWALD_P * (alpha * y)) *
       ((A1 + 1 / (1 + EWALD_P * (alpha * y)) *
          (A2 + 1 / (1 + EWALD_P * (alpha * y)) *
            (A3 + 1 / (1 + EWALD_P * (alpha * y)) *
              (A4 + 1 / (1 + EWALD_P * (alpha * y)) * A5)))) *
        (exp (- (alpha * y) * (alpha * y)) / y))) r
    (- (1 / (1 + EWALD_P * (alpha * r)) *
        ((A1 + 1 / (1 + EWALD_P * (alpha * r)) *
           (A2 + 1 / (1 + EWALD_P * (alpha * r)) *
             (A3 + 1 / (1 + EWALD_P * (alpha * r)) *
               (A4 + 1 / (1 + EWALD_P * (alpha * r)) * A5)))) *
         (exp (- (alpha * r) * (alpha * r)) / r)) / r
        + two_pis * alpha * (exp (- (alpha * r) * (alpha * r)) / r)
        + alpha * (exp (- (alpha * r) * (alpha * r)) / r) *
          (EWALD_P *
           (1 / (1 + EWALD_P * (alpha * r)) * (1 / (1 + EWALD_P * (alpha * r)))) *
           (A1 + 1 / (1 + EWALD_P * (alpha * r)) *
              (A2 + 1 / (1 + EWALD_P * (alpha * r)) *
                (A3 + 1 / (1 + EWALD_P * (alpha * r)) *
                  (A4 + 1 / (1 + EWALD_P * (alpha * r)) * A5)))
            + 1 / (1 + EWALD_P * (alpha * r)) *
              (A2 + 1 / (1 + EWALD_P * (alpha * r)) *
                (2 * A3 + 1 / (1 + EWALD_P * (alpha * r)) *
                  (3 * A4 + 1 / (1 + EWALD_P * (alpha * r)) * (4 * A5)))))
           + 2 * (alpha * r) *
             (1 / (1 + EWALD_P * (alpha * r)) *
              (A1 + 1 / (1 + EWALD_P * (alpha * r)) *
                (A2 + 1 / (1 + EWALD_P * (alpha * r)) *
                  (A3 + 1 / (1 + EWALD_P * (alpha * r)) *
                    (A4 + 1 / (1 + EWALD_P * (alpha * r)) * A5)))))
           - two_pis)))).
  set (P := EWALD_P) in *.
  set (E := exp (- (alpha * r) * (alpha * r))).
  eapply dlim_val.
  - dlim; simpl; lra.
  - simpl. fold E. unfold Rsqr. field. lra.
Qed.

(** C6, as the code has it.  For [r > 0] and [alpha > 0], the force value
    of the kernels without damping, Debye and Gaussian is minus the
    derivative in [r] of their potential value; for the erfc kernel, minus
    the derivative of the potential value is the force value plus
    [erfc_defect alpha r]. *)
Theorem kernel_force_derivative (d : damping) (alpha r : R)
  (Hr : 0 < r) (Ha : 0 < alpha) :
  derivable_pt_lim (v_of d alpha) r
    (- (f_of d alpha r +
        match d with
        | DampErfc => erfc_defect alpha r
        | _ => 0
        end)).
Proof.
  destruct d.
  - rewrite Rplus_0_r. now apply unshifted_none_derivative.
  - rewrite Rplus_0_r. now apply unshifted_debye_derivative.
  - rewrite Rplus_0_r. now apply unshifted_gauss_derivative.
  - apply unshifted_erfc_derivative; lra.
Qed.

Lemma kernel_force_derivative_witness :
  0 < 2 /\ 0 < 1 /\
  derivable_pt_lim (v_of DampGauss 1) 2 (- (f_of DampGauss 1 2 + 0)).
Proof.
  split; [lra |]. split; [lra |].
  apply (kernel_force_derivative DampGauss 1 2); lra.
Defined.

Lemma erfc_defect_1_1 : 0 < erfc_defect 1 1.
Proof.
  unfold erfc_defect. cbv zeta.
  assert (erfc_t 1 1 = 10000000 / 13275911) as ->.
  { assert (EWALD_P = 3275911 / 10000000) as HP by (unfold EWALD_P; lra).
    unfold erfc_t. rewrite HP. field. }
  apply Rmult_lt_0_compat.
  - apply Rmult_lt_0_compat; [lra |].
    apply Rdiv_lt_0_compat; [apply exp_pos | lra].
  - unfold erfc_poly, erfc_poly', EWALD_P, A1, A2, A3, A4, A5, two_pis. lra.
Qed.

(** C6 as stated fails for the erfc variant: at [alpha = 1], [r = 1] the
    force value is not minus the derivative of the potential value. *)
Lemma erfc_force_not_minus_derivative :
  0 < 1 /\
  ~ derivable_pt_lim (v_of DampErfc 1) 1 (- f_of DampErfc 1 1).
Proof.
  split; [lra |]. intros H.
  assert (derivable_pt_lim (v_of DampErfc 1) 1
            (- (f_of DampErfc 1 1 + erfc_defect 1 1))) as H'
    by (apply unshifted_erfc_derivative; lra).
  pose proof (uniqueness_limite _ _ _ _ H H') as Heq.
  pose proof erfc_defect_1_1. lra.
Qed.

(** ** Finalizing a type pair *)

Lemma aset_twice_ij {A : Type} (a : array2 A) (i j : Z) (v : A) :
  aset (aset a i j v) j i (aset a i j v i j) i j = v.
Proof.
  unfold aset at 1.
  destruct ((i =? j)%Z && (j =? i)%Z)%bool; now rewrite aset_eq.
Qed.

(** Writing [(a,b)] and then its mirror image keeps, or makes, the cells
    [(i,j)] and [(j,i)] equal. *)
Lemma aset_mirror_sym {A : Type} (t : array2 A) (a b i j : Z) (v : A) :
  t j i = t i j \/ (i, j) = (a, b) \/ (i, j) = (b, a) ->
  aset (aset t a b v) b a (aset t a b v a b) j i =
  aset (aset t a b v) b a (aset t a b v a b) i j.
Proof.
  intros H. rewrite (aset_eq t a b v). unfold aset.
  destruct (Z.eqb_spec i a), (Z.eqb_spec j b), (Z.eqb_spec i b),
    (Z.eqb_spec j a); simpl; try reflexivity;
    destruct H as [H | [H | H]]; try congruence.
Qed.

Section Tables.

Variable numeric : string -> result R.
Variable bounds : string -> Z -> result (Z * Z).
Variable mix_weight : Z -> R -> R -> R.
Variable MPI_Allreduce_SUM : R * R -> R * R.

(** C7.  [init_one] on a pair that was not set explicitly takes for epsilon
    the geometric mean of the two self values, weighted by the mixing
    policy, and for sigma and for the cutoff the arithmetic mean of the two
    self values; on a pair set explicitly it keeps the three values.  In
    both cases it fills [lj1 = 48 eps sigma^12], [lj2 = 24 eps sigma^6],
    [lj3 = 4 eps sigma^12], [lj4 = 4 eps sigma^6], the offset
    [4 eps ((sigma/cut_lj)^12 - (sigma/cut_lj)^6)] when [offset_flag] is set
    and [0] otherwise, and returns the larger of the pair's cutoff and
    [cut_coul]. *)
Theorem init_one_spec (st : Pair) (atom : Atom) (i j : Z) :
  let unset := (setflag st i j =? 0)%Z in
  let eps :=
    if unset
    then mix_weight (mix_flag st) (sigma st i i) (sigma st j j)
         * sqrt (epsilon st i i * epsilon st j j)
    else epsilon st i j in
  let sig := if unset then (sigma st i i + sigma st j j) / 2 else sigma st i j in
  let rc := if unset then (cut_lj st i i + cut_lj st j j) / 2 else cut_lj st i j in
  let cut := fst (init_one mix_weight MPI_Allreduce_SUM st atom i j) in
  let st' := snd (init_one mix_weight MPI_Allreduce_SUM st atom i j) in
  epsilon st' i j = eps /\
  sigma st' i j = sig /\
  cut_lj st' i j = rc /\
  lj1 st' i j = 48 * eps * sig ^ 12 /\
  lj2 st' i j = 24 * eps * sig ^ 6 /\
  lj3 st' i j = 4 * eps * sig ^ 12 /\
  lj4 st' i j = 4 * eps * sig ^ 6 /\
  offset st' i j =
    (if (offset_flag st =? 0)%Z then 0
     else 4 * eps * ((sig / rc) ^ 12 - (sig / rc) ^ 6)) /\
  cut = Rmax rc (cut_coul st).
Proof.
  cbv zeta. unfold init_one. cbv zeta.
  destruct (if (tail_flag st =? 0)%Z then _ else _) as [et pt].
  cbn [fst snd epsilon sigma cut_lj lj1 lj2 lj3 lj4 offset].
  rewrite MAX_Rmax. unfold c_pow, mix_energy, mix_distance.
  rewrite !aset_twice_ij.
  destruct (setflag st i j =? 0)%Z; rewrite ?aset_eq;
    (repeat split; try reflexivity);
    destruct (offset_flag st =? 0)%Z; now rewrite aset_twice_ij.
Qed.

(** The tables [init_one i j] mirrors are equal at [(i,j)] and [(j,i)]
    afterwards, and stay equal where they were at any other pair. *)
Lemma init_one_derived_sym (st : Pair) (atom : Atom) (a b i j : Z) :
  derived_sym st i j \/ (i, j) = (a, b) \/ (i, j) = (b, a) ->
  derived_sym (snd (init_one mix_weight MPI_Allreduce_SUM st atom a b)) i j.
Proof.
  intros H. unfold init_one. cbv zeta.
  destruct (if (tail_flag st =? 0)%Z then _ else _) as [et pt].
  destruct (offset_flag st =? 0)%Z;
    unfold derived_sym in *;
    cbn [snd cut_ljsq lj1 lj2 lj3 lj4 offset];
    repeat split; apply aset_mirror_sym;
    (destruct H as [H | H]; [left; apply H | right; exact H]).
Qed.







End Tables.

(** The sample set-up runs without error. *)
Lemma sample_run_ok : sample_run = Ok sample_final.
Proof.
  unfold sample_final.
  eval_model.
  reflexivity.
Qed.



(** ** The loops of [coeff], [settings] and [allocate] *)

Lemma existsb_Zrange (k lo hi : Z) :
  existsb (Z.eqb k) (Zrange lo hi) = ((lo <=? k) && (k <=? hi))%Z.
Proof.
  apply eq_true_iff_eq.
  rewrite existsb_exists, andb_true_iff, !Z.leb_le. split.
  - intros (x & Hin & Heq). apply Z.eqb_eq in Heq. subst x.
    apply In_Zrange in Hin. lia.
  - intros H. exists k. split; [apply In_Zrange; lia | apply Z.eqb_refl].
Qed.

Lemma coeff_inner (e s c : R) (i : Z) (l : list Z) (v : coeff_vars) :
  let v' := fold_left (fun acc j => coeff_body e s c i j acc) l v in
  (forall i' j', cv_epsilon v' i' j' =
     if ((i' =? i)%Z && existsb (Z.eqb j') l)%bool then e else cv_epsilon v i' j') /\
  (forall i' j', cv_sigma v' i' j' =
     if ((i' =? i)%Z && existsb (Z.eqb j') l)%bool then s else cv_sigma v i' j') /\
  (forall i' j', cv_cut_lj v' i' j' =
     if ((i' =? i)%Z && existsb (Z.eqb j') l)%bool then c else cv_cut_lj v i' j') /\
  (forall i' j', cv_setflag v' i' j' =
     if ((i' =? i)%Z && existsb (Z.eqb j') l)%bool then 1%Z else cv_setflag v i' j') /\
  cv_count v' = (cv_count v + Z.of_nat (List.length l))%Z.
Proof.
  revert v. induction l as [| a l IH]; intros v; cbn [fold_left existsb List.length].
  - repeat split; intros; rewrite ?andb_false_r; try reflexivity. lia.
  - destruct (IH (coeff_body e s c i a v)) as (He & Hs & Hc & Hf & Hn).
    cbv zeta. rewrite Hn.
    repeat split;
      try (intros i' j';
           rewrite ?He, ?Hs, ?Hc, ?Hf;
           cbn [coeff_body cv_epsilon cv_sigma cv_cut_lj cv_setflag];
           unfold aset;
           destruct (i' =? i)%Z, (j' =? a)%Z, (existsb (Z.eqb j') l);
           reflexivity).
    cbn [coeff_body cv_count]. lia.
Qed.

Lemma coeff_outer (e s c : R) (jlo jhi : Z) (l : list Z) (v : coeff_vars) :
  let v' :=
    fold_left (fun acc i =>
      for_range (MAXi jlo i) jhi (coeff_body e s c i) acc) l v in
  let hit i' j' :=
    (existsb (Z.eqb i') l && ((jlo <=? j') && (i' <=? j') && (j' <=? jhi))%Z)%bool in
  (forall i' j', cv_epsilon v' i' j' = if hit i' j' then e else cv_epsilon v i' j') /\
  (forall i' j', cv_sigma v' i' j' = if hit i' j' then s else cv_sigma v i' j') /\
  (forall i' j', cv_cut_lj v' i' j' = if hit i' j' then c else cv_cut_lj v i' j') /\
  (forall i' j', cv_setflag v' i' j' = if hit i' j' then 1%Z else cv_setflag v i' j') /\
  cv_count v' =
    (cv_count v +
     fold_right (fun i n => Z.of_nat (List.length (Zrange (MAXi jlo i) jhi)) + n) 0 l)%Z.
Proof.
  revert v. induction l as [| a l IH]; intros v; cbn [fold_left existsb fold_right].
  - repeat split; intros; try reflexivity. lia.
  - destruct (IH (for_range (MAXi jlo a) jhi (coeff_body e s c a) v))
      as (He & Hs & Hc & Hf & Hn).
    destruct (coeff_inner e s c a (Zrange (MAXi jlo a) jhi) v)
      as (He' & Hs' & Hc' & Hf' & Hn').
    cbv zeta in *. unfold for_range in *.
    rewrite Hn, Hn'.
    assert (forall i' j',
               ((i' =? a)%Z && existsb (Z.eqb j') (Zrange (MAXi jlo a) jhi))%bool =
               ((i' =? a)%Z && ((jlo <=? j') && (i' <=? j') && (j' <=? jhi))%Z)%bool)
      as Hin.
    { intros i' j'. destruct (Z.eqb_spec i' a) as [-> | ?]; [| reflexivity].
      cbn [andb]. rewrite existsb_Zrange, MAXi_max.
      apply eq_true_iff_eq. rewrite !andb_true_iff, !Z.leb_le. lia. }
    repeat split;
      try (intros i' j';
           rewrite ?He, ?Hs, ?Hc, ?Hf, ?He', ?Hs', ?Hc', ?Hf', ?Hin;
           destruct (i' =? a)%Z, (existsb (Z.eqb i') l),
             ((jlo <=? j') && (i' <=? j') && (j' <=? jhi))%Z; reflexivity).
    lia.
Qed.

Lemma filter_le_Zrange (i jlo jhi : Z) :
  filter (fun j => (i <=? j)%Z) (Zrange jlo jhi) = Zrange (Z.max jlo i) jhi.
Proof.
  remember (Z.to_nat (jhi - jlo + 1)) as n eqn:Hn.
  revert jlo Hn. induction n as [| n IH]; intros jlo Hn.
  - rewrite (Zrange_nil jlo jhi) by lia. rewrite Zrange_nil by lia. reflexivity.
  - rewrite (Zrange_cons jlo jhi) by lia. cbn [filter].
    rewrite (IH (jlo + 1)%Z) by lia.
    destruct (Z.leb_spec i jlo).
    + replace (Z.max (jlo + 1) i) with (jlo + 1)%Z by lia.
      replace (Z.max jlo i) with jlo by lia.
      now rewrite (Zrange_cons jlo jhi) by lia.
    + f_equal. lia.
Qed.

Lemma covered_count_sum (ilo ihi jlo jhi : Z) :
  covered_count ilo ihi jlo jhi =
  fold_right (fun i n => Z.of_nat (List.length (Zrange (MAXi jlo i) jhi)) + n)%Z
    0%Z (Zrange ilo ihi).
Proof.
  unfold covered_count.
  induction (Zrange ilo ihi) as [| a l IH]; cbn [list_prod fold_right filter].
  - reflexivity.
  - rewrite filter_app, length_app, Nat2Z.inj_add, IH. f_equal. f_equal.
    rewrite MAXi_max, <- filter_le_Zrange. clear IH.
    induction (Zrange jlo jhi) as [| b m IHm]; cbn [map filter fst snd].
    + reflexivity.
    + destruct (a <=? b)%Z; cbn [List.length]; now rewrite IHm.
Qed.

(** The double loop of [coeff] writes the covered pairs, and only them, and
    counts them. *)
Lemma coeff_loop_spec (ilo ihi jlo jhi : Z) (e s c : R) (v : coeff_vars) :
  let v' := coeff_loop ilo ihi jlo jhi e s c v in
  let hit := covered ilo ihi jlo jhi in
  (forall i j, cv_epsilon v' i j = if hit i j then e else cv_epsilon v i j) /\
  (forall i j, cv_sigma v' i j = if hit i j then s else cv_sigma v i j) /\
  (forall i j, cv_cut_lj v' i j = if hit i j then c else cv_cut_lj v i j) /\
  (forall i j, cv_setflag v' i j = if hit i j then 1%Z else cv_setflag v i j) /\
  cv_count v' = (cv_count v + covered_count ilo ihi jlo jhi)%Z.
Proof.
  destruct (coeff_outer e s c jlo jhi (Zrange ilo ihi) v) as (He & Hs & Hc & Hf & Hn).
  cbv zeta in *. unfold coeff_loop, for_range at 1.
  assert (forall i j,
             (existsb (Z.eqb i) (Zrange ilo ihi) &&
              ((jlo <=? j) && (i <=? j) && (j <=? jhi))%Z)%bool =
             covered ilo ihi jlo jhi i j) as Hcov.
  { intros i j. rewrite existsb_Zrange. unfold covered.
    apply eq_true_iff_eq. rewrite !andb_true_iff, !Z.leb_le. lia. }
  rewrite covered_count_sum.
  repeat split; try (intros i j; rewrite <- Hcov); auto.
Qed.

Lemma reset_inner (sf : array2 Z) (g : R) (i : Z) (l : list Z) (cl : array2 R) :
  forall i' j',
    fold_left (fun acc j => if (sf i j =? 0)%Z then acc else aset acc i j g) l cl i' j' =
    if ((i' =? i)%Z && existsb (Z.eqb j') l && negb (sf i' j' =? 0)%Z)%bool
    then g else cl i' j'.
Proof.
  revert cl. induction l as [| a l IH]; intros cl i' j'; cbn [fold_left existsb].
  - now rewrite andb_false_r.
  - rewrite IH.
    destruct (Z.eqb_spec i' i) as [-> | Hi]; cbn [andb].
    + destruct (Z.eqb_spec j' a) as [-> | Hj]; cbn [orb].
      * destruct (sf i a =? 0)%Z eqn:E; cbn [negb andb].
        -- now rewrite andb_false_r.
        -- rewrite aset_eq.
           now destruct (existsb (Z.eqb a) l).
      * destruct (sf i a =? 0)%Z; [reflexivity |].
        rewrite aset_neq by congruence. reflexivity.
    + destruct (sf i a =? 0)%Z; [reflexivity |].
      rewrite aset_neq by congruence. reflexivity.
Qed.

Lemma reset_outer (n : Z) (sf : array2 Z) (g : R) (l : list Z) (cl : array2 R) :
  forall i' j',
    fold_left (fun acc i =>
      for_range (i + 1) n (fun j acc =>
        if (sf i j =? 0)%Z then acc else aset acc i j g) acc) l cl i' j' =
    if (existsb (Z.eqb i') l && ((i' <? j') && (j' <=? n))%Z
        && negb (sf i' j' =? 0)%Z)%bool
    then g else cl i' j'.
Proof.
  revert cl. induction l as [| a l IH]; intros cl i' j'; cbn [fold_left existsb].
  - reflexivity.
  - rewrite IH. unfold for_range. rewrite reset_inner, existsb_Zrange.
    assert (((a + 1 <=? j') && (j' <=? n))%Z = ((a <? j') && (j' <=? n))%Z) as ->.
    { apply eq_true_iff_eq. rewrite !andb_true_iff, !Z.leb_le, Z.ltb_lt. lia. }
    destruct (Z.eqb_spec i' a) as [-> | Hi]; cbn [orb andb]; [| reflexivity].
    destruct (existsb (Z.eqb a) l); cbn [andb]; [| reflexivity].
    now destruct ((a <? j') && (j' <=? n))%Z, (negb (sf a j' =? 0)%Z).
Qed.

(** The loop of [settings] overwrites the cutoff of the pairs [(i,j)],
    [1 <= i < j <= n], whose flag is set, and only them. *)
Lemma reset_cutoffs_spec (n : Z) (sf : array2 Z) (g : R) (cl : array2 R) (i j : Z) :
  reset_cutoffs n sf g cl i j =
  if ((1 <=? i) && (i <? j) && (j <=? n) && negb (sf i j =? 0))%Z%bool
  then g else cl i j.
Proof.
  unfold reset_cutoffs, for_range at 1.
  rewrite reset_outer, existsb_Zrange.
  destruct (1 <=? i)%Z, (i <? j)%Z eqn:Hij, (j <=? n)%Z eqn:Hjn,
    (i <=? n)%Z eqn:Hin; cbn [andb]; try reflexivity.
  apply Z.ltb_lt in Hij. apply Z.leb_le in Hjn. apply Z.leb_gt in Hin. lia.
Qed.

(** [allocate] clears the flag of the pairs [(i,j)], [1 <= i <= j <= n], and
    only them. *)
Lemma allocate_setflag (st : Pair) (atom : Atom) (i j : Z) :
  setflag (allocate st atom) i j =
  if ((1 <=? i) && (i <=? j) && (j <=? ntypes atom))%Z then 0%Z else setflag st i j.
Proof.
  cbn [allocate setflag]. unfold for_range at 1.
  set (n := ntypes atom).
  assert (forall (l : list Z) (sf : array2 Z) i' j',
             fold_left (fun acc a => for_range a n (fun b sf0 => aset sf0 a b 0%Z) acc)
               l sf i' j' =
             if (existsb (Z.eqb i') l && ((i' <=? j') && (j' <=? n))%Z)%bool
             then 0%Z else sf i' j') as Houter.
  { assert (forall a (l : list Z) (sf : array2 Z) i' j',
               fold_left (fun acc b => aset acc a b 0%Z) l sf i' j' =
               if ((i' =? a)%Z && existsb (Z.eqb j') l)%bool then 0%Z else sf i' j')
      as Hinner.
    { intros a l. induction l as [| b l IH]; intros sf i' j'; cbn [fold_left existsb].
      - now rewrite andb_false_r.
      - rewrite IH. unfold aset.
        now destruct (i' =? a)%Z, (j' =? b)%Z, (existsb (Z.eqb j') l). }
    induction l as [| a l IH]; intros sf i' j'; cbn [fold_left existsb].
    - reflexivity.
    - rewrite IH. unfold for_range. rewrite Hinner, existsb_Zrange.
      destruct (Z.eqb_spec i' a) as [-> | Hi]; cbn [orb andb]; [| reflexivity].
      now destruct (existsb (Z.eqb a) l), ((a <=? j') && (j' <=? n))%Z. }
  rewrite Houter, existsb_Zrange.
  destruct (1 <=? i)%Z, (i <=? j)%Z eqn:Hij, (j <=? n)%Z eqn:Hjn,
    (i <=? n)%Z eqn:Hin; cbn [andb]; try reflexivity.
  apply Z.leb_le in Hij. apply Z.leb_le in Hjn. apply Z.leb_gt in Hin. lia.
Qed.

(** ** Configuration calls *)

Section Configuration.

Variable numeric : string -> result R.
Variable bounds : string -> Z -> result (Z * Z).

(** What a successful [settings] call leaves in the object. *)
Lemma settings_ok (st st' : Pair) (atom : Atom) (arg : list string) :
  settings numeric st atom arg = Ok st' ->
  (exists a0 a1 rest,
      arg = a0 :: a1 :: rest /\ numeric a0 = Ok (alpha st') /\
      numeric a1 = Ok (cut_lj_global st')) /\
  setflag st' = setflag st /\ epsilon st' = epsilon st /\ sigma st' = sigma st /\
  cut_lj st' =
    if (allocated st =? 0)%Z then cut_lj st
    else reset_cutoffs (ntypes atom) (setflag st) (cut_lj_global st') (cut_lj st).
Proof.
  unfold settings.
  destruct arg as [| a0 [| a1 rest]]; try discriminate.
  destruct (numeric a0) as [alpha' |] eqn:E0; [| discriminate].
  destruct (numeric a1) as [cut' |] eqn:E1; [| discriminate].
  cbn [bind].
  destruct (match rest with [] => _ | _ :: _ => _ end) as [[cc kws] |];
    [| discriminate].
  cbn [bind].
  destruct (settings_keywords kws (self_flag st) (unshifted_flag st))
    as [[sf uf] |]; [| discriminate].
  cbn [bind]. intros [= <-]. cbn.
  split; [| repeat split].
  exists a0, a1, rest. repeat split; assumption.
Qed.

(** C10.  When [settings] runs again on an object whose tables are
    allocated, it gives the new global Lennard-Jones cutoff to every pair
    [(i,j)], [i < j], that was set explicitly, and leaves alone the cutoff
    of every diagonal pair and the epsilon and sigma of every pair. *)
Theorem settings_resets_cutoffs (st st' : Pair) (atom : Atom) (arg : list string)
  (Hset : settings numeric st atom arg = Ok st')
  (Hal : allocated st <> 0%Z) :
  (exists a0 a1 rest,
      arg = a0 :: a1 :: rest /\ numeric a1 = Ok (cut_lj_global st')) /\
  (forall i j, (1 <= i < j)%Z -> (j <= ntypes atom)%Z -> setflag st i j <> 0%Z ->
     cut_lj st' i j = cut_lj_global st') /\
  (forall i, cut_lj st' i i = cut_lj st i i) /\
  (forall i j, epsilon st' i j = epsilon st i j /\ sigma st' i j = sigma st i j).
Proof.
  destruct (settings_ok st st' atom arg Hset)
    as ((a0 & a1 & rest & Harg & _ & Hg) & _ & He & Hs & Hc).
  apply Z.eqb_neq in Hal. rewrite Hal in Hc.
  split; [now exists a0, a1, rest |].
  split; [| split].
  - intros i j Hij Hjn Hsf. rewrite Hc, reset_cutoffs_spec.
    apply Z.eqb_neq in Hsf. rewrite Hsf.
    replace (1 <=? i)%Z with true by (symmetry; apply Z.leb_le; lia).
    replace (i <? j)%Z with true by (symmetry; apply Z.ltb_lt; lia).
    replace (j <=? ntypes atom)%Z with true by (symmetry; apply Z.leb_le; lia).
    reflexivity.
  - intros i. rewrite Hc, reset_cutoffs_spec.
    rewrite Z.ltb_irrefl. now rewrite andb_false_r.
  - intros i j. now rewrite He, Hs.
Qed.

(** C9, as the code has it.  With the two ranges resolved to [ilo..ihi]
    and [jlo..jhi], the loop of [coeff] counts the pairs [(i,j)] of the
    cross product with [i <= j].  When there is none the call fails with
    the error of the file; otherwise it succeeds, and each such pair has its
    flag set and holds the given epsilon, sigma and cutoff (the global one
    when the call gives none), while every other pair keeps what it had. *)
Theorem coeff_spec (st : Pair) (atom : Atom) (a0 a1 a2 a3 : string)
  (rest : list string) (ilo ihi jlo jhi : Z) (e s c : R)
  (Hb0 : bounds a0 (ntypes atom) = Ok (ilo, ihi))
  (Hb1 : bounds a1 (ntypes atom) = Ok (jlo, jhi))
  (He : numeric a2 = Ok e)
  (Hs : numeric a3 = Ok s)
  (Hc : rest = [] /\ c = cut_lj_global st \/
        exists a4, rest = [a4] /\ numeric a4 = Ok c) :
  let st0 := if (allocated st =? 0)%Z then allocate st atom else st in
  let hit := covered ilo ihi jlo jhi in
  let n := covered_count ilo ihi jlo jhi in
  (forall v, cv_count (coeff_loop ilo ihi jlo jhi e s c v) = (cv_count v + n)%Z) /\
  if (n =? 0)%Z then
    coeff numeric bounds st atom (a0 :: a1 :: a2 :: a3 :: rest) =
    Err "Incorrect args for pair coefficients"
  else
    exists st',
      coeff numeric bounds st atom (a0 :: a1 :: a2 :: a3 :: rest) = Ok st' /\
      forall i j,
        setflag st' i j = (if hit i j then 1%Z else setflag st0 i j) /\
        epsilon st' i j = (if hit i j then e else epsilon st0 i j) /\
        sigma st' i j = (if hit i j then s else sigma st0 i j) /\
        cut_lj st' i j = (if hit i j then c else cut_lj st0 i j).
Proof.
  cbv zeta.
  split; [intros v; apply coeff_loop_spec |].
  set (st0 := if (allocated st =? 0)%Z then allocate st atom else st).
  assert (cut_lj_global st0 = cut_lj_global st) as Hg
    by (unfold st0; now destruct (allocated st =? 0)%Z).
  set (v0 := {| cv_epsilon := epsilon st0; cv_sigma := sigma st0;
                cv_cut_lj := cut_lj st0; cv_setflag := setflag st0;
                cv_count := 0 |}).
  destruct (coeff_loop_spec ilo ihi jlo jhi e s c v0) as (Hve & Hvs & Hvc & Hvf & Hvn).
  cbv zeta in *.
  assert (coeff numeric bounds st atom (a0 :: a1 :: a2 :: a3 :: rest) =
          let v := coeff_loop ilo ihi jlo jhi e s c v0 in
          if (cv_count v =? 0)%Z then Err "Incorrect args for pair coefficients"
          else
            Ok {| allocated := allocated st0;
                  single_enable := single_enable st0;
                  offset_flag := offset_flag st0;
                  mix_flag := mix_flag st0;
                  tail_flag := tail_flag st0;
                  etail_ij := etail_ij st0;
                  ptail_ij := ptail_ij st0;
                  setflag := cv_setflag v;
                  cutsq := cutsq st0;
                  alpha := alpha st0;
                  cut_lj_global := cut_lj_global st0;
                  cut_coul := cut_coul st0;
                  self_flag := self_flag st0;
                  unshifted_flag := unshifted_flag st0;
                  unshifted := unshifted st0;
                  cut_coulsq := cut_coulsq st0;
                  e_shift := e_shift st0;
                  f_shift := f_shift st0;
                  e_self := e_self st0;
                  cut_lj := cv_cut_lj v;
                  cut_ljsq := cut_ljsq st0;
                  epsilon := cv_epsilon v;
                  sigma := cv_sigma v;
                  lj1 := lj1 st0;
                  lj2 := lj2 st0;
                  lj3 := lj3 st0;
                  lj4 := lj4 st0;
                  offset := offset st0 |}) as Hcoeff.
  { unfold coeff. fold st0.
    destruct Hc as [[-> ->] | (a4 & -> & Ha4)];
      rewrite Hb0, Hb1, He, Hs; cbn [bind]; rewrite ?Ha4, ?Hg; reflexivity. }
  rewrite Hcoeff. cbv zeta. rewrite Hvn. cbn [cv_count v0 Z.add].
  destruct (covered_count ilo ihi jlo jhi =? 0)%Z; [reflexivity |].
  eexists. split; [reflexivity |].
  intros i j. cbn [setflag epsilon sigma cut_lj].
  rewrite Hve, Hvs, Hvc, Hvf. repeat split.
Qed.

End Configuration.

Lemma settings_resets_cutoffs_witness :
  settings sample_numeric sample_final atom2 ["1"; "3.0"]%string = Ok sample_reset /\
  allocated sample_final <> 0%Z /\
  (exists a0 a1 rest,
      ["1"; "3.0"]%string = a0 :: a1 :: rest /\
      sample_numeric a1 = Ok (cut_lj_global sample_reset)) /\
  (forall i j, (1 <= i < j)%Z -> (j <= ntypes atom2)%Z ->
     setflag sample_final i j <> 0%Z ->
     cut_lj sample_reset i j = cut_lj_global sample_reset) /\
  (forall i, cut_lj sample_reset i i = cut_lj sample_final i i) /\
  (forall i j, epsilon sample_reset i j = epsilon sample_final i j /\
               sigma sample_reset i j = sigma sample_final i j).
Proof.
  assert (settings sample_numeric sample_final atom2 ["1"; "3.0"]%string =
          Ok sample_reset) as Hset by reflexivity.
  assert (allocated sample_final <> 0%Z) as Hal
    by (eval_model; discriminate).
  split; [exact Hset |]. split; [exact Hal |].
  exact (settings_resets_cutoffs sample_numeric sample_final sample_reset atom2
           ["1"; "3.0"]%string Hset Hal).
Defined.

(** In the sample run the pair (1,2), set explicitly, takes the new global
    cutoff 3, and the diagonal pair (1,1), set explicitly too, keeps 2.5. *)
Example settings_reset_sample :
  cut_lj sample_final 1%Z 2%Z = 2.5 /\ cut_lj sample_reset 1%Z 2%Z = 3 /\
  cut_lj sample_final 1%Z 1%Z = 2.5 /\ cut_lj sample_reset 1%Z 1%Z = 2.5.
Proof.
  eval_model. repeat split; lra.
Qed.

Lemma coeff_spec_witness :
  sample_bounds "1*2" (ntypes atom2) = Ok (1, 2)%Z /\
  sample_numeric "0.5" = Ok 0.5 /\
  sample_numeric "1.2" = Ok 1.2 /\
  (@nil string = [] /\ 2.5 = cut_lj_global sample_set \/
   exists a4, [] = [a4] /\ sample_numeric a4 = Ok 2.5) /\
  let st0 := if (allocated sample_set =? 0)%Z then allocate sample_set atom2
             else sample_set in
  let hit := covered 1 2 1 2 in
  let n := covered_count 1 2 1 2 in
  (forall v, cv_count (coeff_loop 1 2 1 2 0.5 1.2 2.5 v) = (cv_count v + n)%Z) /\
  if (n =? 0)%Z then
    coeff sample_numeric sample_bounds sample_set atom2
      ["1*2"; "1*2"; "0.5"; "1.2"]%string =
    Err "Incorrect args for pair coefficients"
  else
    exists st',
      coeff sample_numeric sample_bounds sample_set atom2
        ["1*2"; "1*2"; "0.5"; "1.2"]%string = Ok st' /\
      forall i j,
        setflag st' i j = (if hit i j then 1%Z else setflag st0 i j) /\
        epsilon st' i j = (if hit i j then 0.5 else epsilon st0 i j) /\
        sigma st' i j = (if hit i j then 1.2 else sigma st0 i j) /\
        cut_lj st' i j = (if hit i j then 2.5 else cut_lj st0 i j).
Proof.
  assert (@nil string = [] /\ 2.5 = cut_lj_global sample_set \/
          exists a4, [] = [a4] /\ sample_numeric a4 = Ok 2.5) as Hc
    by (left; split; reflexivity).
  split; [reflexivity |]. split; [reflexivity |]. split; [reflexivity |].
  split; [exact Hc |].
  exact (coeff_spec sample_numeric sample_bounds sample_set atom2
           "1*2" "1*2" "0.5" "1.2" [] 1 2 1 2 0.5 1.2 2.5
           eq_refl eq_refl eq_refl eq_refl Hc).
Defined.

(** C9 as stated fails on its own scenario: with two types, the arguments
    [1*2 1*2 0.5 1.2] make the loop count 3 pairs, not 4; the pairs (1,1),
    (1,2) and (2,2) are flagged and hold the values, the pair (2,1) is not
    flagged and holds neither epsilon nor sigma. *)
Lemma coeff_scenario_three_pairs :
  sample_bounds "1*2" (ntypes atom2) = Ok (1, 2)%Z /\
  (forall v, cv_count (coeff_loop 1 2 1 2 0.5 1.2 2.5 v) = (cv_count v + 3)%Z) /\
  exists st',
    coeff sample_numeric sample_bounds sample_set atom2
      ["1*2"; "1*2"; "0.5"; "1.2"]%string = Ok st' /\
    setflag st' 1%Z 1%Z = 1%Z /\ setflag st' 1%Z 2%Z = 1%Z /\
    setflag st' 2%Z 2%Z = 1%Z /\ setflag st' 2%Z 1%Z = 0%Z /\
    epsilon st' 1%Z 2%Z = 0.5 /\ epsilon st' 2%Z 1%Z <> 0.5 /\
    sigma st' 1%Z 2%Z = 1.2 /\ sigma st' 2%Z 1%Z <> 1.2.
Proof.
  split; [reflexivity |]. split.
  - intros v.
    destruct (coeff_loop_spec 1 2 1 2 0.5 1.2 2.5 v) as (_ & _ & _ & _ & ->).
    reflexivity.
  - eexists. split.
    + eval_model. reflexivity.
    + eval_model.
      repeat split; try reflexivity; lra.
Qed.

(** ** The self energy pass of [compute] *)

Lemma nth_error_Zrange (lo hi : Z) (k : nat) :
  (k < Z.to_nat (hi - lo + 1))%nat ->
  nth_error (Zrange lo hi) k = Some (lo + Z.of_nat k)%Z.
Proof.
  intros Hk. unfold Zrange.
  rewrite nth_error_map.
  rewrite (nth_error_nth' _ 0%nat) by (now rewrite length_seq).
  now rewrite seq_nth.
Qed.

(** The pass appends one call per local particle, in the order of the
    particles. *)
Lemma compute_self_spec (st : Pair) (atom : Atom) (force : Force) (log : list tally) :
  compute_self st atom force log =
  log ++ map (fun i =>
            {| t_i := i; t_j := i; t_nlocal := nlocal atom; t_newton_pair := 0;
               t_evdwl := 0;
               t_ecoul := e_self st * (qqrd2e force * atom_q atom i)
                          * (qqrd2e force * atom_q atom i);
               t_fpair := 0; t_delx := 0; t_dely := 0; t_delz := 0 |})
         (Zrange 0 (nlocal atom - 1)).
Proof.
  unfold compute_self, for_range.
  revert log. induction (Zrange 0 (nlocal atom - 1)) as [| a l IH]; intros log.
  - cbn. now rewrite app_nil_r.
  - cbn [fold_left map]. rewrite IH, <- app_assoc. reflexivity.
Qed.

Section Compute.

Variable sbmask : Z -> Z.
Variable NEIGHMASK : Z.
Variable ev_setup : Z -> Z -> Z * Z.

(** The neighbour loops only add calls after those already made. *)
Lemma compute_pair_log (st : Pair) (atom : Atom) (force : Force)
  (eflag evflag i jraw : Z) (v : compute_vars) :
  exists extra,
    c_log (compute_pair sbmask NEIGHMASK st atom force eflag evflag i jraw v) =
    c_log v ++ extra.
Proof.
  unfold compute_pair. cbv zeta.
  destruct (Rlt_dec _ _); [| exists []; now rewrite app_nil_r].
  destruct (call_unshifted _ _ _) as [vr fr].
  cbn [c_log].
  destruct (evflag =? 0)%Z; [exists []; now rewrite app_nil_r |].
  eexists. reflexivity.
Qed.

Lemma compute_loops_log (st : Pair) (atom : Atom) (force : Force)
  (eflag evflag : Z) (firstneigh0 : Z -> list Z) (il : list Z) (v : compute_vars) :
  exists extra,
    c_log (fold_left (fun v i =>
             fold_left (fun v jraw =>
               compute_pair sbmask NEIGHMASK st atom force eflag evflag i jraw v)
               (firstneigh0 i) v) il v) =
    c_log v ++ extra.
Proof.
  revert v. induction il as [| i il IH]; intros v; cbn [fold_left].
  - exists []. now rewrite app_nil_r.
  - assert (forall jl w, exists extra,
               c_log (fold_left (fun v jraw =>
                        compute_pair sbmask NEIGHMASK st atom force eflag evflag
                          i jraw v) jl w) = c_log w ++ extra) as Hinner.
    { induction jl as [| j jl IHj]; intros w; cbn [fold_left].
      - exists []. now rewrite app_nil_r.
      - destruct (IHj (compute_pair sbmask NEIGHMASK st atom force eflag evflag
                         i j w)) as [x1 ->].
        destruct (compute_pair_log st atom force eflag evflag i j w) as [x2 ->].
        exists (x2 ++ x1). now rewrite app_assoc. }
    destruct (IH (fold_left (fun v jraw =>
                    compute_pair sbmask NEIGHMASK st atom force eflag evflag
                      i jraw v) (firstneigh0 i) v)) as [x1 ->].
    destruct (Hinner (firstneigh0 i) v) as [x2 ->].
    exists (x2 ++ x1). now rewrite app_assoc.
Qed.

(** C4, as the code has it.  With energies asked for and the self energy
    enabled, the call of [ev_tally] that [compute] makes at position [i],
    for each local particle [i], has both particle arguments equal to [i],
    no force, no Lennard-Jones energy, and the Coulomb energy
    [qqrd2e^2 * q_i^2 * e_self]. *)
Theorem self_energy_tally (st : Pair) (atom : Atom) (force : Force)
  (neigh : NeighList) (eflag vflag i : Z)
  (He : eflag <> 0%Z) (Hs : self_flag st <> 0%Z)
  (Hi : (0 <= i < nlocal atom)%Z) :
  let log :=
    snd (fst (compute sbmask NEIGHMASK ev_setup st atom force neigh eflag vflag)) in
  nth_error log (Z.to_nat i) =
  Some {| t_i := i; t_j := i; t_nlocal := nlocal atom; t_newton_pair := 0;
          t_evdwl := 0;
          t_ecoul := qqrd2e force ^ 2 * atom_q atom i ^ 2 * e_self st;
          t_fpair := 0; t_delx := 0; t_dely := 0; t_delz := 0 |}.
Proof.
  cbv zeta. unfold compute.
  apply Z.eqb_neq in He. apply Z.eqb_neq in Hs. rewrite He, Hs. cbn [negb orb andb].
  destruct (ev_setup eflag vflag) as [evflag vflag_fdotr].
  cbn [fst snd].
  destruct (compute_loops_log st atom force eflag evflag (firstneigh neigh)
              (ilist neigh)
              {| c_f := atom_f atom; c_evdwl := 0; c_ecoul := 0;
                 c_log := compute_self st atom force [] |}) as [extra ->].
  cbn [c_log]. rewrite compute_self_spec. cbn [app].
  rewrite nth_error_app1 by (rewrite length_map, Zrange_length; lia).
  rewrite nth_error_map, nth_error_Zrange by lia.
  cbn [option_map]. rewrite Z2Nat.id by lia. cbn [Z.add].
  f_equal. f_equal. ring.
Qed.

End Compute.

Lemma self_energy_tally_witness :
  (1 <> 0)%Z /\ self_flag sample_pair <> 0%Z /\ (0 <= 0 < nlocal atom2)%Z /\
  let log :=
    snd (fst (compute sample_sbmask sample_NEIGHMASK sample_ev_setup
                sample_pair atom2 force2 neigh0 1 0)) in
  nth_error log (Z.to_nat 0) =
  Some {| t_i := 0; t_j := 0; t_nlocal := nlocal atom2; t_newton_pair := 0;
          t_evdwl := 0;
          t_ecoul := qqrd2e force2 ^ 2 * atom_q atom2 0%Z ^ 2 * e_self sample_pair;
          t_fpair := 0; t_delx := 0; t_dely := 0; t_delz := 0 |}.
Proof.
  assert (1 <> 0)%Z as He by discriminate.
  assert (self_flag sample_pair <> 0%Z) as Hs by (cbn; discriminate).
  assert (0 <= 0 < nlocal atom2)%Z as Hi by (cbn; lia).
  split; [exact He |]. split; [exact Hs |]. split; [exact Hi |].
  exact (self_energy_tally sample_sbmask sample_NEIGHMASK sample_ev_setup
           sample_pair atom2 force2 neigh0 1 0 0 He Hs Hi).
Defined.

(** C4 as stated fails when [qqrd2e] is not 1: with [qqrd2e = 2], the
    kernel without damping, cutoff 2.5 and one particle of charge 1, the
    calibrated [e_self] is [-0.2], the self energy tallied is [-0.8], and
    [qqrd2e * q^2 * e_self] is [-0.4]. *)
Lemma self_energy_counterexample :
  let st := init_parameters sample_cfg force2 in
  let log :=
    snd (fst (compute sample_sbmask sample_NEIGHMASK sample_ev_setup
                st atom2 force2 neigh0 1 0)) in
  self_flag st <> 0%Z /\
  e_self st = -0.2 /\
  exists t,
    nth_error log 0 = Some t /\
    t_i t = 0%Z /\ t_j t = 0%Z /\
    t_ecoul t = -0.8 /\
    qqrd2e force2 * atom_q atom2 0%Z ^ 2 * e_self st = -0.4 /\
    t_ecoul t <> qqrd2e force2 * atom_q atom2 0%Z ^ 2 * e_self st.
Proof.
  cbv zeta. split; [cbn; discriminate |].
  assert (e_self (init_parameters sample_cfg force2) = -0.2) as He.
  { eval_model. lra. }
  split; [exact He |].
  eexists. split.
  - eval_model. reflexivity.
  - cbn [t_i t_j t_ecoul].
    repeat split; eval_model; lra.
Qed.

(** ** Worked examples *)

(** Calibration without damping at cutoff 2.5: [f_shift = 1/6.25] and
    [e_shift = 1/2.5 + (1/6.25) * 2.5]. *)
Example calibration_none_sample :
  let st := init_parameters sample_cfg force1 in
  f_shift st = 1 / 6.25 /\ e_shift st = 1 / 2.5 + 1 / 6.25 * 2.5 /\
  e_self st = -0.4.
Proof.
  eval_model. repeat split; lra.
Qed.

(** Finalizing the pair (1,1) of the sample object, with epsilon 1, sigma 1
    and no offset. *)
Example init_one_set_sample :
  lj1 sample_pair 1%Z 1%Z = 48 /\ lj2 sample_pair 1%Z 1%Z = 24 /\
  lj3 sample_pair 1%Z 1%Z = 4 /\ lj4 sample_pair 1%Z 1%Z = 4 /\
  offset sample_pair 1%Z 1%Z = 0 /\ cut_ljsq sample_pair 1%Z 1%Z = 6.25.
Proof.
  eval_model. repeat split; lra.
Qed.

(** Finalizing the pair (1,2), left to mixing, from epsilon 1 and 4, sigma 1
    and 3 and cutoffs 2.5: epsilon 2, sigma 2, cutoff 2.5, and the cutoff
    returned is the Coulomb cutoff 3. *)
Example init_one_mixed_sample :
  let r := init_one sample_mix_weight sample_Allreduce sample_mix_cfg atom2 1 2 in
  epsilon (snd r) 1%Z 2%Z = 2 /\ sigma (snd r) 1%Z 2%Z = 2 /\
  cut_lj (snd r) 1%Z 2%Z = 2.5 /\
  lj4 (snd r) 1%Z 2%Z = 512 /\ lj4 (snd r) 2%Z 1%Z = 512 /\
  fst r = 3.
Proof.
  assert (sqrt (1 * 4) = 2) as Hsqrt.
  { replace (1 * 4) with (2 * 2) by ring. apply sqrt_square. lra. }
  eval_model.
  rewrite Hsqrt.
  repeat split; try lra.
  destruct (Rgt_dec _ _); lra.
Qed.

(** ** The neighbour loop evaluates a pair as [single] does *)

Section PairLoop.

Variable sbmask : Z -> Z.
Variable NEIGHMASK : Z.

(** For a neighbour inside the cutoff of its type pair, with tallies and
    energies asked for, the inner loop makes one call of [ev_tally]: its
    force factor is the one [single] leaves in [fforce], and its two
    energies add up to the energy [single] returns. *)
Lemma compute_pair_single (st : Pair) (atom : Atom) (force : Force)
  (eflag evflag i jraw : Z) (v : compute_vars) :
  let j := Z.land jraw NEIGHMASK in
  let delx := atom_x atom i 0%Z - atom_x atom j 0%Z in
  let dely := atom_x atom i 1%Z - atom_x atom j 1%Z in
  let delz := atom_x atom i 2%Z - atom_x atom j 2%Z in
  let rsq := delx * delx + dely * dely + delz * delz in
  let res :=
    single st atom force i j (atom_type atom i) (atom_type atom j) rsq
      (special_coul force (sbmask jraw)) (special_lj force (sbmask jraw)) in
  rsq < cutsq st (atom_type atom i) (atom_type atom j) ->
  eflag <> 0%Z -> evflag <> 0%Z ->
  exists t,
    c_log (compute_pair sbmask NEIGHMASK st atom force eflag evflag i jraw v) =
      c_log v ++ [t] /\
    t_i t = i /\ t_j t = j /\
    t_fpair t = snd res /\
    t_evdwl t + t_ecoul t = fst res.
Proof.
  cbv zeta. intros Hcut He Hev.
  apply Z.eqb_neq in He. apply Z.eqb_neq in Hev.
  unfold compute_pair, single. cbv zeta.
  destruct (Rlt_dec _ (cutsq st _ _)) as [_ | Hn]; [| contradiction].
  destruct (call_unshifted _ _ _) as [vr fr].
  rewrite He, Hev. cbn [c_log].
  eexists. split; [reflexivity |].
  cbn [t_i t_j t_fpair t_evdwl t_ecoul fst snd].
  split; [reflexivity |]. split; [reflexivity |].
  destruct (Rlt_dec _ (cut_ljsq st _ _)), (Rlt_dec _ (cut_coulsq st));
    split; ring.
Qed.

End PairLoop.

(** ** The arguments of [settings] *)

(** A Coulomb cutoff and both keywords. *)
Example settings_full_sample :
  exists st,
    settings sample_numeric pair0 atom2
      ["1"; "2.5"; "3.0"; "self"; "no"; "damp"; "gauss"]%string = Ok st /\
    alpha st = 1 /\ cut_lj_global st = 2.5 /\ cut_coul st = 3 /\
    self_flag st = 0%Z /\ single_enable st = 1%Z /\ unshifted_flag st = 2%Z.
Proof.
  eexists. split; [reflexivity |].
  eval_model. repeat split; lra.
Qed.

(** A keyword in the place of the Coulomb cutoff: the cutoff defaults to the
    Lennard-Jones one, and the variant stays the default, erfc. *)
Example settings_keyword_sample :
  exists st,
    settings sample_numeric pair0 atom2 ["1"; "2.5"; "self"; "yes"]%string = Ok st /\
    cut_coul st = 2.5 /\ self_flag st = 1%Z /\ single_enable st = 0%Z /\
    unshifted_flag st = 3%Z.
Proof.
  eexists. split; [reflexivity |].
  eval_model. repeat split; lra.
Qed.

(** Too few arguments, a keyword without its value, an unknown value. *)
Example settings_errors_sample :
  settings sample_numeric pair0 atom2 ["1"]%string =
    Err "Illegal pair_style command" /\
  settings sample_numeric pair0 atom2 ["1"; "2.5"; "damp"]%string =
    Err "Illegal pair_style command" /\
  settings sample_numeric pair0 atom2 ["1"; "2.5"; "damp"; "yukawa"]%string =
    Err "Illegal pair_style command".
Proof. repeat split; reflexivity. Qed.

(** [coeff] with a first range above the second one touches no pair and
    fails. *)
Example coeff_empty_sample :
  coeff sample_numeric sample_bounds sample_set atom2
    ["2"; "1"; "0.5"; "1.2"]%string =
  Err "Incorrect args for pair coefficients".
Proof. reflexivity. Qed.

(** * Further properties *)

(** ** Restart files: what is written is read back *)

Lemma write_restart_settings_fields (st : Pair) (fp : list field) :
  write_restart_settings st fp =
  fp ++ [FDouble (alpha st); FDouble (cut_lj_global st); FDouble (cut_coul st);
         FInt (offset_flag st); FInt (mix_flag st); FInt (tail_flag st);
         FInt (self_flag st); FInt (unshifted_flag st)].
Proof.
  unfold write_restart_settings, fwrite_double, fwrite_int. cbv zeta.
  now rewrite <- !app_assoc.
Qed.

Lemma write_restart_fields (st : Pair) (atom : Atom) (fp : list field) :
  write_restart st atom fp =
  write_restart_settings st fp ++
  flat_map (fun i => flat_map (pair_fields st i) (Zrange i (ntypes atom)))
    (Zrange 1 (ntypes atom)).
Proof.
  unfold write_restart. cbv zeta. unfold for_range at 1.
  generalize (write_restart_settings st fp) as fp0.
  induction (Zrange 1 (ntypes atom)) as [| i l IH]; intros fp0; cbn [fold_left flat_map].
  - now rewrite app_nil_r.
  - rewrite IH, app_assoc. f_equal.
    unfold for_range. generalize fp0 as fp1.
    induction (Zrange i (ntypes atom)) as [| j m IHm]; intros fp1;
      cbn [fold_left flat_map].
    + now rewrite app_nil_r.
    + rewrite IHm, app_assoc. f_equal.
      unfold pair_fields, fwrite_int, fwrite_double.
      destruct (setflag st i j =? 0)%Z; now rewrite <- ?app_assoc.
Qed.

Lemma read_restart_settings_fields (raw st : Pair) (rest : list field) :
  exists st',
    read_restart_settings raw (write_restart_settings st [] ++ rest) = Some (st', rest) /\
    alpha st' = alpha st /\ cut_lj_global st' = cut_lj_global st /\
    cut_coul st' = cut_coul st /\ offset_flag st' = offset_flag st /\
    mix_flag st' = mix_flag st /\ tail_flag st' = tail_flag st /\
    self_flag st' = self_flag st /\ unshifted_flag st' = unshifted_flag st /\
    allocated st' = allocated raw /\ single_enable st' = single_enable raw /\
    setflag st' = setflag raw /\ epsilon st' = epsilon raw /\
    sigma st' = sigma raw /\ cut_lj st' = cut_lj raw.
Proof.
  rewrite write_restart_settings_fields. cbn [app].
  unfold read_restart_settings. cbn [fread_double fread_int].
  eexists. split; [reflexivity |]. cbn. repeat split.
Qed.

Lemma read_restart_pair_fields (st : Pair) (i j : Z) (v : restart_vars)
  (rest : list field) :
  rv_fp v = pair_fields st i j ++ rest ->
  exists v',
    read_restart_pair i j v = Some v' /\ rv_fp v' = rest /\
    restored_pair (rv_setflag v') (rv_epsilon v') (rv_sigma v') (rv_cut_lj v') st i j /\
    (forall a b,
        restored_pair (rv_setflag v) (rv_epsilon v) (rv_sigma v) (rv_cut_lj v) st a b ->
        restored_pair (rv_setflag v') (rv_epsilon v') (rv_sigma v') (rv_cut_lj v') st a b).
Proof.
  intros Hfp. unfold read_restart_pair, pair_fields in *. rewrite Hfp.
  cbn [app fread_int].
  destruct (setflag st i j =? 0)%Z eqn:E.
  - eexists. split; [reflexivity |]. cbn [rv_fp rv_setflag rv_epsilon rv_sigma rv_cut_lj].
    split; [reflexivity |]. unfold restored_pair. split.
    + split; [apply aset_eq |]. intros Hne. apply Z.eqb_eq in E. contradiction.
    + intros a b [Hf Hv].
      destruct (Z.eq_dec a i) as [-> | Ha]; [destruct (Z.eq_dec b j) as [-> | Hb] |].
      * split; [apply aset_eq | exact Hv].
      * rewrite aset_neq by congruence. now split.
      * rewrite aset_neq by congruence. now split.
  - cbn [app fread_double].
    eexists. split; [reflexivity |]. cbn [rv_fp rv_setflag rv_epsilon rv_sigma rv_cut_lj].
    split; [reflexivity |]. unfold restored_pair. split.
    + rewrite !aset_eq. now repeat split.
    + intros a b [Hf Hv].
      destruct (Z.eq_dec a i) as [-> | Ha]; [destruct (Z.eq_dec b j) as [-> | Hb] |].
      * rewrite !aset_eq. now repeat split.
      * rewrite !aset_neq by congruence. now split.
      * rewrite !aset_neq by congruence. now split.
Qed.

Lemma read_restart_row_fields (st : Pair) (i : Z) (l : list Z) (v : restart_vars)
  (rest : list field) :
  rv_fp v = flat_map (pair_fields st i) l ++ rest ->
  exists v',
    fold_left (fun o j =>
      match o with
      | None => None
      | Some w => read_restart_pair i j w
      end) l (Some v) = Some v' /\
    rv_fp v' = rest /\
    (forall j, In j l ->
       restored_pair (rv_setflag v') (rv_epsilon v') (rv_sigma v') (rv_cut_lj v') st i j) /\
    (forall a b,
        restored_pair (rv_setflag v) (rv_epsilon v) (rv_sigma v) (rv_cut_lj v) st a b ->
        restored_pair (rv_setflag v') (rv_epsilon v') (rv_sigma v') (rv_cut_lj v') st a b).
Proof.
  revert v. induction l as [| j l IH]; intros v Hfp; cbn [fold_left flat_map] in *.
  - exists v. split; [reflexivity |]. split; [exact Hfp |].
    split; [intros j' [] | auto].
  - rewrite <- app_assoc in Hfp.
    destruct (read_restart_pair_fields st i j v _ Hfp) as (v1 & -> & Hfp1 & Hj & Hkeep).
    destruct (IH v1 Hfp1) as (v' & Hfold & Hfp' & Hin & Hkeep').
    exists v'. split; [exact Hfold |]. split; [exact Hfp' |]. split.
    + intros j' [<- | Hj']; [now apply Hkeep' | now apply Hin].
    + intros a b Hab. now apply Hkeep', Hkeep.
Qed.

Lemma read_restart_loop_fields (st : Pair) (n : Z) (l : list Z) (v : restart_vars)
  (rest : list field) :
  rv_fp v = flat_map (fun i => flat_map (pair_fields st i) (Zrange i n)) l ++ rest ->
  exists v',
    fold_left (fun o i =>
      for_range i n (fun j o =>
        match o with
        | None => None
        | Some w => read_restart_pair i j w
        end) o) l (Some v) = Some v' /\
    rv_fp v' = rest /\
    (forall i j, In i l -> (i <= j <= n)%Z ->
       restored_pair (rv_setflag v') (rv_epsilon v') (rv_sigma v') (rv_cut_lj v') st i j) /\
    (forall a b,
        restored_pair (rv_setflag v) (rv_epsilon v) (rv_sigma v) (rv_cut_lj v) st a b ->
        restored_pair (rv_setflag v') (rv_epsilon v') (rv_sigma v') (rv_cut_lj v') st a b).
Proof.
  revert v. induction l as [| i l IH]; intros v Hfp; cbn [fold_left flat_map] in *.
  - exists v. split; [reflexivity |]. split; [exact Hfp |].
    split; [intros i' j' [] | auto].
  - rewrite <- app_assoc in Hfp.
    destruct (read_restart_row_fields st i (Zrange i n) v _ Hfp)
      as (v1 & Hrow & Hfp1 & Hin1 & Hkeep1).
    assert (for_range i n (fun j o =>
              match o with
              | None => None
              | Some w => read_restart_pair i j w
              end) (Some v) = Some v1) as Hrow' by exact Hrow.
    rewrite Hrow'.
    destruct (IH v1 Hfp1) as (v' & Hfold & Hfp' & Hin & Hkeep').
    exists v'. split; [exact Hfold |]. split; [exact Hfp' |]. split.
    + intros i' j [<- | Hi'] Hj.
      * apply Hkeep', Hin1. now apply In_Zrange.
      * now apply Hin.
    + intros a b Hab. now apply Hkeep', Hkeep1.
Qed.

(** The reader mirrors the writer. *)
Lemma read_restart_write_restart (raw st : Pair) (atom : Atom) (rest : list field) :
  exists st',
    read_restart raw atom (write_restart st atom [] ++ rest) = Some (st', rest) /\
    alpha st' = alpha st /\ cut_lj_global st' = cut_lj_global st /\
    cut_coul st' = cut_coul st /\ offset_flag st' = offset_flag st /\
    mix_flag st' = mix_flag st /\ tail_flag st' = tail_flag st /\
    self_flag st' = self_flag st /\ unshifted_flag st' = unshifted_flag st /\
    allocated st' = 1%Z /\
    forall i j, (1 <= i <= j)%Z -> (j <= ntypes atom)%Z ->
      restored_pair (setflag st') (epsilon st') (sigma st') (cut_lj st') st i j.
Proof.
  rewrite write_restart_fields, <- app_assoc.
  destruct (read_restart_settings_fields raw st
              (flat_map (fun i => flat_map (pair_fields st i) (Zrange i (ntypes atom)))
                 (Zrange 1 (ntypes atom)) ++ rest))
    as (st1 & Hset & Ha & Hg & Hc & Ho & Hm & Ht & Hs & Hu & _).
  unfold read_restart. rewrite Hset. cbv zeta.
  destruct (read_restart_loop_fields st (ntypes atom) (Zrange 1 (ntypes atom))
              {| rv_setflag := setflag (allocate st1 atom);
                 rv_epsilon := epsilon (allocate st1 atom);
                 rv_sigma := sigma (allocate st1 atom);
                 rv_cut_lj := cut_lj (allocate st1 atom);
                 rv_fp := flat_map (fun i =>
                            flat_map (pair_fields st i) (Zrange i (ntypes atom)))
                            (Zrange 1 (ntypes atom)) ++ rest |} rest eq_refl)
    as (v' & Hloop & Hfp & Hin & _).
  unfold read_restart_loop, for_range at 1. rewrite Hloop, Hfp.
  eexists. split; [reflexivity |].
  cbn [alpha cut_lj_global cut_coul offset_flag mix_flag tail_flag self_flag
       unshifted_flag allocated setflag epsilon sigma cut_lj allocate].
  repeat (split; [assumption || reflexivity |]).
  intros i j Hij Hjn. apply Hin; [apply In_Zrange; lia | lia].
Qed.

(** X1.  Reading, into any object, a file that [write_restart] wrote from
    [st], with whatever follows it in the file, succeeds and stops exactly
    where the record of [st] ends.  The object read has the eight global
    settings of [st], is allocated, and for every pair [1 <= i <= j <= n]
    has the flag of [st] and, when the flag is set, its epsilon, sigma and
    cutoff. *)
Theorem restart_round_trip (raw st : Pair) (atom : Atom) (rest : list field) :
  exists st',
    read_restart raw atom (write_restart st atom [] ++ rest) = Some (st', rest) /\
    alpha st' = alpha st /\ cut_lj_global st' = cut_lj_global st /\
    cut_coul st' = cut_coul st /\ offset_flag st' = offset_flag st /\
    mix_flag st' = mix_flag st /\ tail_flag st' = tail_flag st /\
    self_flag st' = self_flag st /\ unshifted_flag st' = unshifted_flag st /\
    allocated st' = 1%Z /\
    forall i j, (1 <= i <= j)%Z -> (j <= ntypes atom)%Z ->
      restored_pair (setflag st') (epsilon st') (sigma st') (cut_lj st') st i j.
Proof.
  destruct (read_restart_write_restart raw st atom rest)
    as (st' & Hread & Hsettings).
  exists st'. split; [exact Hread | exact Hsettings].
Qed.

(** ** Finalization: what it reads, what it writes *)

Section FinalizeMore.

Variable mix_weight : Z -> R -> R -> R.
Variable MPI_Allreduce_SUM : R * R -> R * R.

(** The values [init_one i j] returns and leaves at [(i,j)] and [(j,i)]
    are determined by the flag of the pair, the two policy flags, the
    Coulomb cutoff and, for a pair set explicitly, its epsilon, sigma and
    cutoff, for a pair left to mixing, those of the two diagonal pairs. *)
Lemma init_one_ext (st1 st2 : Pair) (atom : Atom) (i j : Z) :
  setflag st1 i j = setflag st2 i j ->
  offset_flag st1 = offset_flag st2 ->
  mix_flag st1 = mix_flag st2 ->
  cut_coul st1 = cut_coul st2 ->
  (if (setflag st2 i j =? 0)%Z then
     epsilon st1 i i = epsilon st2 i i /\ epsilon st1 j j = epsilon st2 j j /\
     sigma st1 i i = sigma st2 i i /\ sigma st1 j j = sigma st2 j j /\
     cut_lj st1 i i = cut_lj st2 i i /\ cut_lj st1 j j = cut_lj st2 j j
   else
     epsilon st1 i j = epsilon st2 i j /\ sigma st1 i j = sigma st2 i j /\
     cut_lj st1 i j = cut_lj st2 i j) ->
  let r1 := init_one mix_weight MPI_Allreduce_SUM st1 atom i j in
  let r2 := init_one mix_weight MPI_Allreduce_SUM st2 atom i j in
  fst r1 = fst r2 /\
  epsilon (snd r1) i j = epsilon (snd r2) i j /\
  sigma (snd r1) i j = sigma (snd r2) i j /\
  cut_lj (snd r1) i j = cut_lj (snd r2) i j /\
  (cut_ljsq (snd r1) i j = cut_ljsq (snd r2) i j /\
   lj1 (snd r1) i j = lj1 (snd r2) i j /\ lj2 (snd r1) i j = lj2 (snd r2) i j /\
   lj3 (snd r1) i j = lj3 (snd r2) i j /\ lj4 (snd r1) i j = lj4 (snd r2) i j /\
   offset (snd r1) i j = offset (snd r2) i j) /\
  (cut_ljsq (snd r1) j i = cut_ljsq (snd r2) j i /\
   lj1 (snd r1) j i = lj1 (snd r2) j i /\ lj2 (snd r1) j i = lj2 (snd r2) j i /\
   lj3 (snd r1) j i = lj3 (snd r2) j i /\ lj4 (snd r1) j i = lj4 (snd r2) j i /\
   offset (snd r1) j i = offset (snd r2) j i).
Proof.
  intros Hf Ho Hm Hc Hin. cbv zeta. unfold init_one. cbv zeta.
  destruct (if (tail_flag st1 =? 0)%Z then _ else _) as [et1 pt1].
  destruct (if (tail_flag st2 =? 0)%Z then _ else _) as [et2 pt2].
  cbn [fst snd epsilon sigma cut_lj cut_ljsq lj1 lj2 lj3 lj4 offset].
  unfold mix_energy, mix_distance.
  rewrite Hf, Ho, Hm, Hc.
  destruct (setflag st2 i j =? 0)%Z.
  - destruct Hin as (-> & -> & -> & -> & -> & ->).
    destruct (offset_flag st2 =? 0)%Z;
      rewrite ?aset_twice_ij, ?aset_eq; repeat split; reflexivity.
  - destruct Hin as (-> & -> & ->).
    destruct (offset_flag st2 =? 0)%Z;
      rewrite ?aset_twice_ij, ?aset_eq; repeat split; reflexivity.
Qed.

(** [init_one] establishes the ratio of the force coefficients to the
    energy coefficients. *)
Lemma init_one_lj_ratio (st : Pair) (atom : Atom) (i j : Z) :
  let st' := snd (init_one mix_weight MPI_Allreduce_SUM st atom i j) in
  lj1 st' i j = 12 * lj3 st' i j /\ lj2 st' i j = 6 * lj4 st' i j.
Proof.
  cbv zeta. unfold init_one. cbv zeta.
  destruct (if (tail_flag st =? 0)%Z then _ else _) as [et pt].
  cbn [snd lj1 lj2 lj3 lj4]. rewrite !aset_twice_ij. split; ring.
Qed.

(** [init_one i j] leaves epsilon, sigma and the cutoff alone, except at
    [(i,j)] when the pair is left to mixing. *)
Lemma init_one_keeps_inputs (st : Pair) (atom : Atom) (i j a b : Z) :
  (((a =? i)%Z && (b =? j)%Z)%bool && (setflag st i j =? 0)%Z)%bool = false ->
  let st' := snd (init_one mix_weight MPI_Allreduce_SUM st atom i j) in
  epsilon st' a b = epsilon st a b /\ sigma st' a b = sigma st a b /\
  cut_lj st' a b = cut_lj st a b.
Proof.
  intros E. cbv zeta. unfold init_one. cbv zeta.
  destruct (if (tail_flag st =? 0)%Z then _ else _) as [et pt].
  cbn [snd epsilon sigma cut_lj].
  destruct (setflag st i j =? 0)%Z; [| now repeat split].
  rewrite andb_true_r in E. unfold aset. rewrite E. now repeat split.
Qed.

(** X2.  [init_one i j] writes the cells [(i,j)] and [(j,i)] of the six
    derived tables and the cell [(i,j)] of epsilon, sigma and the cutoff,
    and nothing else of the tables: every other cell keeps its value, the
    flags are untouched, and for a pair set explicitly epsilon, sigma and
    the cutoff are untouched too. *)
Theorem init_one_frame (st : Pair) (atom : Atom) (i j a b : Z) :
  let st' := snd (init_one mix_weight MPI_Allreduce_SUM st atom i j) in
  setflag st' = setflag st /\ cutsq st' = cutsq st /\
  (if ((a =? i) && (b =? j))%Z && (setflag st i j =? 0)%Z then True
   else epsilon st' a b = epsilon st a b /\ sigma st' a b = sigma st a b /\
        cut_lj st' a b = cut_lj st a b) /\
  (if (((a =? i) && (b =? j)) || ((a =? j) && (b =? i)))%Z then True
   else cut_ljsq st' a b = cut_ljsq st a b /\
        lj1 st' a b = lj1 st a b /\ lj2 st' a b = lj2 st a b /\
        lj3 st' a b = lj3 st a b /\ lj4 st' a b = lj4 st a b /\
        offset st' a b = offset st a b).
Proof.
  cbv zeta. unfold init_one. cbv zeta.
  destruct (if (tail_flag st =? 0)%Z then _ else _) as [et pt].
  cbn [snd setflag cutsq epsilon sigma cut_lj cut_ljsq lj1 lj2 lj3 lj4 offset].
  split; [reflexivity |]. split; [reflexivity |]. split.
  - destruct (setflag st i j =? 0)%Z.
    + rewrite andb_true_r. unfold aset.
      destruct ((a =? i)%Z && (b =? j)%Z)%bool; [exact I | now repeat split].
    + rewrite andb_false_r. now repeat split.
  - destruct (offset_flag st =? 0)%Z; unfold aset;
      destruct ((a =? i)%Z && (b =? j)%Z)%bool, ((a =? j)%Z && (b =? i)%Z)%bool;
      cbn [orb]; try exact I; now repeat split.
Qed.

(** X3.  Finalizing a pair a second time changes nothing: for a pair set
    explicitly, or an off-diagonal pair left to mixing, the second
    [init_one i j] returns the same cutoff and leaves the same values at
    [(i,j)] and [(j,i)] as the first. *)
Theorem init_one_twice (st : Pair) (atom : Atom) (i j : Z)
  (Hpair : setflag st i j <> 0%Z \/ i <> j) :
  let r1 := init_one mix_weight MPI_Allreduce_SUM st atom i j in
  let r2 := init_one mix_weight MPI_Allreduce_SUM (snd r1) atom i j in
  fst r2 = fst r1 /\
  epsilon (snd r2) i j = epsilon (snd r1) i j /\
  sigma (snd r2) i j = sigma (snd r1) i j /\
  cut_lj (snd r2) i j = cut_lj (snd r1) i j /\
  derived_sym (snd r2) i j /\
  cut_ljsq (snd r2) i j = cut_ljsq (snd r1) i j /\
  lj1 (snd r2) i j = lj1 (snd r1) i j /\ lj2 (snd r2) i j = lj2 (snd r1) i j /\
  lj3 (snd r2) i j = lj3 (snd r1) i j /\ lj4 (snd r2) i j = lj4 (snd r1) i j /\
  offset (snd r2) i j = offset (snd r1) i j.
Proof.
  cbv zeta.
  set (st1 := snd (init_one mix_weight MPI_Allreduce_SUM st atom i j)).
  assert (setflag st1 = setflag st /\ offset_flag st1 = offset_flag st /\
          mix_flag st1 = mix_flag st /\ cut_coul st1 = cut_coul st) as (Hf & Ho & Hm & Hc).
  { unfold st1, init_one. cbv zeta.
    destruct (if (tail_flag st =? 0)%Z then _ else _) as [et pt].
    cbn. repeat split. }
  assert (forall a b,
            (((a =? i)%Z && (b =? j)%Z)%bool && (setflag st i j =? 0)%Z)%bool = false ->
            epsilon st1 a b = epsilon st a b /\ sigma st1 a b = sigma st a b /\
            cut_lj st1 a b = cut_lj st a b) as Hkeep.
  { intros a b E. exact (init_one_keeps_inputs st atom i j a b E). }
  assert (if (setflag st i j =? 0)%Z then
            epsilon st1 i i = epsilon st i i /\ epsilon st1 j j = epsilon st j j /\
            sigma st1 i i = sigma st i i /\ sigma st1 j j = sigma st j j /\
            cut_lj st1 i i = cut_lj st i i /\ cut_lj st1 j j = cut_lj st j j
          else
            epsilon st1 i j = epsilon st i j /\ sigma st1 i j = sigma st i j /\
            cut_lj st1 i j = cut_lj st i j) as Hin.
  { destruct (setflag st i j =? 0)%Z eqn:E.
    - assert (i <> j) as Hij.
      { destruct Hpair as [H | H]; [| exact H]. apply Z.eqb_eq in E. contradiction. }
      destruct (Hkeep i i) as (H1 & H2 & H3).
      { destruct (Z.eqb_spec i j); [contradiction |]. now rewrite andb_false_r. }
      destruct (Hkeep j j) as (H4 & H5 & H6).
      { destruct (Z.eqb_spec j i); [now subst |]. reflexivity. }
      now repeat split.
    - apply Hkeep. now rewrite andb_false_r. }
  destruct (init_one_ext st1 st atom i j (f_equal (fun t => t i j) Hf) Ho Hm Hc Hin)
    as (H0 & H1 & H2 & H3 & (H4 & H5 & H6 & H7 & H8 & H9) & _).
  fold st1 in H0, H1, H2, H3, H4, H5, H6, H7, H8, H9.
  repeat (split; [assumption |]).
  split; [| repeat (split; [assumption |]); assumption].
  apply init_one_derived_sym. right. now left.
Qed.

(** X4.  A restart file restores what finalization reads: for a pair
    [1 <= i <= j <= n] that is set explicitly, or whose two diagonal pairs
    are, [init_one i j] on the object read back returns the same cutoff and
    computes the same coefficients, offset and squared cutoff, at [(i,j)]
    and at [(j,i)], as on the object that was written. *)
Theorem restart_then_init_one (raw st : Pair) (atom : Atom) (rest : list field)
  (i j : Z)
  (Hij : (1 <= i <= j)%Z) (Hjn : (j <= ntypes atom)%Z)
  (Hset : setflag st i j <> 0%Z \/ (setflag st i i <> 0%Z /\ setflag st j j <> 0%Z)) :
  exists st',
    read_restart raw atom (write_restart st atom [] ++ rest) = Some (st', rest) /\
    let r := init_one mix_weight MPI_Allreduce_SUM st atom i j in
    let r' := init_one mix_weight MPI_Allreduce_SUM st' atom i j in
    fst r' = fst r /\
    (cut_ljsq (snd r') i j = cut_ljsq (snd r) i j /\
     lj1 (snd r') i j = lj1 (snd r) i j /\ lj2 (snd r') i j = lj2 (snd r) i j /\
     lj3 (snd r') i j = lj3 (snd r) i j /\ lj4 (snd r') i j = lj4 (snd r) i j /\
     offset (snd r') i j = offset (snd r) i j) /\
    (cut_ljsq (snd r') j i = cut_ljsq (snd r) j i /\
     lj1 (snd r') j i = lj1 (snd r) j i /\ lj2 (snd r') j i = lj2 (snd r) j i /\
     lj3 (snd r') j i = lj3 (snd r) j i /\ lj4 (snd r') j i = lj4 (snd r) j i /\
     offset (snd r') j i = offset (snd r) j i).
Proof.
  destruct (read_restart_write_restart raw st atom rest)
    as (st' & Hread & _ & _ & Hc & Ho & Hm & _ & _ & _ & _ & Hpairs).
  exists st'. split; [exact Hread |].
  destruct (Hpairs i j Hij Hjn) as [Hfij Hvij].
  assert (if (setflag st i j =? 0)%Z then
            epsilon st' i i = epsilon st i i /\ epsilon st' j j = epsilon st j j /\
            sigma st' i i = sigma st i i /\ sigma st' j j = sigma st j j /\
            cut_lj st' i i = cut_lj st i i /\ cut_lj st' j j = cut_lj st j j
          else
            epsilon st' i j = epsilon st i j /\ sigma st' i j = sigma st i j /\
            cut_lj st' i j = cut_lj st i j) as Hin.
  { destruct (Z.eqb_spec (setflag st i j) 0) as [E | E].
    - destruct Hset as [H | [Hi Hj]]; [contradiction |].
      destruct (Hpairs i i ltac:(lia) ltac:(lia)) as [_ Hvi].
      destruct (Hpairs j j ltac:(lia) ltac:(lia)) as [_ Hvj].
      destruct (Hvi Hi) as (? & ? & ?). destruct (Hvj Hj) as (? & ? & ?).
      now repeat split.
    - exact (Hvij E). }
  destruct (init_one_ext st' st atom i j Hfij Ho Hm Hc Hin)
    as (H0 & _ & _ & _ & Hd1 & Hd2).
  cbv zeta. split; [exact H0 |]. split; [exact Hd1 | exact Hd2].
Qed.

End FinalizeMore.

(** ** Configuration: flags, defaults and what stays as it was *)

Section ConfigurationMore.

Variable numeric : string -> result R.
Variable bounds : string -> Z -> result (Z * Z).
Variable mix_weight : Z -> R -> R -> R.
Variable MPI_Allreduce_SUM : R * R -> R * R.

Lemma settings_keywords_flags (n : nat) :
  forall (l : list string) (sf uf sf' uf' : Z),
    (List.length l <= n)%nat ->
    settings_keywords l sf uf = Ok (sf', uf') ->
    (sf = 0 \/ sf = 1)%Z -> (0 <= uf <= 3)%Z ->
    (sf' = 0 \/ sf' = 1)%Z /\ (0 <= uf' <= 3)%Z.
Proof.
  induction n as [| n IH]; intros l sf uf sf' uf' Hlen Hk Hsf Huf.
  - destruct l; [| cbn in Hlen; lia]. cbn in Hk. injection Hk as <- <-. now split.
  - destruct l as [| kw [| v rest]]; cbn [settings_keywords] in Hk.
    + injection Hk as <- <-. now split.
    + destruct (kw =? "self")%string; [discriminate |].
      destruct (kw =? "damp")%string; discriminate.
    + assert (List.length rest <= n)%nat as Hrest by (cbn in Hlen; lia).
      destruct (kw =? "self")%string.
      * destruct (v =? "yes")%string; [apply (IH rest _ _ _ _ Hrest Hk); auto; lia |].
        destruct (v =? "no")%string; [apply (IH rest _ _ _ _ Hrest Hk); auto; lia |].
        discriminate.
      * destruct (kw =? "damp")%string; [| discriminate].
        destruct (v =? "none")%string; [apply (IH rest _ _ _ _ Hrest Hk); auto; lia |].
        destruct (v =? "debye")%string; [apply (IH rest _ _ _ _ Hrest Hk); auto; lia |].
        destruct (v =? "gauss")%string; [apply (IH rest _ _ _ _ Hrest Hk); auto; lia |].
        destruct (v =? "erfc")%string; [apply (IH rest _ _ _ _ Hrest Hk); auto; lia |].
        discriminate.
Qed.

(** What a successful [settings] call read, and what it left alone. *)
Lemma settings_inv (st st' : Pair) (atom : Atom) (arg : list string) :
  settings numeric st atom arg = Ok st' ->
  exists a0 a1 rest kws,
    arg = a0 :: a1 :: rest /\
    numeric a0 = Ok (alpha st') /\ numeric a1 = Ok (cut_lj_global st') /\
    match rest with
    | [] => cut_coul st' = cut_lj_global st' /\ kws = rest
    | a2 :: rest' =>
        if ((a2 =? "self") || (a2 =? "damp"))%string
        then cut_coul st' = cut_lj_global st' /\ kws = rest
        else numeric a2 = Ok (cut_coul st') /\ kws = rest'
    end /\
    settings_keywords kws (self_flag st) (unshifted_flag st) =
      Ok (self_flag st', unshifted_flag st') /\
    single_enable st' = (if (self_flag st' =? 0)%Z then 1 else 0)%Z /\
    allocated st' = allocated st /\
    unshifted st' = unshifted st /\ cut_coulsq st' = cut_coulsq st /\
    e_shift st' = e_shift st /\ f_shift st' = f_shift st /\ e_self st' = e_self st /\
    offset_flag st' = offset_flag st /\ mix_flag st' = mix_flag st /\
    tail_flag st' = tail_flag st.
Proof.
  unfold settings.
  destruct arg as [| a0 [| a1 rest]]; try discriminate.
  destruct (numeric a0) as [alpha' |] eqn:E0; [| discriminate].
  destruct (numeric a1) as [cut' |] eqn:E1; [| discriminate].
  cbn [bind].
  destruct (match rest with [] => _ | _ :: _ => _ end) as [[cc kws] |] eqn:Ecc;
    [| discriminate].
  cbn [bind].
  destruct (settings_keywords kws (self_flag st) (unshifted_flag st))
    as [[sf uf] |] eqn:Ek; [| discriminate].
  cbn [bind]. intros [= <-]. cbn.
  exists a0, a1, rest, kws.
  split; [reflexivity |]. split; [exact E0 |]. split; [exact E1 |].
  split; [| repeat split; assumption].
  destruct rest as [| a2 rest'].
  - injection Ecc as <- <-. now split.
  - destruct ((a2 =? "self") || (a2 =? "damp"))%string.
    + injection Ecc as <- <-. now split.
    + destruct (numeric a2) as [c |]; [| discriminate].
      cbn [bind] in Ecc. injection Ecc as <- <-. now split.
Qed.

(** What a successful [coeff] call read, and what it left alone. *)
Lemma coeff_inv (st st' : Pair) (atom : Atom) (arg : list string) :
  coeff numeric bounds st atom arg = Ok st' ->
  let st0 := if (allocated st =? 0)%Z then allocate st atom else st in
  exists a0 a1 a2 a3 rest ilo ihi jlo jhi e s c,
    arg = a0 :: a1 :: a2 :: a3 :: rest /\
    (List.length rest <= 1)%nat /\
    bounds a0 (ntypes atom) = Ok (ilo, ihi) /\
    bounds a1 (ntypes atom) = Ok (jlo, jhi) /\
    numeric a2 = Ok e /\ numeric a3 = Ok s /\
    match rest with
    | [] => c = cut_lj_global st
    | a4 :: _ => numeric a4 = Ok c
    end /\
    covered_count ilo ihi jlo jhi <> 0%Z /\
    (forall i j,
        setflag st' i j = (if covered ilo ihi jlo jhi i j then 1%Z else setflag st0 i j) /\
        epsilon st' i j = (if covered ilo ihi jlo jhi i j then e else epsilon st0 i j) /\
        sigma st' i j = (if covered ilo ihi jlo jhi i j then s else sigma st0 i j) /\
        cut_lj st' i j = (if covered ilo ihi jlo jhi i j then c else cut_lj st0 i j)) /\
    allocated st' = allocated st0 /\
    self_flag st' = self_flag st /\ unshifted_flag st' = unshifted_flag st /\
    single_enable st' = single_enable st /\
    alpha st' = alpha st /\ cut_lj_global st' = cut_lj_global st /\
    cut_coul st' = cut_coul st /\
    unshifted st' = unshifted st /\ cut_coulsq st' = cut_coulsq st /\
    e_shift st' = e_shift st /\ f_shift st' = f_shift st /\ e_self st' = e_self st.
Proof.
  unfold coeff. cbv zeta.
  destruct arg as [| a0 [| a1 [| a2 [| a3 rest]]]]; try discriminate.
  set (st0 := if (allocated st =? 0)%Z then allocate st atom else st).
  assert (self_flag st0 = self_flag st /\ unshifted_flag st0 = unshifted_flag st /\
          single_enable st0 = single_enable st /\
          alpha st0 = alpha st /\ cut_lj_global st0 = cut_lj_global st /\
          cut_coul st0 = cut_coul st /\
          unshifted st0 = unshifted st /\ cut_coulsq st0 = cut_coulsq st /\
          e_shift st0 = e_shift st /\ f_shift st0 = f_shift st /\
          e_self st0 = e_self st) as H0.
  { unfold st0. destruct (allocated st =? 0)%Z; cbn; repeat split. }
  destruct H0 as (F1 & F2 & F3 & F4 & F5 & F6 & F7 & F8 & F9 & F10 & F11).
  intros Hc.
  assert (List.length rest <= 1)%nat as Hlen.
  { destruct rest as [| a4 [| a5 rest]]; cbn; try lia. discriminate. }
  destruct (bounds a0 (ntypes atom)) as [[ilo ihi] |] eqn:Eb0;
    [| destruct rest as [| a4 [| a5 rest]]; discriminate].
  destruct (bounds a1 (ntypes atom)) as [[jlo jhi] |] eqn:Eb1;
    [| destruct rest as [| a4 [| a5 rest]]; discriminate].
  destruct (numeric a2) as [e |] eqn:Ee;
    [| destruct rest as [| a4 [| a5 rest]]; discriminate].
  destruct (numeric a3) as [s |] eqn:Es;
    [| destruct rest as [| a4 [| a5 rest]]; discriminate].
  assert (exists c,
             match rest with [] => c = cut_lj_global st | a4 :: _ => numeric a4 = Ok c end /\
             (let v := coeff_loop ilo ihi jlo jhi e s c
                         {| cv_epsilon := epsilon st0; cv_sigma := sigma st0;
                            cv_cut_lj := cut_lj st0; cv_setflag := setflag st0;
                            cv_count := 0 |} in
              (cv_count v =? 0)%Z = false /\
              setflag st' = cv_setflag v /\ epsilon st' = cv_epsilon v /\
              sigma st' = cv_sigma v /\ cut_lj st' = cv_cut_lj v) /\
             allocated st' = allocated st0 /\
             self_flag st' = self_flag st0 /\ unshifted_flag st' = unshifted_flag st0 /\
             single_enable st' = single_enable st0 /\
             alpha st' = alpha st0 /\ cut_lj_global st' = cut_lj_global st0 /\
             cut_coul st' = cut_coul st0 /\
             unshifted st' = unshifted st0 /\ cut_coulsq st' = cut_coulsq st0 /\
             e_shift st' = e_shift st0 /\ f_shift st' = f_shift st0 /\
             e_self st' = e_self st0) as (c & Hcv & Hloop & Hrest).
  { destruct rest as [| a4 [| a5 rest]]; [| | cbn in Hlen; lia]; cbn [bind] in Hc.
    - exists (cut_lj_global st0). split; [exact F5 |].
      destruct (cv_count _ =? 0)%Z eqn:En; [discriminate |].
      injection Hc as <-. cbn. repeat split. exact En.
    - destruct (numeric a4) as [c |] eqn:E4; [| discriminate]. cbn [bind] in Hc.
      exists c. split; [reflexivity |].
      destruct (cv_count _ =? 0)%Z eqn:En; [discriminate |].
      injection Hc as <-. cbn. repeat split. exact En. }
  cbv zeta in Hloop. destruct Hloop as (En & Hsf & Hep & Hsi & Hcl).
  destruct (coeff_loop_spec ilo ihi jlo jhi e s c
              {| cv_epsilon := epsilon st0; cv_sigma := sigma st0;
                 cv_cut_lj := cut_lj st0; cv_setflag := setflag st0;
                 cv_count := 0 |}) as (Hve & Hvs & Hvc & Hvf & Hvn).
  cbv zeta in *. cbn [cv_epsilon cv_sigma cv_cut_lj cv_setflag cv_count] in *.
  exists a0, a1, a2, a3, rest, ilo, ihi, jlo, jhi, e, s, c.
  split; [reflexivity |]. split; [exact Hlen |].
  split; [exact Eb0 |]. split; [exact Eb1 |].
  split; [exact Ee |]. split; [exact Es |].
  split; [exact Hcv |].
  split.
  { rewrite Hvn in En. apply Z.eqb_neq in En. lia. }
  split.
  { intros i j. rewrite Hsf, Hep, Hsi, Hcl, Hve, Hvs, Hvc, Hvf. repeat split. }
  destruct Hrest as (R0 & R1 & R2 & R3 & R4 & R5 & R6 & R7 & R8 & R9 & R10 & R11).
  repeat split; congruence.
Qed.

Lemma init_one_settings (st : Pair) (atom : Atom) (i j : Z) :
  let st' := snd (init_one mix_weight MPI_Allreduce_SUM st atom i j) in
  self_flag st' = self_flag st /\ unshifted_flag st' = unshifted_flag st /\
  single_enable st' = single_enable st.
Proof.
  unfold init_one. cbv zeta.
  destruct (if (tail_flag st =? 0)%Z then _ else _) as [et pt].
  cbn. repeat split.
Qed.

Lemma step_flags_ok (atom : Atom) (st st' : Pair) (o : op) :
  step numeric bounds mix_weight MPI_Allreduce_SUM atom st o = Ok st' ->
  flags_ok st -> flags_ok st'.
Proof.
  unfold flags_ok. intros Hs (Hsf & Huf & Hse).
  destruct o as [arg | arg | i j]; cbn [step] in Hs.
  - destruct (settings_inv st st' atom arg Hs)
      as (a0 & a1 & rest & kws & _ & _ & _ & _ & Hk & Hen & _).
    destruct (settings_keywords_flags (List.length kws) kws _ _ _ _ (le_n _) Hk Hsf Huf)
      as [H1 H2].
    now repeat split.
  - destruct (coeff_inv st st' atom arg Hs)
      as (a0 & a1 & a2 & a3 & rest & ilo & ihi & jlo & jhi & e & s & c &
          _ & _ & _ & _ & _ & _ & _ & _ & _ & _ & F1 & F2 & F3 & _).
    now rewrite F1, F2, F3.
  - injection Hs as <-.
    destruct (init_one_settings st atom i j) as (F1 & F2 & F3).
    cbv zeta in *. now rewrite F1, F2, F3.
Qed.

Lemma step_calibration (atom : Atom) (st st' : Pair) (o : op) :
  step numeric bounds mix_weight MPI_Allreduce_SUM atom st o = Ok st' ->
  unshifted st' = unshifted st /\ cut_coulsq st' = cut_coulsq st /\
  e_shift st' = e_shift st /\ f_shift st' = f_shift st /\ e_self st' = e_self st.
Proof.
  intros Hs. destruct o as [arg | arg | i j]; cbn [step] in Hs.
  - destruct (settings_inv st st' atom arg Hs)
      as (a0 & a1 & rest & kws & _ & _ & _ & _ & _ & _ & _ & H1 & H2 & H3 & H4 & H5 & _).
    now repeat split.
  - destruct (coeff_inv st st' atom arg Hs)
      as (a0 & a1 & a2 & a3 & rest & ilo & ihi & jlo & jhi & e & s & c &
          _ & _ & _ & _ & _ & _ & _ & _ & _ & _ & _ & _ & _ & _ & _ & _ &
          H1 & H2 & H3 & H4 & H5).
    now repeat split.
  - injection Hs as <-.
    destruct (init_one_calibration mix_weight MPI_Allreduce_SUM st atom i j)
      as (_ & H2 & H1 & _ & H4 & H3 & H5).
    now repeat split.
Qed.

(** X5.  Starting from a freshly constructed object, whatever sequence of
    [settings], [coeff] and [init_one] calls ran without error, the self
    flag is 0 or 1, [single_enable] is its negation, the variant selector is
    one of 0, 1, 2, 3, and calibration binds the kernel the selector
    names. *)
Theorem run_keeps_flags (atom : Atom) (force : Force) (base st : Pair)
  (ops : list op)
  (Hrun : run numeric bounds mix_weight MPI_Allreduce_SUM atom
            (PairLJCutCoulDSFLinear base) ops = Ok st) :
  flags_ok st /\
  flag_of (unshifted (init_parameters st force)) = unshifted_flag st.
Proof.
  assert (flags_ok st) as Hok.
  { assert (flags_ok (PairLJCutCoulDSFLinear base)) as H0.
    { unfold flags_ok. cbn. repeat split; auto; lia. }
    revert Hrun H0. generalize (PairLJCutCoulDSFLinear base) as st0.
    induction ops as [| o ops IH]; intros st0 Hrun H0; cbn [run] in Hrun.
    - now injection Hrun as <-.
    - destruct (step _ _ _ _ atom st0 o) as [st1 |] eqn:Hs; [| discriminate].
      cbn [bind] in Hrun.
      exact (IH st1 Hrun (step_flags_ok atom st0 st1 o Hs H0)). }
  split; [exact Hok |].
  destruct Hok as (_ & Huf & _).
  unfold init_parameters.
  destruct (call_unshifted _ _ _) as [v f]. cbn [unshifted].
  destruct (Z.eqb_spec (unshifted_flag st) 0) as [-> | H0]; [reflexivity |].
  destruct (Z.eqb_spec (unshifted_flag st) 1) as [-> | H1]; [reflexivity |].
  destruct (Z.eqb_spec (unshifted_flag st) 2) as [-> | H2]; [reflexivity |].
  destruct (Z.eqb_spec (unshifted_flag st) 3) as [-> | H3]; [reflexivity |].
  lia.
Qed.

(** X6.  No [settings], [coeff] or [init_one] call recalibrates: after any
    sequence of them that ran without error the bound kernel,
    [cut_coulsq], [e_shift], [f_shift] and [e_self] are those the object had
    before, whatever the calls did to [alpha], [cut_coul] and the variant
    selector. *)
Theorem run_keeps_calibration (atom : Atom) (st st' : Pair) (ops : list op)
  (Hrun : run numeric bounds mix_weight MPI_Allreduce_SUM atom st ops = Ok st') :
  unshifted st' = unshifted st /\ cut_coulsq st' = cut_coulsq st /\
  e_shift st' = e_shift st /\ f_shift st' = f_shift st /\ e_self st' = e_self st.
Proof.
  revert st Hrun. induction ops as [| o ops IH]; intros st Hrun; cbn [run] in Hrun.
  - injection Hrun as <-. now repeat split.
  - destruct (step _ _ _ _ atom st o) as [st1 |] eqn:Hs; [| discriminate].
    cbn [bind] in Hrun.
    destruct (IH st1 Hrun) as (H1 & H2 & H3 & H4 & H5).
    destruct (step_calibration atom st st1 o Hs) as (G1 & G2 & G3 & G4 & G5).
    repeat split; congruence.
Qed.

(** X7.  A [coeff] call on an object whose tables are not allocated yet
    allocates them, and when it succeeds it had four or five arguments and
    every pair [1 <= i <= j <= n] has a defined flag: 1 when the two
    resolved ranges cover the pair, 0 otherwise, whatever the fresh storage
    held. *)
Theorem coeff_fresh_flags (st st' : Pair) (atom : Atom) (arg : list string)
  (Hfresh : allocated st = 0%Z)
  (Hcoeff : coeff numeric bounds st atom arg = Ok st') :
  allocated st' = 1%Z /\
  (4 <= List.length arg <= 5)%nat /\
  exists ilo ihi jlo jhi,
    bounds (nth 0 arg ""%string) (ntypes atom) = Ok (ilo, ihi) /\
    bounds (nth 1 arg ""%string) (ntypes atom) = Ok (jlo, jhi) /\
    forall i j, (1 <= i <= j)%Z -> (j <= ntypes atom)%Z ->
      setflag st' i j = (if covered ilo ihi jlo jhi i j then 1 else 0)%Z.
Proof.
  destruct (coeff_inv st st' atom arg Hcoeff)
    as (a0 & a1 & a2 & a3 & rest & ilo & ihi & jlo & jhi & e & s & c &
        -> & Hlen & Hb0 & Hb1 & _ & _ & _ & _ & Hcells & Hal & _).
  rewrite Hfresh in Hcells, Hal. cbn [Z.eqb] in Hcells, Hal.
  split; [exact Hal |].
  split; [cbn [List.length]; lia |].
  exists ilo, ihi, jlo, jhi. cbn [nth].
  split; [exact Hb0 |]. split; [exact Hb1 |].
  intros i j Hij Hjn.
  destruct (Hcells i j) as (-> & _).
  destruct (covered ilo ihi jlo jhi i j); [reflexivity |].
  rewrite allocate_setflag.
  replace (1 <=? i)%Z with true by (symmetry; apply Z.leb_le; lia).
  replace (i <=? j)%Z with true by (symmetry; apply Z.leb_le; lia).
  replace (j <=? ntypes atom)%Z with true by (symmetry; apply Z.leb_le; lia).
  reflexivity.
Qed.

(** X8.  A successful [settings] call takes the Lennard-Jones cutoff from
    its second argument.  With two arguments, the Coulomb cutoff is the
    Lennard-Jones cutoff and the self flag and the variant selector keep the
    values they had; with a keyword in third place the Coulomb cutoff is
    the Lennard-Jones cutoff too; otherwise it is the third argument. *)
Theorem settings_defaults (st st' : Pair) (atom : Atom) (a0 a1 : string)
  (rest : list string)
  (Hset : settings numeric st atom (a0 :: a1 :: rest) = Ok st') :
  numeric a1 = Ok (cut_lj_global st') /\
  match rest with
  | [] =>
      cut_coul st' = cut_lj_global st' /\
      self_flag st' = self_flag st /\ unshifted_flag st' = unshifted_flag st
  | a2 :: _ =>
      if ((a2 =? "self") || (a2 =? "damp"))%string
      then cut_coul st' = cut_lj_global st'
      else numeric a2 = Ok (cut_coul st')
  end.
Proof.
  destruct (settings_inv st st' atom _ Hset)
    as (b0 & b1 & rest' & kws & Harg & _ & Hg & Hcc & Hk & _).
  injection Harg as <- <- <-.
  split; [exact Hg |].
  destruct rest as [| a2 rest].
  - destruct Hcc as [Hcc ->]. cbn in Hk. injection Hk as <- <-. now repeat split.
  - destruct ((a2 =? "self") || (a2 =? "damp"))%string; now destruct Hcc.
Qed.

End ConfigurationMore.

Lemma run_keeps_flags_witness :
  run sample_numeric sample_bounds sample_mix_weight sample_Allreduce atom2
    (PairLJCutCoulDSFLinear raw0) sample_ops = Ok sample_final /\
  flags_ok sample_final /\
  flag_of (unshifted (init_parameters sample_final force1)) =
    unshifted_flag sample_final.
Proof.
  split; [exact sample_run_ok |].
  exact (run_keeps_flags sample_numeric sample_bounds sample_mix_weight
           sample_Allreduce atom2 force1 raw0 sample_final sample_ops
           sample_run_ok).
Defined.

Lemma run_keeps_calibration_witness :
  run sample_numeric sample_bounds sample_mix_weight sample_Allreduce atom2
    pair0 sample_ops = Ok sample_final /\
  unshifted sample_final = unshifted pair0 /\
  cut_coulsq sample_final = cut_coulsq pair0 /\
  e_shift sample_final = e_shift pair0 /\ f_shift sample_final = f_shift pair0 /\
  e_self sample_final = e_self pair0.
Proof.
  split; [exact sample_run_ok |].
  exact (run_keeps_calibration sample_numeric sample_bounds sample_mix_weight
           sample_Allreduce atom2 pair0 sample_final sample_ops sample_run_ok).
Defined.

(** In the sample run the Coulomb cutoff becomes 2.5 while [cut_coulsq]
    stays at the 0 the storage held: the calibration is stale until
    [init_parameters] runs. *)
Example calibration_stale_sample :
  cut_coul sample_final = 2.5 /\ cut_coulsq sample_final = 0 /\
  cut_coulsq (init_parameters sample_final force1) = 6.25.
Proof.
  eval_model. repeat split; lra.
Qed.

(** ** The neighbour loops of [compute] *)

Lemma NoDup_Zrange (lo hi : Z) : NoDup (Zrange lo hi).
Proof.
  remember (Z.to_nat (hi - lo + 1)) as n eqn:Hn.
  revert lo Hn. induction n as [| n IH]; intros lo Hn.
  - rewrite Zrange_nil by lia. constructor.
  - rewrite Zrange_cons by lia. constructor.
    + rewrite In_Zrange. lia.
    + apply IH. lia.
Qed.

Lemma sum_aset (l : list Z) (f : array2 R) (i c' c : Z) (x : R) :
  NoDup l ->
  fold_right (fun k acc => aset f i c' x k c + acc) 0 l =
  fold_right (fun k acc => f k c + acc) 0 l
  + (if (existsb (Z.eqb i) l && (c =? c')%Z)%bool then x - f i c' else 0).
Proof.
  induction l as [| a l IH]; intros Hnd; cbn [fold_right existsb].
  - cbn. ring.
  - inversion Hnd as [| ? ? Hnotin Hnd']; subst.
    rewrite (IH Hnd'). unfold aset at 1.
    destruct (Z.eqb_spec a i) as [-> | Hai].
    + rewrite Z.eqb_refl. cbn [orb andb].
      assert (existsb (Z.eqb i) l = false) as ->.
      { apply not_true_is_false. intros He. apply existsb_exists in He.
        destruct He as (y & Hy & Hiy). apply Z.eqb_eq in Hiy. now subst. }
      cbn [andb].
      destruct (Z.eqb_spec c c') as [-> | Hc]; ring.
    + replace (i =? a)%Z with false by (symmetry; apply Z.eqb_neq; congruence).
      cbn [orb andb]. ring.
Qed.

Lemma total_force_aset (f : array2 R) (n i c' c : Z) (x : R) :
  (0 <= i < n)%Z ->
  total_force (aset f i c' x) n c =
  total_force f n c + (if (c =? c')%Z then x - f i c' else 0).
Proof.
  intros Hi. unfold total_force.
  rewrite (sum_aset _ f i c' c x (NoDup_Zrange 0 (n - 1))), existsb_Zrange.
  replace ((0 <=? i) && (i <=? n - 1))%Z with true; [reflexivity |].
  symmetry. apply andb_true_iff. split; apply Z.leb_le; lia.
Qed.

Section ComputeMore.

Variable sbmask : Z -> Z.
Variable NEIGHMASK : Z.
Variable ev_setup : Z -> Z -> Z * Z.

Lemma compute_pair_total (st : Pair) (atom : Atom) (force : Force)
  (eflag evflag i jraw n c : Z) (v : compute_vars) :
  (0 <= i < n)%Z -> (0 <= Z.land jraw NEIGHMASK < n)%Z ->
  newton_pair force <> 0%Z \/ (n <= nlocal atom)%Z ->
  total_force (c_f (compute_pair sbmask NEIGHMASK st atom force eflag evflag
                      i jraw v)) n c =
  total_force (c_f v) n c.
Proof.
  intros Hi Hj Hnewton. unfold compute_pair. cbv zeta.
  destruct (Rlt_dec _ _); [| reflexivity].
  destruct (call_unshifted _ _ _) as [vr fr]. cbn [c_f].
  assert ((negb (newton_pair force =? 0)%Z
           || (Z.land jraw NEIGHMASK <? nlocal atom)%Z)%bool = true) as ->.
  { destruct Hnewton as [H | H].
    - apply Z.eqb_neq in H. now rewrite H.
    - apply orb_true_iff. right. apply Z.ltb_lt. lia. }
  rewrite !total_force_aset by assumption.
  destruct (Z.eqb_spec c 0) as [-> | ?]; [cbn [Z.eqb]; ring |].
  destruct (Z.eqb_spec c 1) as [-> | ?]; [cbn [Z.eqb Pos.eqb]; ring |].
  destruct (Z.eqb_spec c 2) as [-> | ?]; [cbn [Z.eqb Pos.eqb]; ring |].
  ring.
Qed.

Lemma compute_pair_increment (st : Pair) (atom : Atom) (force : Force)
  (eflag evflag i jraw k c : Z) (v w : compute_vars) :
  c_f (compute_pair sbmask NEIGHMASK st atom force eflag evflag i jraw v) k c
  - c_f v k c =
  c_f (compute_pair sbmask NEIGHMASK st atom force eflag evflag i jraw w) k c
  - c_f w k c.
Proof.
  unfold compute_pair. cbv zeta.
  destruct (Rlt_dec _ _); [| ring].
  destruct (call_unshifted _ _ _) as [vr fr]. cbn [c_f].
  set (j := Z.land jraw NEIGHMASK).
  clearbody j.
  match goal with
  | |- context [aset (c_f v) i 0%Z (c_f v i 0%Z + ?dx * ?fp)] =>
      generalize fp as fpair; intros fpair
  end.
  destruct (negb (newton_pair force =? 0)%Z || (j <? nlocal atom)%Z)%bool;
    unfold aset; rewrite ?Z.eqb_refl; cbn [Z.eqb Pos.eqb andb];
    rewrite ?andb_false_r, ?andb_true_r;
    destruct (k =? i)%Z eqn:Eki, (k =? j)%Z eqn:Ekj, (j =? i)%Z eqn:Eji,
      (c =? 0)%Z eqn:Ec0, (c =? 1)%Z eqn:Ec1, (c =? 2)%Z eqn:Ec2;
    cbn [andb];
    repeat match goal with
           | H : (_ =? _)%Z = true |- _ => apply Z.eqb_eq in H
           | H : (_ =? _)%Z = false |- _ => apply Z.eqb_neq in H
           end;
    first [ exfalso; lia | subst; ring ].
Qed.

Lemma compute_loops_total (st : Pair) (atom : Atom) (force : Force)
  (eflag evflag n c : Z) (firstneigh0 : Z -> list Z) (il : list Z)
  (v : compute_vars) :
  (forall i, In i il -> (0 <= i < n)%Z) ->
  (forall i jraw, In i il -> In jraw (firstneigh0 i) ->
     (0 <= Z.land jraw NEIGHMASK < n)%Z) ->
  newton_pair force <> 0%Z \/ (n <= nlocal atom)%Z ->
  total_force (c_f (fold_left (fun v i =>
                      fold_left (fun v jraw =>
                        compute_pair sbmask NEIGHMASK st atom force eflag evflag
                          i jraw v) (firstneigh0 i) v) il v)) n c =
  total_force (c_f v) n c.
Proof.
  intros Hi Hj Hnewton. revert v.
  induction il as [| i il IH]; intros v; cbn [fold_left]; [reflexivity |].
  rewrite IH.
  - assert (forall jl w, (forall jraw, In jraw jl ->
                           (0 <= Z.land jraw NEIGHMASK < n)%Z) ->
              total_force (c_f (fold_left (fun v jraw =>
                compute_pair sbmask NEIGHMASK st atom force eflag evflag i jraw v)
                jl w)) n c = total_force (c_f w) n c) as Hinner.
    { induction jl as [| jraw jl IHj]; intros w Hjl; cbn [fold_left]; [reflexivity |].
      rewrite IHj by (intros; apply Hjl; now right).
      apply compute_pair_total; [apply Hi; now left | apply Hjl; now left | exact Hnewton]. }
    apply Hinner. intros jraw Hin. apply (Hj i); [now left | exact Hin].
  - intros i' Hi'. apply Hi. now right.
  - intros i' jraw Hi' Hjr. apply (Hj i'); [now right | exact Hjr].
Qed.

Lemma compute_loops_increment (st : Pair) (atom : Atom) (force : Force)
  (eflag evflag k c : Z) (firstneigh0 : Z -> list Z) (il : list Z)
  (v w : compute_vars) :
  c_f (fold_left (fun v i =>
         fold_left (fun v jraw =>
           compute_pair sbmask NEIGHMASK st atom force eflag evflag i jraw v)
           (firstneigh0 i) v) il v) k c - c_f v k c =
  c_f (fold_left (fun v i =>
         fold_left (fun v jraw =>
           compute_pair sbmask NEIGHMASK st atom force eflag evflag i jraw v)
           (firstneigh0 i) v) il w) k c - c_f w k c.
Proof.
  revert v w. induction il as [| i il IH]; intros v w; cbn [fold_left]; [ring |].
  assert (forall jl v w,
             c_f (fold_left (fun v jraw =>
               compute_pair sbmask NEIGHMASK st atom force eflag evflag i jraw v)
               jl v) k c - c_f v k c =
             c_f (fold_left (fun v jraw =>
               compute_pair sbmask NEIGHMASK st atom force eflag evflag i jraw v)
               jl w) k c - c_f w k c) as Hinner.
  { induction jl as [| jraw jl IHj]; intros v0 w0; cbn [fold_left]; [ring |].
    pose proof (IHj (compute_pair sbmask NEIGHMASK st atom force eflag evflag i jraw v0)
                    (compute_pair sbmask NEIGHMASK st atom force eflag evflag i jraw w0))
      as H1.
    pose proof (compute_pair_increment st atom force eflag evflag i jraw k c v0 w0)
      as H2.
    lra. }
  pose proof (IH (fold_left (fun v jraw =>
                    compute_pair sbmask NEIGHMASK st atom force eflag evflag i jraw v)
                    (firstneigh0 i) v)
                 (fold_left (fun v jraw =>
                    compute_pair sbmask NEIGHMASK st atom force eflag evflag i jraw v)
                    (firstneigh0 i) w)) as H1.
  pose proof (Hinner (firstneigh0 i) v w) as H2.
  lra.
Qed.

Lemma compute_loops_silent (st : Pair) (atom : Atom) (force : Force)
  (eflag : Z) (firstneigh0 : Z -> list Z) (il : list Z) (v : compute_vars) :
  c_log (fold_left (fun v i =>
           fold_left (fun v jraw =>
             compute_pair sbmask NEIGHMASK st atom force eflag 0 i jraw v)
             (firstneigh0 i) v) il v) = c_log v.
Proof.
  revert v. induction il as [| i il IH]; intros v; cbn [fold_left]; [reflexivity |].
  rewrite IH.
  induction (firstneigh0 i) as [| jraw jl IHj] in v |- *; cbn [fold_left];
    [reflexivity |].
  rewrite IHj. unfold compute_pair. cbv zeta.
  destruct (Rlt_dec _ _); [| reflexivity].
  now destruct (call_unshifted _ _ _).
Qed.

(** X9.  When the reaction is applied to every neighbour ([newton_pair]
    set, or all the particles [0 .. n-1] local) and the neighbour list names
    particles among [0 .. n-1], [compute] leaves the sum of the forces on
    these particles unchanged, in each of the three components: what it adds
    to one particle of a pair it takes from the other. *)
Theorem compute_conserves_total_force (st : Pair) (atom : Atom) (force : Force)
  (neigh : NeighList) (eflag vflag n c : Z)
  (Hnewton : newton_pair force <> 0%Z \/ (n <= nlocal atom)%Z)
  (Hrange : neigh_in_range NEIGHMASK neigh n) :
  total_force
    (fst (fst (compute sbmask NEIGHMASK ev_setup st atom force neigh eflag vflag)))
    n c =
  total_force (atom_f atom) n c.
Proof.
  destruct Hrange as [Hi Hj]. unfold compute.
  destruct (if (negb (eflag =? 0)%Z || negb (vflag =? 0)%Z)%bool
            then ev_setup eflag vflag else (0%Z, 0%Z)) as [evflag vflag_fdotr].
  cbn [fst].
  now rewrite compute_loops_total.
Qed.

(** X10.  [compute] accumulates: what it adds to a component of the force
    on a particle depends on the positions, charges, types and the
    neighbour list, and not on what the force array held before. *)
Theorem compute_forces_additive (st : Pair) (atom : Atom) (force : Force)
  (neigh : NeighList) (eflag vflag k c : Z) (f' : array2 R) :
  let atom' :=
    {| ntypes := ntypes atom; nlocal := nlocal atom; q_flag := q_flag atom;
       atom_q := atom_q atom; atom_type := atom_type atom;
       atom_x := atom_x atom; atom_f := f' |} in
  fst (fst (compute sbmask NEIGHMASK ev_setup st atom force neigh eflag vflag)) k c
  - atom_f atom k c =
  fst (fst (compute sbmask NEIGHMASK ev_setup st atom' force neigh eflag vflag)) k c
  - f' k c.
Proof.
  cbv zeta. unfold compute.
  destruct (if (negb (eflag =? 0)%Z || negb (vflag =? 0)%Z)%bool
            then ev_setup eflag vflag else (0%Z, 0%Z)) as [evflag vflag_fdotr].
  cbn [fst atom_f].
  exact (compute_loops_increment st atom force eflag evflag k c
           (firstneigh neigh) (ilist neigh) _ _).
Qed.

(** X11.  With neither energy nor virial asked for, [compute] calls
    [ev_tally] not once, whatever the neighbour list holds, and leaves
    [vflag_fdotr] at 0. *)
Theorem compute_silent (st : Pair) (atom : Atom) (force : Force)
  (neigh : NeighList) :
  snd (fst (compute sbmask NEIGHMASK ev_setup st atom force neigh 0 0)) = [] /\
  snd (compute sbmask NEIGHMASK ev_setup st atom force neigh 0 0) = 0%Z.
Proof.
  unfold compute. cbn [Z.eqb negb orb andb fst snd].
  split; [| reflexivity].
  apply compute_loops_silent.
Qed.

(** X12.  For a neighbour inside the cutoff of its type pair, with tallies
    and energies asked for, the inner loop of [compute] makes one call of
    [ev_tally], for the particle and its neighbour, whose force factor is
    the one [single] computes for the pair and whose two energies add up to
    the energy [single] returns. *)
Theorem neighbour_pair_as_single (st : Pair) (atom : Atom) (force : Force)
  (eflag evflag i jraw : Z) (v : compute_vars)
  (Hcut :
     (atom_x atom i 0%Z - atom_x atom (Z.land jraw NEIGHMASK) 0%Z) *
     (atom_x atom i 0%Z - atom_x atom (Z.land jraw NEIGHMASK) 0%Z) +
     (atom_x atom i 1%Z - atom_x atom (Z.land jraw NEIGHMASK) 1%Z) *
     (atom_x atom i 1%Z - atom_x atom (Z.land jraw NEIGHMASK) 1%Z) +
     (atom_x atom i 2%Z - atom_x atom (Z.land jraw NEIGHMASK) 2%Z) *
     (atom_x atom i 2%Z - atom_x atom (Z.land jraw NEIGHMASK) 2%Z) <
     cutsq st (atom_type atom i) (atom_type atom (Z.land jraw NEIGHMASK)))
  (He : eflag <> 0%Z) (Hev : evflag <> 0%Z) :
  let j := Z.land jraw NEIGHMASK in
  let delx := atom_x atom i 0%Z - atom_x atom j 0%Z in
  let dely := atom_x atom i 1%Z - atom_x atom j 1%Z in
  let delz := atom_x atom i 2%Z - atom_x atom j 2%Z in
  let rsq := delx * delx + dely * dely + delz * delz in
  let res :=
    single st atom force i j (atom_type atom i) (atom_type atom j) rsq
      (special_coul force (sbmask jraw)) (special_lj force (sbmask jraw)) in
  exists t,
    c_log (compute_pair sbmask NEIGHMASK st atom force eflag evflag i jraw v) =
      c_log v ++ [t] /\
    t_i t = i /\ t_j t = j /\
    t_fpair t = snd res /\
    t_evdwl t + t_ecoul t = fst res.
Proof.
  cbv zeta.
  destruct (compute_pair_single sbmask NEIGHMASK st atom force eflag evflag
              i jraw v Hcut He Hev) as (t & Hlog & Hti & Htj & Hf & Hen).
  exists t. repeat split; assumption.
Qed.

End ComputeMore.

(** ** Forces and energies of one pair *)

Lemma dlim_minus (f g : R -> R) (x lf lg : R) :
  derivable_pt_lim f x lf -> derivable_pt_lim g x lg ->
  derivable_pt_lim (fun y => f y - g y) x (lf - lg).
Proof. exact (derivable_pt_lim_minus f g x lf lg). Qed.

(** Near a separation [r] whose square is not the bound [c], the square of
    the separation stays on the same side of [c]. *)
Lemma square_side_locally (r c : R) :
  0 < r -> r * r <> c ->
  exists delta,
    0 < delta /\ delta <= r /\
    forall z, r - delta < z < r + delta -> (z * z < c <-> r * r < c).
Proof.
  intros Hr Hne.
  set (m := Rabs (r * r - c)).
  assert (0 < m) as Hm by (apply Rabs_pos_lt; lra).
  assert (0 < 2 * r + 1) as H2r by lra.
  set (delta := Rmin r (Rmin 1 (m / (2 * r + 1)))).
  assert (delta <= r) as D1 by apply Rmin_l.
  assert (delta <= 1) as D2.
  { apply Rle_trans with (Rmin 1 (m / (2 * r + 1))); [apply Rmin_r | apply Rmin_l]. }
  assert (delta <= m / (2 * r + 1)) as D3.
  { apply Rle_trans with (Rmin 1 (m / (2 * r + 1))); apply Rmin_r. }
  assert (0 < delta) as D0.
  { unfold delta. repeat apply Rmin_glb_lt; try lra.
    now apply Rdiv_lt_0_compat. }
  assert (delta * (2 * r + 1) <= m) as D4.
  { apply Rmult_le_compat_r with (r := 2 * r + 1) in D3; [| lra].
    replace (m / (2 * r + 1) * (2 * r + 1)) with m in D3 by (field; lra).
    exact D3. }
  exists delta. split; [exact D0 |]. split; [exact D1 |].
  intros z [Hz1 Hz2].
  assert (- (delta * (2 * r + 1)) < z * z - r * r < delta * (2 * r + 1)) as Hsq.
  { replace (z * z - r * r) with ((z - r) * (2 * r + (z - r))) by ring.
    split; nra. }
  unfold m in D4. unfold Rabs in D4.
  destruct (Rcase_abs (r * r - c)); split; intros; lra.
Qed.

Lemma lj_energy_derivative (fl l3 l4 off r : R) :
  0 < r ->
  derivable_pt_lim
    (fun y =>
       fl * (1 / (y * y) * (1 / (y * y)) * (1 / (y * y))) *
       (l3 * (1 / (y * y) * (1 / (y * y)) * (1 / (y * y))) - l4) - off) r
    (- (r * (fl * (1 / (r * r) * (1 / (r * r)) * (1 / (r * r))) *
             (12 * l3 * (1 / (r * r) * (1 / (r * r)) * (1 / (r * r))) - 6 * l4) *
             (1 / (r * r))))).
Proof.
  intros Hr.
  assert (r * r <> 0) as Hrr by nra.
  eapply dlim_val.
  - eapply (dlim_minus
              (fun y => fl * (1 / (y * y) * (1 / (y * y)) * (1 / (y * y))) *
                        (l3 * (1 / (y * y) * (1 / (y * y)) * (1 / (y * y))) - l4))
              (fun _ => off)); [| apply dlim_const].
    eapply (dlim_mult
              (fun y => fl * (1 / (y * y) * (1 / (y * y)) * (1 / (y * y))))
              (fun y => l3 * (1 / (y * y) * (1 / (y * y)) * (1 / (y * y))) - l4)).
    + dlim; exact Hrr.
    + eapply (dlim_minus
                (fun y => l3 * (1 / (y * y) * (1 / (y * y)) * (1 / (y * y))))
                (fun _ => l4)); [| apply dlim_const].
      dlim; exact Hrr.
  - cbv beta. unfold Rsqr. field. lra.
Qed.

Lemma coulomb_energy_derivative (d : damping) (a pre fs es r : R) :
  0 < r -> d <> DampErfc ->
  derivable_pt_lim (fun y => pre * (v_of d a y + y * fs - es)) r
    (- (pre * (f_of d a r - fs))).
Proof.
  intros Hr Hd.
  assert (derivable_pt_lim (v_of d a) r (- f_of d a r)) as HV.
  { destruct d; [ now apply unshifted_none_derivative
                | now apply unshifted_debye_derivative
                | now apply unshifted_gauss_derivative
                | contradiction ]. }
  eapply dlim_val.
  - eapply (dlim_mult (fun _ => pre) (fun y => v_of d a y + y * fs - es));
      [apply dlim_const |].
    eapply (dlim_minus (fun y => v_of d a y + y * fs) (fun _ => es));
      [| apply dlim_const].
    eapply (dlim_plus (v_of d a) (fun y => y * fs)); [exact HV |].
    dlim.
  - cbv beta. ring.
Qed.

(** X13.  The force factor of [single] is the one its energy calls for.
    For a pair whose force coefficients are 12 and 6 times the energy
    coefficients (as [init_one] leaves them), with one of the three kernels
    other than erfc bound, and at a separation [r > 0] whose square is not
    one of the two squared cutoffs, the energy [single] returns, as a
    function of the separation, has the derivative [- r * fforce]: the
    force along the separation is minus the gradient of the energy. *)
Theorem single_force_is_minus_gradient (st : Pair) (atom : Atom) (force : Force)
  (i j itype jtype : Z) (factor_coul factor_lj r : R)
  (Hr : 0 < r)
  (Hlj : r * r <> cut_ljsq st itype jtype)
  (Hcoul : r * r <> cut_coulsq st)
  (Hratio : lj1 st itype jtype = 12 * lj3 st itype jtype /\
            lj2 st itype jtype = 6 * lj4 st itype jtype)
  (Hkernel : unshifted st <> DampErfc) :
  derivable_pt_lim
    (fun y => fst (single st atom force i j itype jtype (y * y) factor_coul factor_lj))
    r
    (- (r * snd (single st atom force i j itype jtype (r * r) factor_coul factor_lj))).
Proof.
  destruct Hratio as [H1 H2].
  destruct (square_side_locally r _ Hr Hlj) as (d1 & Hd1 & Hd1r & Hside1).
  destruct (square_side_locally r _ Hr Hcoul) as (d2 & Hd2 & Hd2r & Hside2).
  set (delta := Rmin d1 d2).
  assert (0 < delta) as Hdelta by (unfold delta; now apply Rmin_glb_lt).
  assert (delta <= d1) as Hle1 by apply Rmin_l.
  assert (delta <= d2) as Hle2 by apply Rmin_r.
  set (pre := factor_coul * qqrd2e force * atom_q atom i * atom_q atom j).
  set (g := fun y =>
    (if Rlt_dec (r * r) (cut_ljsq st itype jtype)
     then factor_lj * (1 / (y * y) * (1 / (y * y)) * (1 / (y * y))) *
          (lj3 st itype jtype * (1 / (y * y) * (1 / (y * y)) * (1 / (y * y)))
           - lj4 st itype jtype) - offset st itype jtype
     else 0)
    + (if Rlt_dec (r * r) (cut_coulsq st)
       then pre * (v_of (unshifted st) (alpha st) y + y * f_shift st - e_shift st)
       else 0)).
  apply (derivable_pt_lim_locally_ext g _ r (r - delta) (r + delta)); [lra | |].
  - intros z [Hz1 Hz2].
    assert (0 <= z) as Hz0 by lra.
    pose proof (Hside1 z ltac:(lra)) as S1.
    pose proof (Hside2 z ltac:(lra)) as S2.
    unfold g, single, v_of. cbv zeta.
    rewrite (sqrt_square z Hz0).
    destruct (call_unshifted (unshifted st) (alpha st) z) as [vr fr]. cbn [fst].
    fold pre.
    destruct (Rlt_dec (r * r) (cut_ljsq st itype jtype)),
             (Rlt_dec (z * z) (cut_ljsq st itype jtype)),
             (Rlt_dec (r * r) (cut_coulsq st)),
             (Rlt_dec (z * z) (cut_coulsq st));
      try tauto; ring.
  - unfold g, single, f_of. cbv zeta.
    rewrite (sqrt_square r (Rlt_le _ _ Hr)).
    pose proof (coulomb_energy_derivative (unshifted st) (alpha st) pre
                  (f_shift st) (e_shift st) r Hr Hkernel) as HC.
    pose proof (lj_energy_derivative factor_lj (lj3 st itype jtype)
                  (lj4 st itype jtype) (offset st itype jtype) r Hr) as HL.
    unfold f_of in HC.
    destruct (call_unshifted (unshifted st) (alpha st) r) as [vr fr]. cbn [snd] in *.
    fold pre. rewrite H1, H2.
    assert (r <> 0) as Hr0 by lra.
    destruct (Rlt_dec (r * r) (cut_ljsq st itype jtype)),
             (Rlt_dec (r * r) (cut_coulsq st)).
    + eapply dlim_val; [eapply dlim_plus; [exact HL | exact HC] |]. field. exact Hr0.
    + eapply dlim_val; [eapply dlim_plus; [exact HL | apply dlim_const] |].
      field. exact Hr0.
    + eapply dlim_val; [eapply dlim_plus; [apply dlim_const | exact HC] |].
      field. exact Hr0.
    + eapply dlim_val; [eapply dlim_plus; apply dlim_const |]. field. exact Hr0.
Qed.

Section PairMore.

Variable mix_weight : Z -> R -> R -> R.
Variable MPI_Allreduce_SUM : R * R -> R * R.

(** X14.  With the offset enabled, the Lennard-Jones energy of a finalized
    pair vanishes at its cutoff: at [rsq = cut_ljsq], and full scale
    factor, the energy expression of [single] and [compute] is zero, for a
    cutoff that is not zero. *)
Theorem lj_energy_zero_at_cutoff (st : Pair) (atom : Atom) (i j : Z)
  (Hoff : offset_flag st <> 0%Z)
  (Hrc : cut_lj (snd (init_one mix_weight MPI_Allreduce_SUM st atom i j)) i j <> 0) :
  let st' := snd (init_one mix_weight MPI_Allreduce_SUM st atom i j) in
  let rsq := cut_ljsq st' i j in
  let r2inv := 1 / rsq in
  let r6inv := r2inv * r2inv * r2inv in
  1 * r6inv * (lj3 st' i j * r6inv - lj4 st' i j) - offset st' i j = 0.
Proof.
  apply Z.eqb_neq in Hoff. revert Hrc. cbv zeta. unfold init_one. cbv zeta.
  destruct (if (tail_flag st =? 0)%Z then _ else _) as [et pt].
  cbn [snd cut_lj cut_ljsq lj3 lj4 offset]. rewrite Hoff.
  rewrite !aset_twice_ij. unfold c_pow.
  set (rc := (if (setflag st i j =? 0)%Z then _ else cut_lj st) i j).
  set (ep := (if (setflag st i j =? 0)%Z then _ else epsilon st) i j).
  set (sg := (if (setflag st i j =? 0)%Z then _ else sigma st) i j).
  intros Hrc. field. exact Hrc.
Qed.

End PairMore.

(** X15.  The scale factor does not scale the offset: with both scale
    factors 0 (an excluded pair) [single] returns no force, and an energy
    of minus the offset of the type pair inside the Lennard-Jones cutoff, 0
    outside. *)
Theorem single_excluded_pair (st : Pair) (atom : Atom) (force : Force)
  (i j itype jtype : Z) (rsq : R) :
  single st atom force i j itype jtype rsq 0 0 =
  (if Rlt_dec rsq (cut_ljsq st itype jtype) then - offset st itype jtype else 0, 0).
Proof.
  unfold single. cbv zeta.
  destruct (call_unshifted _ _ _) as [vr fr].
  destruct (Rlt_dec rsq (cut_ljsq st itype jtype)), (Rlt_dec rsq (cut_coulsq st));
    f_equal; ring.
Qed.


(** X17.  Without damping the shifted terms have closed forms: after
    calibration with cutoff [rc > 0], at a separation [r > 0] the shifted
    force value is [(rc^2 - r^2) / (r^2 rc^2)] and the shifted potential is
    [(rc - r)^2 / (r rc^2)], which is never negative. *)
Theorem undamped_shifted_terms (st : Pair) (force : Force) (r : R)
  (Hflag : unshifted_flag st = 0%Z)
  (Hrc : 0 < cut_coul st) (Hr : 0 < r) :
  let st' := init_parameters st force in
  let rc := cut_coul st in
  let v := v_of (unshifted st') (alpha st') r in
  let f := f_of (unshifted st') (alpha st') r in
  f - f_shift st' = (rc ^ 2 - r ^ 2) / (r ^ 2 * rc ^ 2) /\
  v + r * f_shift st' - e_shift st' = (rc - r) ^ 2 / (r * rc ^ 2) /\
  0 <= v + r * f_shift st' - e_shift st'.
Proof.
  cbv zeta.
  destruct (init_parameters_shifts st force) as (Ha & _ & _ & Hf & He).
  rewrite (init_parameters_unshifted st force DampNone Hflag) in *.
  rewrite He, Hf. unfold v_of, f_of. cbn [call_unshifted unshifted_none fst snd].
  assert (1 / r + r * (1 / cut_coul st * (1 / cut_coul st))
          - (1 / cut_coul st + 1 / cut_coul st * (1 / cut_coul st) * cut_coul st) =
          (cut_coul st - r) ^ 2 / (r * cut_coul st ^ 2)) as Hv by (field; lra).
  split; [field; lra |]. split; [exact Hv |].
  rewrite Hv. apply Rmult_le_pos; [apply pow2_ge_0 |].
  apply Rlt_le, Rinv_0_lt_compat. apply Rmult_lt_0_compat; [lra |].
  apply pow_lt. lra.
Qed.

(** X18.  At [alpha = 0] the Debye and the Gaussian kernel are the kernel
    without damping, and the erfc kernel is 0.999999999 times it: the five
    coefficients of its polynomial do not add up to 1. *)
Theorem kernels_at_alpha_zero (r : R) :
  unshifted_debye 0 r = unshifted_none r /\
  unshifted_gauss 0 r = unshifted_none r /\
  unshifted_erfc 0 r = (0.999999999 * fst (unshifted_none r),
                        0.999999999 * snd (unshifted_none r)).
Proof.
  unfold unshifted_debye, unshifted_gauss, unshifted_erfc, unshifted_none.
  cbv zeta. cbn [fst snd].
  replace (0 * r) with 0 by ring.
  replace (0 * 0) with 0 by ring.
  replace (- 0 * 0) with 0 by ring.
  rewrite Ropp_0, exp_0.
  replace (1 / (1 + EWALD_P * 0)) with 1 by (field; lra).
  split; [f_equal; ring |]. split; [f_equal; ring |].
  unfold A1, A2, A3, A4, A5, Rdiv. f_equal; lra.
Qed.

(** ** The tail correction *)

Lemma count_types_fold (atom : Atom) (i j : Z) (l : list Z) (c : R * R) :
  fold_left (fun c k =>
    (if (atom_type atom k =? i)%Z then fst c + 1 else fst c,
     if (atom_type atom k =? j)%Z then snd c + 1 else snd c)) l c =
  (fst c + INR (List.length (filter (fun k => (atom_type atom k =? i)%Z) l)),
   snd c + INR (List.length (filter (fun k => (atom_type atom k =? j)%Z) l))).
Proof.
  revert c. induction l as [| k l IH]; intros [c0 c1]; cbn [fold_left filter].
  - cbn. f_equal; ring.
  - rewrite IH. cbn [fst snd].
    destruct (atom_type atom k =? i)%Z, (atom_type atom k =? j)%Z;
      cbn [List.length]; rewrite ?S_INR; f_equal; ring.
Qed.

Section TailMore.

Variable mix_weight : Z -> R -> R -> R.
Variable MPI_Allreduce_SUM : R * R -> R * R.

(** X19.  With the tail correction enabled, [init_one i j] hands to the
    reduction over the partitions the numbers of local particles of type
    [i] and of type [j], and with the two sums [N_i], [N_j] it gets back
    sets the energy tail to
    [8 PI N_i N_j eps sigma^6 (sigma^6 - 3 rc^6) / (9 rc^9)] and the
    pressure tail to
    [16 PI N_i N_j eps sigma^6 (2 sigma^6 - 3 rc^6) / (9 rc^9)], with the
    epsilon, sigma and cutoff of the finalized pair; with the correction
    disabled it leaves both as they were. *)
Theorem tail_correction_spec (st : Pair) (atom : Atom) (i j : Z) :
  let st' := snd (init_one mix_weight MPI_Allreduce_SUM st atom i j) in
  let locals := Zrange 0 (nlocal atom - 1) in
  let ni := INR (List.length (filter (fun k => (atom_type atom k =? i)%Z) locals)) in
  let nj := INR (List.length (filter (fun k => (atom_type atom k =? j)%Z) locals)) in
  let N := MPI_Allreduce_SUM (ni, nj) in
  let eps := epsilon st' i j in
  let sig := sigma st' i j in
  let rc := cut_lj st' i j in
  count_types atom i j = (ni, nj) /\
  if (tail_flag st =? 0)%Z then
    etail_ij st' = etail_ij st /\ ptail_ij st' = ptail_ij st
  else
    etail_ij st' =
      8 * PI * fst N * snd N * eps * sig ^ 6 * (sig ^ 6 - 3 * rc ^ 6) / (9 * rc ^ 9) /\
    ptail_ij st' =
      16 * PI * fst N * snd N * eps * sig ^ 6 * (2 * sig ^ 6 - 3 * rc ^ 6) / (9 * rc ^ 9).
Proof.
  cbv zeta.
  assert (count_types atom i j =
          (INR (List.length (filter (fun k => (atom_type atom k =? i)%Z)
                               (Zrange 0 (nlocal atom - 1)))),
           INR (List.length (filter (fun k => (atom_type atom k =? j)%Z)
                               (Zrange 0 (nlocal atom - 1)))))) as Hcount.
  { unfold count_types, for_range. rewrite count_types_fold. cbn [fst snd].
    f_equal; ring. }
  split; [exact Hcount |].
  unfold init_one. cbv zeta. rewrite Hcount.
  destruct (tail_flag st =? 0)%Z; cbn [snd etail_ij ptail_ij epsilon sigma cut_lj].
  - split; reflexivity.
  - unfold MY_PI, Rdiv. split; (f_equal; [ring | f_equal; ring]).
Qed.

End TailMore.

(** ** The further properties on the sample data *)

Lemma init_one_twice_witness :
  (setflag sample_cfg 1%Z 2%Z <> 0%Z \/ 1%Z <> 2%Z) /\
  let r1 := init_one sample_mix_weight sample_Allreduce sample_cfg atom2 1 2 in
  let r2 := init_one sample_mix_weight sample_Allreduce (snd r1) atom2 1 2 in
  fst r2 = fst r1 /\
  epsilon (snd r2) 1%Z 2%Z = epsilon (snd r1) 1%Z 2%Z /\
  sigma (snd r2) 1%Z 2%Z = sigma (snd r1) 1%Z 2%Z /\
  cut_lj (snd r2) 1%Z 2%Z = cut_lj (snd r1) 1%Z 2%Z /\
  derived_sym (snd r2) 1 2 /\
  cut_ljsq (snd r2) 1%Z 2%Z = cut_ljsq (snd r1) 1%Z 2%Z /\
  lj1 (snd r2) 1%Z 2%Z = lj1 (snd r1) 1%Z 2%Z /\
  lj2 (snd r2) 1%Z 2%Z = lj2 (snd r1) 1%Z 2%Z /\
  lj3 (snd r2) 1%Z 2%Z = lj3 (snd r1) 1%Z 2%Z /\
  lj4 (snd r2) 1%Z 2%Z = lj4 (snd r1) 1%Z 2%Z /\
  offset (snd r2) 1%Z 2%Z = offset (snd r1) 1%Z 2%Z.
Proof.
  assert (setflag sample_cfg 1%Z 2%Z <> 0%Z \/ 1%Z <> 2%Z) as H
    by (right; discriminate).
  split; [exact H |].
  exact (init_one_twice sample_mix_weight sample_Allreduce sample_cfg atom2 1 2 H).
Defined.

Lemma restart_then_init_one_witness :
  (1 <= 1 <= 2)%Z /\ (2 <= ntypes atom2)%Z /\
  (setflag sample_cfg 1%Z 2%Z <> 0%Z \/
   (setflag sample_cfg 1%Z 1%Z <> 0%Z /\ setflag sample_cfg 2%Z 2%Z <> 0%Z)) /\
  exists st',
    read_restart raw0 atom2 (write_restart sample_cfg atom2 [] ++ []) = Some (st', []) /\
    let r := init_one sample_mix_weight sample_Allreduce sample_cfg atom2 1 2 in
    let r' := init_one sample_mix_weight sample_Allreduce st' atom2 1 2 in
    fst r' = fst r /\
    (cut_ljsq (snd r') 1%Z 2%Z = cut_ljsq (snd r) 1%Z 2%Z /\
     lj1 (snd r') 1%Z 2%Z = lj1 (snd r) 1%Z 2%Z /\
     lj2 (snd r') 1%Z 2%Z = lj2 (snd r) 1%Z 2%Z /\
     lj3 (snd r') 1%Z 2%Z = lj3 (snd r) 1%Z 2%Z /\
     lj4 (snd r') 1%Z 2%Z = lj4 (snd r) 1%Z 2%Z /\
     offset (snd r') 1%Z 2%Z = offset (snd r) 1%Z 2%Z) /\
    (cut_ljsq (snd r') 2%Z 1%Z = cut_ljsq (snd r) 2%Z 1%Z /\
     lj1 (snd r') 2%Z 1%Z = lj1 (snd r) 2%Z 1%Z /\
     lj2 (snd r') 2%Z 1%Z = lj2 (snd r) 2%Z 1%Z /\
     lj3 (snd r') 2%Z 1%Z = lj3 (snd r) 2%Z 1%Z /\
     lj4 (snd r') 2%Z 1%Z = lj4 (snd r) 2%Z 1%Z /\
     offset (snd r') 2%Z 1%Z = offset (snd r) 2%Z 1%Z).
Proof.
  assert (1 <= 1 <= 2)%Z as H1 by lia.
  assert (2 <= ntypes atom2)%Z as H2 by (cbn; lia).
  assert (setflag sample_cfg 1%Z 2%Z <> 0%Z \/
          (setflag sample_cfg 1%Z 1%Z <> 0%Z /\ setflag sample_cfg 2%Z 2%Z <> 0%Z))
    as H3 by (left; cbn; discriminate).
  split; [exact H1 |]. split; [exact H2 |]. split; [exact H3 |].
  exact (restart_then_init_one sample_mix_weight sample_Allreduce raw0 sample_cfg
           atom2 [] 1 2 H1 H2 H3).
Defined.

Lemma coeff_fresh_flags_witness :
  allocated sample_set = 0%Z /\
  coeff sample_numeric sample_bounds sample_set atom2
    ["1*2"; "1*2"; "0.5"; "1.2"]%string = Ok sample_coeffed /\
  allocated sample_coeffed = 1%Z /\
  (4 <= List.length ["1*2"; "1*2"; "0.5"; "1.2"]%string <= 5)%nat /\
  exists ilo ihi jlo jhi,
    sample_bounds (nth 0 ["1*2"; "1*2"; "0.5"; "1.2"]%string ""%string)
      (ntypes atom2) = Ok (ilo, ihi) /\
    sample_bounds (nth 1 ["1*2"; "1*2"; "0.5"; "1.2"]%string ""%string)
      (ntypes atom2) = Ok (jlo, jhi) /\
    forall i j, (1 <= i <= j)%Z -> (j <= ntypes atom2)%Z ->
      setflag sample_coeffed i j = (if covered ilo ihi jlo jhi i j then 1 else 0)%Z.
Proof.
  assert (allocated sample_set = 0%Z) as H1 by reflexivity.
  assert (coeff sample_numeric sample_bounds sample_set atom2
            ["1*2"; "1*2"; "0.5"; "1.2"]%string = Ok sample_coeffed) as H2
    by reflexivity.
  split; [exact H1 |]. split; [exact H2 |].
  exact (coeff_fresh_flags sample_numeric sample_bounds sample_set sample_coeffed
           atom2 _ H1 H2).
Defined.

Lemma settings_defaults_witness :
  settings sample_numeric pair0 atom2 ["0"; "2.5"]%string = Ok sample_set /\
  sample_numeric "2.5" = Ok (cut_lj_global sample_set) /\
  cut_coul sample_set = cut_lj_global sample_set /\
  self_flag sample_set = self_flag pair0 /\
  unshifted_flag sample_set = unshifted_flag pair0.
Proof.
  assert (settings sample_numeric pair0 atom2 ["0"; "2.5"]%string = Ok sample_set)
    as H by reflexivity.
  split; [exact H |].
  exact (settings_defaults sample_numeric pair0 sample_set atom2 "0" "2.5" [] H).
Defined.

Lemma neigh_two_in_range : neigh_in_range sample_NEIGHMASK neigh_two 2.
Proof.
  split.
  - intros i [<- | []]. lia.
  - intros i jraw [<- | []] Hj. cbn in Hj. destruct Hj as [<- | []].
    cbn. lia.
Qed.

Lemma compute_conserves_total_force_witness :
  (newton_pair force1 <> 0%Z \/ (2 <= nlocal atom_two)%Z) /\
  neigh_in_range sample_NEIGHMASK neigh_two 2 /\
  total_force
    (fst (fst (compute sample_sbmask sample_NEIGHMASK sample_ev_setup sample_pair
                 atom_two force1 neigh_two 1 0))) 2 0 =
  total_force (atom_f atom_two) 2 0.
Proof.
  assert (newton_pair force1 <> 0%Z \/ (2 <= nlocal atom_two)%Z) as H1
    by (left; cbn; discriminate).
  split; [exact H1 |]. split; [exact neigh_two_in_range |].
  exact (compute_conserves_total_force sample_sbmask sample_NEIGHMASK
           sample_ev_setup sample_pair atom_two force1 neigh_two 1 0 2 0 H1
           neigh_two_in_range).
Defined.

(** In the sample the two particles get opposite, non-zero forces along the
    first axis. *)
Example compute_forces_sample :
  let f := fst (fst (compute sample_sbmask sample_NEIGHMASK sample_ev_setup
                       sample_pair atom_two force1 neigh_two 1 0)) in
  f 0%Z 0%Z = -24 + (1 - 0.16) /\ f 1%Z 0%Z = 24 - (1 - 0.16) /\
  f 0%Z 1%Z = 0 /\ f 1%Z 2%Z = 0.
Proof.
  assert (sqrt 1 = 1) as Hs by apply sqrt_1.
  eval_model.
  replace ((0 + - (1)) * (0 + - (1)) + (0 + - 0) * (0 + - 0) + (0 + - 0) * (0 + - 0))
    with 1 by ring.
  rewrite Hs.
  destruct (Rlt_dec 1 (2.5 * 2.5)); [| lra].
  cbn -[IZR Q2R Rplus Rmult Ropp Rinv].
  repeat split; lra.
Qed.

Lemma sample_pair_values :
  cut_ljsq sample_pair 1%Z 1%Z = 6.25 /\ cut_coulsq sample_pair = 6.25 /\
  cut_lj sample_pair 1%Z 1%Z = 2.5 /\ cut_coul sample_pair = 2.5 /\
  cutsq sample_pair 1%Z 1%Z = 6.25 /\ unshifted sample_pair = DampNone.
Proof.
  eval_model. repeat split; lra.
Qed.

Lemma neighbour_pair_as_single_witness :
  let v := {| c_f := atom_f atom_two; c_evdwl := 0; c_ecoul := 0; c_log := [] |} in
  let j := Z.land 1 sample_NEIGHMASK in
  let delx := atom_x atom_two 0%Z 0%Z - atom_x atom_two j 0%Z in
  let dely := atom_x atom_two 0%Z 1%Z - atom_x atom_two j 1%Z in
  let delz := atom_x atom_two 0%Z 2%Z - atom_x atom_two j 2%Z in
  let rsq := delx * delx + dely * dely + delz * delz in
  let res :=
    single sample_pair atom_two force1 0 j (atom_type atom_two 0%Z)
      (atom_type atom_two j) rsq
      (special_coul force1 (sample_sbmask 1)) (special_lj force1 (sample_sbmask 1)) in
  rsq < cutsq sample_pair (atom_type atom_two 0%Z) (atom_type atom_two j) /\
  (1 <> 0)%Z /\
  exists t,
    c_log (compute_pair sample_sbmask sample_NEIGHMASK sample_pair atom_two force1
             1 1 0 1 v) = c_log v ++ [t] /\
    t_i t = 0%Z /\ t_j t = j /\
    t_fpair t = snd res /\
    t_evdwl t + t_ecoul t = fst res.
Proof.
  cbv zeta.
  assert ((atom_x atom_two 0%Z 0%Z - atom_x atom_two (Z.land 1 sample_NEIGHMASK) 0%Z) *
          (atom_x atom_two 0%Z 0%Z - atom_x atom_two (Z.land 1 sample_NEIGHMASK) 0%Z) +
          (atom_x atom_two 0%Z 1%Z - atom_x atom_two (Z.land 1 sample_NEIGHMASK) 1%Z) *
          (atom_x atom_two 0%Z 1%Z - atom_x atom_two (Z.land 1 sample_NEIGHMASK) 1%Z) +
          (atom_x atom_two 0%Z 2%Z - atom_x atom_two (Z.land 1 sample_NEIGHMASK) 2%Z) *
          (atom_x atom_two 0%Z 2%Z - atom_x atom_two (Z.land 1 sample_NEIGHMASK) 2%Z) <
          cutsq sample_pair (atom_type atom_two 0%Z)
            (atom_type atom_two (Z.land 1 sample_NEIGHMASK))) as Hcut.
  { eval_model. lra. }
  assert (1 <> 0)%Z as Hne by discriminate.
  split; [exact Hcut |]. split; [exact Hne |].
  exact (neighbour_pair_as_single sample_sbmask sample_NEIGHMASK sample_pair
           atom_two force1 1 1 0 1 _ Hcut Hne Hne).
Defined.

Lemma single_force_is_minus_gradient_witness :
  0 < 1 /\
  1 * 1 <> cut_ljsq sample_pair 1%Z 1%Z /\
  1 * 1 <> cut_coulsq sample_pair /\
  (lj1 sample_pair 1%Z 1%Z = 12 * lj3 sample_pair 1%Z 1%Z /\
   lj2 sample_pair 1%Z 1%Z = 6 * lj4 sample_pair 1%Z 1%Z) /\
  unshifted sample_pair <> DampErfc /\
  derivable_pt_lim
    (fun y => fst (single sample_pair atom_two force1 0 1 1 1 (y * y) 1 1)) 1
    (- (1 * snd (single sample_pair atom_two force1 0 1 1 1 (1 * 1) 1 1))).
Proof.
  destruct sample_pair_values as (V1 & V2 & _ & _ & _ & V6).
  assert (1 * 1 <> cut_ljsq sample_pair 1%Z 1%Z) as H1 by (rewrite V1; lra).
  assert (1 * 1 <> cut_coulsq sample_pair) as H2 by (rewrite V2; lra).
  assert (lj1 sample_pair 1%Z 1%Z = 12 * lj3 sample_pair 1%Z 1%Z /\
          lj2 sample_pair 1%Z 1%Z = 6 * lj4 sample_pair 1%Z 1%Z) as H3
    by apply init_one_lj_ratio.
  assert (unshifted sample_pair <> DampErfc) as H4 by (rewrite V6; discriminate).
  split; [exact Rlt_0_1 |]. split; [exact H1 |]. split; [exact H2 |].
  split; [exact H3 |]. split; [exact H4 |].
  exact (single_force_is_minus_gradient sample_pair atom_two force1 0 1 1 1 1 1 1
           Rlt_0_1 H1 H2 H3 H4).
Defined.

Lemma lj_energy_zero_at_cutoff_witness :
  offset_flag sample_mix_cfg <> 0%Z /\
  cut_lj (snd (init_one sample_mix_weight sample_Allreduce sample_mix_cfg atom2 1 2))
    1%Z 2%Z <> 0 /\
  let st' := snd (init_one sample_mix_weight sample_Allreduce sample_mix_cfg atom2 1 2) in
  let rsq := cut_ljsq st' 1%Z 2%Z in
  let r2inv := 1 / rsq in
  let r6inv := r2inv * r2inv * r2inv in
  1 * r6inv * (lj3 st' 1%Z 2%Z * r6inv - lj4 st' 1%Z 2%Z) - offset st' 1%Z 2%Z = 0.
Proof.
  assert (offset_flag sample_mix_cfg <> 0%Z) as H1 by (cbn; discriminate).
  assert (cut_lj (snd (init_one sample_mix_weight sample_Allreduce sample_mix_cfg
                         atom2 1 2)) 1%Z 2%Z <> 0) as H2.
  { eval_model. lra. }
  split; [exact H1 |]. split; [exact H2 |].
  exact (lj_energy_zero_at_cutoff sample_mix_weight sample_Allreduce sample_mix_cfg
           atom2 1 2 H1 H2).
Defined.


Lemma undamped_shifted_terms_witness :
  unshifted_flag sample_cfg = 0%Z /\ 0 < cut_coul sample_cfg /\ 0 < 1 /\
  let st' := init_parameters sample_cfg force1 in
  let rc := cut_coul sample_cfg in
  let v := v_of (unshifted st') (alpha st') 1 in
  let f := f_of (unshifted st') (alpha st') 1 in
  f - f_shift st' = (rc ^ 2 - 1 ^ 2) / (1 ^ 2 * rc ^ 2) /\
  v + 1 * f_shift st' - e_shift st' = (rc - 1) ^ 2 / (1 * rc ^ 2) /\
  0 <= v + 1 * f_shift st' - e_shift st'.
Proof.
  assert (0 < cut_coul sample_cfg) as H by (cbn; lra).
  split; [reflexivity |]. split; [exact H |]. split; [exact Rlt_0_1 |].
  exact (undamped_shifted_terms sample_cfg force1 1 eq_refl H Rlt_0_1).
Defined.

(** ** Allocation *)

(** X20.  [allocate] marks the tables as allocated and clears the flag of
    every pair [1 <= i <= j <= n]; the flags below the diagonal and outside
    the types, like every entry of epsilon, sigma and the cutoffs, keep what
    the storage held, and the global settings are untouched. *)
Theorem allocate_spec (st : Pair) (atom : Atom) (i j : Z) :
  let st' := allocate st atom in
  allocated st' = 1%Z /\
  setflag st' i j =
    (if ((1 <=? i) && (i <=? j) && (j <=? ntypes atom))%Z then 0%Z
     else setflag st i j) /\
  epsilon st' i j = epsilon st i j /\ sigma st' i j = sigma st i j /\
  cut_lj st' i j = cut_lj st i j /\
  alpha st' = alpha st /\ cut_lj_global st' = cut_lj_global st /\
  cut_coul st' = cut_coul st /\ self_flag st' = self_flag st /\
  unshifted_flag st' = unshifted_flag st.
Proof.
  cbv zeta. split; [reflexivity |].
  split; [apply allocate_setflag |].
  cbn. repeat split.
Qed.
